(** * ai-index: section resolution and the embedded index block

    A shallow embedding of the JavaScript programs of the repository

      - [src/index.mjs]        the library                 (module [Lib])
      - [src/mcp-server.mjs]   the agent-facing server     (module [Server])
      - [skills/SKILL.md]      the server of version 2.1, which reads
                               companion documents         (module [Server21])
      - the command-line tool  [scripts/ai-index.mjs]      (module [Cli])

    together with the part of the JavaScript runtime they rely on (module
    [JS]): strings as sequences of UTF-16 code units, the string methods the
    programs call, and a backtracking matcher for the regular expressions
    they contain.  Regular expressions are written as in the source and
    parsed by [JS.parse]. *)

From Stdlib Require Import List NArith ZArith Lia Bool Ascii String Arith Sorted.
Import ListNotations.
Open Scope string_scope.
Open Scope nat_scope.
Open Scope list_scope.

Abbreviation length := Datatypes.length (only parsing).

(* ================================================================== *)
(** * Part I: definitions                                              *)
(* ================================================================== *)

Module JS.

(** ** Strings: lists of UTF-16 code units *)

Definition char := N.
Definition str := list char.

Definition str_eq_dec : forall a b : str, {a = b} + {a <> b} :=
  list_eq_dec N.eq_dec.

Definition eqs (a b : str) : bool := if str_eq_dec a b then true else false.

(** A literal of the development is a Rocq string, that is UTF-8 bytes;
    [utf8] decodes it to code units (one to three bytes, which covers every
    character of the sources). *)
Fixpoint utf8 (bs : list N) : str :=
  match bs with
  | [] => []
  | b :: t =>
      if (b <? 128)%N then b :: utf8 t
      else if (b <? 224)%N then
        match t with
        | c :: t' => ((b - 192) * 64 + (c - 128))%N :: utf8 t'
        | [] => [b]
        end
      else
        match t with
        | c :: d :: t' =>
            ((b - 224) * 4096 + (c - 128) * 64 + (d - 128))%N :: utf8 t'
        | _ => [b]
        end
  end.

Definition lit (s : String.string) : str :=
  utf8 (map N_of_ascii (list_ascii_of_string s)).

Definition dq : str := [34%N].   (* the double quote *)
Definition nl : char := 10%N.

(** ECMAScript WhiteSpace and LineTerminator code units: the set of [\s]
    and of [String.prototype.trim]. *)
Definition isLineTerminator (c : char) : bool :=
  ((c =? 10) || (c =? 13) || (c =? 8232) || (c =? 8233))%N.

Definition isSpace (c : char) : bool :=
  ((c =? 9) || (c =? 10) || (c =? 11) || (c =? 12) || (c =? 13) || (c =? 32)
   || (c =? 160) || (c =? 5760) || ((8192 <=? c) && (c <=? 8202))
   || (c =? 8232) || (c =? 8233) || (c =? 8239) || (c =? 8287)
   || (c =? 12288) || (c =? 65279))%N.

Definition isDigit (c : char) : bool := ((48 <=? c) && (c <=? 57))%N.

Definition isWord (c : char) : bool :=
  (isDigit c || ((65 <=? c) && (c <=? 90)) || ((97 <=? c) && (c <=? 122))
   || (c =? 95))%N.

(** [s.trim()] *)
Fixpoint trimStart (s : str) : str :=
  match s with
  | c :: t => if isSpace c then trimStart t else s
  | [] => []
  end.

Definition trimEnd (s : str) : str := rev (trimStart (rev s)).
Definition trim (s : str) : str := trimEnd (trimStart s).

(** [s.startsWith(p)] and [s.includes(p)] *)
Fixpoint startsWith (p s : str) : bool :=
  match p, s with
  | [], _ => true
  | a :: p', b :: s' => (a =? b)%N && startsWith p' s'
  | _ :: _, [] => false
  end.

Fixpoint includes (p s : str) : bool :=
  startsWith p s ||
  match s with
  | _ :: t => includes p t
  | [] => false
  end.

(** [c.repeat(n)], [s.padEnd(n)], [s.padStart(n)] (padding with spaces) *)
Definition spaces (n : nat) : str := repeat 32%N n.
Definition padEnd (n : nat) (s : str) : str := s ++ spaces (n - length s).
Definition padStart (n : nat) (s : str) : str := spaces (n - length s) ++ s.

(** [s.slice(a, b)] and [s.slice(a)] for indices within [0, length] *)
Definition slice (a b : nat) (s : str) : str := firstn (b - a) (skipn a s).
Definition sliceFrom (a : nat) (s : str) : str := skipn a s.

(** [s.split('\n')]: never empty; [lines.join('\n')] *)
Fixpoint split_nl (s : str) : list str :=
  match s with
  | [] => [[]]
  | c :: t =>
      if (c =? nl)%N then [] :: split_nl t
      else match split_nl t with
           | l :: ls => (c :: l) :: ls
           | [] => [[c]]
           end
  end.

Fixpoint join_nl (ls : list str) : str :=
  match ls with
  | [] => []
  | [l] => l
  | l :: ls' => l ++ nl :: join_nl ls'
  end.

(** [Math.max(20, ...xs)] *)
Definition max_of (base : nat) (xs : list nat) : nat :=
  fold_left Nat.max xs base.

(** ** Numbers: the integers among the JavaScript numbers *)

(** The integers up to [Number.MAX_SAFE_INTEGER] in absolute value are
    JavaScript numbers, and sums and differences that stay in this range
    are exact.  Beyond it the numbers have gaps, and from [10^21] on
    [String] writes an exponent: an integer of this development stands for
    a JavaScript number within the range only. *)
Definition MAX_SAFE_INTEGER : Z := 2 ^ 53 - 1.

(** [String(n)] for an integer of the safe range: decimal digits, a
    leading minus sign for negatives. *)
Fixpoint digits_fuel (fuel : nat) (n : N) (acc : str) : str :=
  match fuel with
  | O => acc
  | S f =>
      let acc' := (48 + n mod 10)%N :: acc in
      if (n <? 10)%N then acc' else digits_fuel f (n / 10)%N acc'
  end.

Definition digits (n : N) : str := digits_fuel (S (N.to_nat (N.log2 n))) n [].

Definition String_ (z : Z) : str :=
  if (z <? 0)%Z then 45%N :: digits (Z.to_N (- z)) else digits (Z.to_N z).

(** [parseInt(s)] on a string that starts with a decimal digit: the value of
    its leading run of digits, when it lies in the safe range (JavaScript
    rounds a larger one).  (The programs apply it to [\d+] captures only,
    so the sign, blank-skipping and NaN cases of [parseInt] do not
    arise.) *)
Fixpoint parse_digits (acc : N) (s : str) : N :=
  match s with
  | c :: t => if isDigit c then parse_digits (acc * 10 + (c - 48))%N t else acc
  | [] => acc
  end.

Definition parseInt (s : str) : Z := Z.of_N (parse_digits 0%N s).

(** ** Regular expressions *)

(** Character sets: one pattern character, [.], the escapes [\s \d \w],
    complements and the members of a bracket class. *)
Inductive cset : Type :=
| CChar (c : char)
| CAny
| CSpace
| CDigit
| CWord
| CNot (s : cset)
| COr (a b : cset)
| CNone.

Inductive regex : Type :=
| Eps
| Chr (s : cset)
| Cat (a b : regex)
| Alt (a b : regex)
| Rep (greedy : bool) (min : nat) (s : cset)   (* s*, s+, s{n,} and lazy forms *)
| Opt (r : regex)                              (* r? *)
| Grp (i : nat) (r : regex)                    (* capturing group number i *)
| Look (r : regex)                             (* lookahead (?=r) *)
| Bol                                          (* ^ *)
| Eol.                                         (* $ *)

Record flags : Type := { icase : bool; multiline : bool }.

Definition noflags : flags := {| icase := false; multiline := false |}.
Definition flag_i : flags := {| icase := true; multiline := false |}.
Definition flag_m : flags := {| icase := false; multiline := true |}.

(** Canonicalize of a non-unicode, ignore-case pattern.  The patterns of the
    programs contain ASCII literals only under [/i]; for these the
    comparison reduces to ASCII case folding, since Canonicalize never maps a
    code unit above 127 to one below 128. *)
Definition canon (c : char) : char :=
  if ((97 <=? c) && (c <=? 122))%N then (c - 32)%N else c.

Fixpoint cmatch (fl : flags) (s : cset) (c : char) : bool :=
  match s with
  | CChar x => if icase fl then (canon x =? canon c)%N else (x =? c)%N
  | CAny => negb (isLineTerminator c)
  | CSpace => isSpace c
  | CDigit => isDigit c
  | CWord => isWord c
  | CNot s' => negb (cmatch fl s' c)
  | COr a b => cmatch fl a c || cmatch fl b c
  | CNone => false
  end.

(** A matcher state: the position in the subject, the code unit before it,
    the subject from the position on, and the captures made so far. *)
Record mstate : Type := mkst {
  pos : nat;
  prev : option char;
  rest : str;
  caps : list (nat * str)
}.

Definition advance (c : char) (t : str) (st : mstate) : mstate :=
  mkst (S (pos st)) (Some c) t (caps st).

(** The states reached by consuming 0, 1, 2, ... code units of the set, in
    that order. *)
Fixpoint rep_from (fl : flags) (s : cset) (p : nat) (pv : option char)
    (l : str) (cs : list (nat * str)) : list mstate :=
  mkst p pv l cs ::
  match l with
  | c :: t => if cmatch fl s c then rep_from fl s (S p) (Some c) t cs else []
  | [] => []
  end.

Definition at_bol (fl : flags) (st : mstate) : bool :=
  match prev st with
  | None => true
  | Some c => multiline fl && isLineTerminator c
  end.

Definition at_eol (fl : flags) (st : mstate) : bool :=
  match rest st with
  | [] => true
  | c :: _ => multiline fl && isLineTerminator c
  end.

(** [run fl r st]: every way [r] matches at [st], in the order a
    backtracking matcher tries them; the head is the match it reports. *)
Fixpoint run (fl : flags) (r : regex) (st : mstate) : list mstate :=
  match r with
  | Eps => [st]
  | Chr s =>
      match rest st with
      | c :: t => if cmatch fl s c then [advance c t st] else []
      | [] => []
      end
  | Cat a b => flat_map (run fl b) (run fl a st)
  | Alt a b => run fl a st ++ run fl b st
  | Rep greedy n s =>
      let all := skipn n (rep_from fl s (pos st) (prev st) (rest st) (caps st)) in
      if greedy then rev all else all
  | Opt r' =>
      filter (fun st' => negb (pos st' =? pos st)) (run fl r' st) ++ [st]
  | Grp i r' =>
      map (fun st' =>
             mkst (pos st') (prev st') (rest st')
                  ((i, firstn (pos st' - pos st) (rest st)) :: caps st'))
          (run fl r' st)
  | Look r' =>
      match run fl r' st with
      | st' :: _ => [mkst (pos st) (prev st) (rest st) (caps st')]
      | [] => []
      end
  | Bol => if at_bol fl st then [st] else []
  | Eol => if at_eol fl st then [st] else []
  end.

(** A match result: [m.index], [m[0]], the groups, and the state after the
    match (from which a global search resumes). *)
Record mresult : Type := mkres {
  index : nat;
  matched : str;
  groups : list (nat * str);
  after : mstate
}.

Fixpoint assoc (i : nat) (g : list (nat * str)) : option str :=
  match g with
  | [] => None
  | (j, s) :: g' => if i =? j then Some s else assoc i g'
  end.

(** [m[i]]: [None] is [undefined] *)
Definition group (i : nat) (m : mresult) : option str := assoc i (groups m).

(** The leftmost match at or after the current position. *)
Fixpoint search (fl : flags) (r : regex) (p : nat) (pv : option char)
    (l : str) : option mresult :=
  match run fl r (mkst p pv l []) with
  | st' :: _ => Some (mkres p (firstn (pos st' - p) l) (caps st') st')
  | [] =>
      match l with
      | c :: t => search fl r (S p) (Some c) t
      | [] => None
      end
  end.

Record RegExp : Type := mkre { re_body : regex; re_flags : flags }.

(** [s.match(re)] and [re.exec(s)] for a pattern without the [g] flag *)
Definition exec (re : RegExp) (s : str) : option mresult :=
  search (re_flags re) (re_body re) 0 None s.

(** [re.test(s)] for a pattern without the [g] flag *)
Definition test (re : RegExp) (s : str) : bool :=
  match exec re s with Some _ => true | None => false end.

(** [s.matchAll(re)] for a pattern with the [g] flag: successive matches,
    each search resuming where the previous match ended (one code unit
    further after an empty match). *)
Fixpoint matchAll_from (fuel : nat) (re : RegExp) (p : nat)
    (pv : option char) (l : str) : list mresult :=
  match fuel with
  | O => []
  | S f =>
      match search (re_flags re) (re_body re) p pv l with
      | None => []
      | Some m =>
          let st := after m in
          m ::
          (if pos st =? index m then
             match rest st with
             | c :: t => matchAll_from f re (S (pos st)) (Some c) t
             | [] => []
             end
           else matchAll_from f re (pos st) (prev st) (rest st))
      end
  end.

Definition matchAll (re : RegExp) (s : str) : list mresult :=
  matchAll_from (S (length s)) re 0 None s.

(** [s.replace(re, by)] for a pattern without the [g] flag and a
    replacement text without [$]: the first match is replaced. *)
Definition replace (re : RegExp) (by_ : str) (s : str) : str :=
  match exec re s with
  | Some m => firstn (index m) s ++ by_ ++ skipn (index m + length (matched m)) s
  | None => s
  end.

(** ** Reading a pattern

    [parse] reads the source text of a pattern (the text between the
    slashes) into a [regex].  It covers the syntax the programs use:
    literals, [.], [^], [$], the escapes [\s \S \d \w \n] and escaped
    punctuation, bracket classes without ranges (a hyphen that opens a
    class stands for itself), capturing and [(?:)] groups, the lookahead
    [(?=)], alternation, and the quantifiers [*], [+], [{n,}] (greedy or
    lazy, on a single character or class) and [?].  Anything else is
    refused ([None]). *)

Definition ch (s : String.string) : char :=
  match lit s with c :: _ => c | [] => 0%N end.

Definition escape (c : char) : option cset :=
  if (c =? ch "s")%N then Some CSpace
  else if (c =? ch "S")%N then Some (CNot CSpace)
  else if (c =? ch "d")%N then Some CDigit
  else if (c =? ch "w")%N then Some CWord
  else if (c =? ch "n")%N then Some (CChar nl)
  else if isWord c then None
  else Some (CChar c).

Fixpoint parse_class (s : str) (acc : cset) : option (cset * str) :=
  match s with
  | [] => None
  | c :: t =>
      if (c =? ch "]")%N then Some (acc, t)
      else if (c =? ch "\")%N then
        match t with
        | e :: t' =>
            match escape e with
            | Some x => parse_class t' (COr acc x)
            | None => None
            end
        | [] => None
        end
      else if (c =? ch "-")%N then None
      else parse_class t (COr acc (CChar c))
  end.

Fixpoint parse_nat (acc : nat) (s : str) : nat * str :=
  match s with
  | c :: t =>
      if isDigit c then parse_nat (acc * 10 + N.to_nat (c - 48)) t
      else (acc, s)
  | [] => (acc, s)
  end.

(** A quantifier after the atom [a] *)
Definition lazy_mark (s : str) : bool * str :=
  match s with
  | c :: t => if (c =? ch "?")%N then (false, t) else (true, s)
  | [] => (true, s)
  end.

Definition repeat_of (a : regex) (min : nat) (s : str) : option (regex * str) :=
  match a with
  | Chr x => let (g, s') := lazy_mark s in Some (Rep g min x, s')
  | _ => None
  end.

Definition parse_quant (a : regex) (s : str) : option (regex * str) :=
  match s with
  | c :: t =>
      if (c =? ch "*")%N then repeat_of a 0 t
      else if (c =? ch "+")%N then repeat_of a 1 t
      else if (c =? ch "{")%N then
        match parse_nat 0 t with
        | (n, c1 :: c2 :: t') =>
            if ((c1 =? ch ",") && (c2 =? ch "}"))%N then repeat_of a n t'
            else None
        | _ => None
        end
      else if (c =? ch "?")%N then
        match t with
        | c' :: _ => if (c' =? ch "?")%N then None else Some (Opt a, t)
        | [] => Some (Opt a, t)
        end
      else Some (a, s)
  | [] => Some (a, s)
  end.

Definition cat (a b : regex) : regex :=
  match b with Eps => a | _ => Cat a b end.

(** The third component is the number of the next capturing group. *)
Fixpoint parse_alt (fuel : nat) (s : str) (n : nat)
    : option (regex * str * nat) :=
  match fuel with
  | O => None
  | S f =>
      match parse_seq f s n with
      | Some (a, c :: t, n') =>
          if (c =? ch "|")%N then
            match parse_alt f t n' with
            | Some (b, s', n'') => Some (Alt a b, s', n'')
            | None => None
            end
          else Some (a, c :: t, n')
      | other => other
      end
  end

with parse_seq (fuel : nat) (s : str) (n : nat)
    : option (regex * str * nat) :=
  match fuel with
  | O => None
  | S f =>
      match s with
      | [] => Some (Eps, [], n)
      | c :: _ =>
          if ((c =? ch ")") || (c =? ch "|"))%N then Some (Eps, s, n)
          else
            match parse_atom f s n with
            | Some (a, s1, n1) =>
                match parse_quant a s1 with
                | Some (q, s2) =>
                    match parse_seq f s2 n1 with
                    | Some (b, s3, n3) => Some (cat q b, s3, n3)
                    | None => None
                    end
                | None => None
                end
            | None => None
            end
      end
  end

with parse_atom (fuel : nat) (s : str) (n : nat)
    : option (regex * str * nat) :=
  match fuel with
  | O => None
  | S f =>
      match s with
      | [] => None
      | c :: t =>
          if (c =? ch "(")%N then
            match t with
            | c1 :: c2 :: t' =>
                if ((c1 =? ch "?") && (c2 =? ch ":"))%N then
                  match parse_alt f t' n with
                  | Some (a, c3 :: s', n') =>
                      if (c3 =? ch ")")%N then Some (a, s', n') else None
                  | _ => None
                  end
                else if ((c1 =? ch "?") && (c2 =? ch "="))%N then
                  match parse_alt f t' n with
                  | Some (a, c3 :: s', n') =>
                      if (c3 =? ch ")")%N then Some (Look a, s', n') else None
                  | _ => None
                  end
                else if (c1 =? ch "?")%N then None
                else
                  match parse_alt f t (S n) with
                  | Some (a, c3 :: s', n') =>
                      if (c3 =? ch ")")%N then Some (Grp n a, s', n') else None
                  | _ => None
                  end
            | _ => None
            end
          else if (c =? ch "[")%N then
            match t with
            | c1 :: t' =>
                if (c1 =? ch "^")%N then
                  match parse_class t' CNone with
                  | Some (x, s') => Some (Chr (CNot x), s', n)
                  | None => None
                  end
                else if (c1 =? ch "-")%N then
                  match parse_class t' (COr CNone (CChar c1)) with
                  | Some (x, s') => Some (Chr x, s', n)
                  | None => None
                  end
                else
                  match parse_class t CNone with
                  | Some (x, s') => Some (Chr x, s', n)
                  | None => None
                  end
            | [] => None
            end
          else if (c =? ch "\")%N then
            match t with
            | e :: t' =>
                match escape e with
                | Some x => Some (Chr x, t', n)
                | None => None
                end
            | [] => None
            end
          else if (c =? ch ".")%N then Some (Chr CAny, t, n)
          else if (c =? ch "^")%N then Some (Bol, t, n)
          else if (c =? ch "$")%N then Some (Eol, t, n)
          else if ((c =? ch "*") || (c =? ch "+") || (c =? ch "?")
                   || (c =? ch "{") || (c =? ch "}") || (c =? ch "]"))%N
          then None
          else Some (Chr (CChar c), t, n)
      end
  end.

Definition parse (s : str) : option regex :=
  match parse_alt (4 * length s + 4) s 1 with
  | Some (r, [], _) => Some r
  | _ => None
  end.

(** The pattern [/src/flags]; a text [parse] refuses gives the pattern that
    matches nothing (every pattern of the programs is read, see
    [patterns_read] below). *)
Definition pattern (fl : flags) (src : str) : RegExp :=
  mkre (match parse src with Some r => r | None => Chr CNone end) fl.

Definition re (src : String.string) : RegExp := pattern noflags (lit src).
Definition re_i (src : String.string) : RegExp := pattern flag_i (lit src).
Definition re_m (src : String.string) : RegExp := pattern flag_m (lit src).

(** ** Objects used as maps

    [{}] filled by [o[k] = v] and read by [o[k]] and [Object.entries(o)].
    The object inherits from [Object.prototype]: assigning to the key
    [__proto__] replaces the prototype instead of adding a property, and
    reading a key that is not an own property finds the inherited one. *)

Section Objects.
Context {V : Type}.

Record obj : Type := mkobj { own : list (str * V); proto : option V }.

Definition empty_obj : obj := mkobj [] None.

Fixpoint upsert (k : str) (v : V) (l : list (str * V)) : list (str * V) :=
  match l with
  | [] => [(k, v)]
  | (k', v') :: t => if eqs k k' then (k, v) :: t else (k', v') :: upsert k v t
  end.

Fixpoint find_own (k : str) (l : list (str * V)) : option V :=
  match l with
  | [] => None
  | (k', v) :: t => if eqs k k' then Some v else find_own k t
  end.

Definition proto_key : str := lit "__proto__".

(** [o[k] = v] where [v] is an object *)
Definition set (k : str) (v : V) (o : obj) : obj :=
  if eqs k proto_key then mkobj (own o) (Some v)
  else mkobj (upsert k v (own o)) (proto o).

(** The members of [Object.prototype] other than [__proto__] *)
Definition object_prototype_keys : list str :=
  map lit ["constructor"; "hasOwnProperty"; "isPrototypeOf";
           "propertyIsEnumerable"; "toLocaleString"; "toString"; "valueOf";
           "__defineGetter__"; "__defineSetter__"; "__lookupGetter__";
           "__lookupSetter__"].

(** What [o[k]] evaluates to: a value stored by [set], some other value
    (of which only the truthiness matters), or [undefined]. *)
Inductive looked : Type :=
| Stored (v : V)
| Other (truthy : bool)
| Undefined.

(** [inherited_field v k] is what reading the property [k] of a stored
    value gives when it has such a property. *)
Definition get (inherited_field : V -> str -> option looked) (k : str)
    (o : obj) : looked :=
  match find_own k (own o) with
  | Some v => Stored v
  | None =>
      if eqs k proto_key then
        match proto o with Some p => Stored p | None => Other true end
      else
        match match proto o with
              | Some p => inherited_field p k
              | None => None
              end with
        | Some x => x
        | None =>
            if existsb (eqs k) object_prototype_keys then Other true
            else Undefined
        end
  end.

(** [Object.entries(o)]: the own properties, those whose key is an array
    index first, in ascending order, then the others in insertion order. *)
Definition array_index (k : str) : option N :=
  match k with
  | [] => None
  | c :: t =>
      if forallb isDigit k && (negb (c =? 48)%N || match t with [] => true | _ => false end)
         && (length k <=? 10) && (parse_digits 0 k <=? 4294967294)%N
      then Some (parse_digits 0 k) else None
  end.

Fixpoint insert_sorted (n : N) (kv : str * V) (l : list (N * (str * V)))
    : list (N * (str * V)) :=
  match l with
  | [] => [(n, kv)]
  | (m, x) :: t =>
      if (n <? m)%N then (n, kv) :: l else (m, x) :: insert_sorted n kv t
  end.

Definition entries (o : obj) : list (str * V) :=
  let idx :=
    fold_left (fun acc kv =>
                 match array_index (fst kv) with
                 | Some n => insert_sorted n kv acc
                 | None => acc
                 end) (own o) [] in
  map snd idx ++
  filter (fun kv => match array_index (fst kv) with
                    | Some _ => false
                    | None => true
                    end) (own o).

End Objects.
Arguments obj : clear implicits.
Arguments looked : clear implicits.

(** ** The file system and exceptions *)

(** What the programs ask of the file system, for each path:
    - [textOf]: the text [readFile(path, 'utf-8')] gives; none when the
      read fails (no such file, a directory, no permission);
    - [isFile]: [existsSync(path)] holds and [stat(path).isFile()] too;
    - [accessible]: [access(path, constants.R_OK)] succeeds;
    - [readOnly]: [writeFile(path, data)] fails (no permission, no room).
    A file system applied to a path is the text read there.  Paths are
    compared as texts. *)
Record FS : Type := mkFS {
  textOf :> str -> option str;
  isFile : str -> bool;
  accessible : str -> bool;
  readOnly : str -> bool
}.

(** An [async] function either returns or throws (its promise rejects). *)
Inductive result (A : Type) : Type :=
| Return (a : A)
| Throw (message : str).
Arguments Return {A} a.
Arguments Throw {A} message.

(** The file system in which [path] holds [data].  (The programs write
    the files they have read, so the path named a file before.) *)
Definition withFile (path data : str) (fs : FS) : FS :=
  mkFS (fun p => if eqs p path then Some data else fs p)
       (isFile fs) (accessible fs) (readOnly fs).

(** [await writeFile(path, data)] *)
Definition writeFile (path data : str) (fs : FS) : result FS :=
  if readOnly fs path
  then Throw (lit "EACCES: permission denied, open '" ++ path ++ lit "'")
  else Return (withFile path data fs).

(** [await readFile(path, 'utf-8')] *)
Definition readFile (path : str) (fs : FS) : result str :=
  match fs path with
  | Some content => Return content
  | None => Throw (lit "ENOENT: no such file or directory, open '" ++ path ++ lit "'")
  end.

(** ** [path.extname] (POSIX) and [String.prototype.toLowerCase] *)

Record ext_scan : Type := mkext {
  startDot : option nat;
  startPart : nat;
  endPart : option nat;
  matchedSlash : bool;
  preDotState : Z
}.

(** The loop of [extname], from the last code unit down; [rs] is the path
    reversed, its head the code unit at index [i]. *)
Fixpoint extname_loop (rs : str) (i : nat) (st : ext_scan) : ext_scan :=
  match rs with
  | [] => st
  | code :: rs' =>
      if (code =? 47)%N then
        if negb (matchedSlash st)
        then mkext (startDot st) (S i) (endPart st) (matchedSlash st) (preDotState st)
        else extname_loop rs' (pred i) st
      else
        let st1 :=
          match endPart st with
          | None => mkext (startDot st) (startPart st) (Some (S i)) false (preDotState st)
          | Some _ => st
          end in
        let st2 :=
          if (code =? 46)%N then
            match startDot st1 with
            | None => mkext (Some i) (startPart st1) (endPart st1) (matchedSlash st1) (preDotState st1)
            | Some _ =>
                if (preDotState st1 =? 1)%Z then st1
                else mkext (startDot st1) (startPart st1) (endPart st1) (matchedSlash st1) 1%Z
            end
          else
            match startDot st1 with
            | Some _ => mkext (startDot st1) (startPart st1) (endPart st1) (matchedSlash st1) (-1)%Z
            | None => st1
            end in
        extname_loop rs' (pred i) st2
  end.

Definition extname (path : str) : str :=
  let st := extname_loop (rev path) (pred (length path)) (mkext None 0 None true 0%Z) in
  match startDot st, endPart st with
  | Some d, Some e =>
      if (preDotState st =? 0)%Z
         || ((preDotState st =? 1)%Z && (d =? pred e) && (d =? S (startPart st)))
      then []
      else slice d e path
  | _, _ => []
  end.

(** Lower-casing maps the ASCII capitals to small letters; of the other
    code units only the Kelvin sign and the dotted capital I have a
    lower-case form containing an ASCII letter.  The remaining case mappings
    stay outside ASCII and are left out: the extensions of the registries
    are ASCII. *)
Definition toLowerCase (s : str) : str :=
  flat_map (fun c =>
              if ((65 <=? c) && (c <=? 90))%N then [(c + 32)%N]
              else if (c =? 8490)%N then [107%N]
              else if (c =? 304)%N then [105%N; 775%N]
              else [c]) s.

(** ** [path.basename], [path.dirname], [path.join] (POSIX) *)

(** The loop of [basename], from the last code unit down; [rs] is the path
    reversed, its head the code unit at index [i].  The result is [start]
    and [end] ([None] is [-1]). *)
Fixpoint basename_loop (rs : str) (i : nat) (end_ : option nat)
    (matchedSlash : bool) : nat * option nat :=
  match rs with
  | [] => (0, end_)
  | code :: rs' =>
      if (code =? 47)%N then
        if negb matchedSlash then (S i, end_)
        else basename_loop rs' (pred i) end_ matchedSlash
      else
        match end_ with
        | None => basename_loop rs' (pred i) (Some (S i)) false
        | Some _ => basename_loop rs' (pred i) end_ matchedSlash
        end
  end.

Definition basename (path : str) : str :=
  match basename_loop (rev path) (pred (length path)) None true with
  | (start, Some e) => slice start e path
  | (_, None) => []
  end.

(** The loop of [dirname], from the last code unit down to the second. *)
Fixpoint dirname_loop (rs : str) (i : nat) (matchedSlash : bool) : option nat :=
  match rs with
  | [] => None
  | code :: rs' =>
      if (code =? 47)%N then
        if negb matchedSlash then Some i
        else dirname_loop rs' (pred i) matchedSlash
      else dirname_loop rs' (pred i) false
  end.

Definition dirname (path : str) : str :=
  match path with
  | [] => lit "."
  | first :: others =>
      let hasRoot := (first =? 47)%N in
      match dirname_loop (rev others) (pred (length path)) true with
      | None => if hasRoot then lit "/" else lit "."
      | Some e => if hasRoot && (e =? 1) then lit "//" else slice 0 e path
      end
  end.

(** [s.lastIndexOf('/')] *)
Fixpoint lastIndexOf_slash (s : str) (i : nat) (found : option nat) : option nat :=
  match s with
  | [] => found
  | c :: t => lastIndexOf_slash t (S i) (if (c =? 47)%N then Some i else found)
  end.

(** The variables of [normalizeString]: [res], [lastSegmentLength],
    [lastSlash] and [dots] *)
Record norm_scan : Type := mknorm {
  res : str;
  lastSegmentLength : Z;
  lastSlash : Z;
  dots : Z
}.

(** What [normalizeString] does at a separator, or at the end of the path
    taken for one; [i] is the index. *)
Definition norm_separator (allowAboveRoot : bool) (path : str) (i : Z)
    (st : norm_scan) : norm_scan :=
  let above (r : str) :=
    if allowAboveRoot
    then mknorm (match r with [] => lit ".." | _ => r ++ lit "/.." end) 2 i 0
    else mknorm r (lastSegmentLength st) i 0 in
  if ((lastSlash st =? i - 1) || (dots st =? 1))%Z
  then mknorm (res st) (lastSegmentLength st) i 0
  else if (dots st =? 2)%Z then
    let r := res st in
    if (length r <? 2) || negb (lastSegmentLength st =? 2)%Z
       || negb (nth (length r - 1) r 0 =? 46)%N
       || negb (nth (length r - 2) r 0 =? 46)%N
    then
      if 2 <? length r then
        match lastIndexOf_slash r 0 None with
        | None => mknorm [] 0 i 0
        | Some k =>
            let r' := slice 0 k r in
            mknorm r'
                   (Z.of_nat (length r') - 1
                    - match lastIndexOf_slash r' 0 None with
                      | Some j => Z.of_nat j
                      | None => -1
                      end)
                   i 0
        end
      else if negb (length r =? 0) then mknorm [] 0 i 0
      else above r
    else above r
  else
    let segment := slice (Z.to_nat (lastSlash st + 1)) (Z.to_nat i) path in
    mknorm (match res st with [] => segment | r => r ++ 47%N :: segment end)
           (i - lastSlash st - 1) i 0.

(** The loop of [normalizeString] over the code units from index [i] on *)
Fixpoint norm_loop (allowAboveRoot : bool) (path : str) (l : str) (i : Z)
    (code : char) (st : norm_scan) : norm_scan :=
  match l with
  | [] =>
      if (code =? 47)%N then st
      else norm_separator allowAboveRoot path i st
  | c :: t =>
      norm_loop allowAboveRoot path t (i + 1) c
        (if (c =? 47)%N then norm_separator allowAboveRoot path i st
         else if (c =? 46)%N && negb (dots st =? -1)%Z
         then mknorm (res st) (lastSegmentLength st) (lastSlash st) (dots st + 1)
         else mknorm (res st) (lastSegmentLength st) (lastSlash st) (-1))
  end.

Definition normalizeString (path : str) (allowAboveRoot : bool) : str :=
  res (norm_loop allowAboveRoot path path 0 0%N (mknorm [] 0 (-1) 0)).

(** [path.normalize(path)] *)
Definition normalize (path : str) : str :=
  match path with
  | [] => lit "."
  | first :: _ =>
      let isAbsolute := (first =? 47)%N in
      let trailingSeparator := (last path 0 =? 47)%N in
      match normalizeString path (negb isAbsolute) with
      | [] =>
          if isAbsolute then lit "/"
          else if trailingSeparator then lit "./" else lit "."
      | p =>
          let p := if trailingSeparator then p ++ lit "/" else p in
          if isAbsolute then 47%N :: p else p
      end
  end.

(** [path.join(...args)]: the arguments that are not empty, with a slash
    between them, normalized. *)
Definition join (args : list str) : str :=
  match filter (fun a => negb (eqs a [])) args with
  | [] => lit "."
  | a :: others => normalize (fold_left (fun joined b => joined ++ 47%N :: b) others a)
  end.

End JS.

Import JS.

(** [x || ''] for a string that may be [undefined] or [null] *)
Definition orEmpty (x : option str) : str :=
  match x with Some s => s | None => [] end.

(** Truthiness of a string that may be [null]: non-empty *)
Definition truthy (x : option str) : bool :=
  match x with Some (_ :: _) => true | _ => false end.

(** A section as the scanners of the library and of the command-line tool
    build it: [{ name, line, end, desc }]; [desc] is absent from the
    sections of the tool's pattern scanner. *)
Record Section : Type := mkSection {
  name : str;
  line : Z;
  end_ : Z;
  desc : option str
}.

(** A section of a parsed index block: [{ line, end, size, desc }] *)
Record IndexEntry : Type := mkEntry {
  e_line : Z;
  e_end : Z;
  e_size : Z;
  e_desc : str
}.

(** Reading a property of an entry that serves as prototype: a number is
    truthy when it is not zero, a string when it is not empty. *)
Definition entry_field (e : IndexEntry) (k : str) : option (looked IndexEntry) :=
  if eqs k (lit "line") then Some (Other (negb (e_line e =? 0)%Z))
  else if eqs k (lit "end") then Some (Other (negb (e_end e =? 0)%Z))
  else if eqs k (lit "size") then Some (Other (negb (e_size e =? 0)%Z))
  else if eqs k (lit "desc") then
    Some (Other (match e_desc e with [] => false | _ => true end))
  else None.

Definition lookup (k : str) (o : obj IndexEntry) : looked IndexEntry :=
  get entry_field k o.

Record ParsedIndex : Type := mkParsed {
  raw : str;
  sections : obj IndexEntry;
  startIndex : nat;
  endIndex : nat
}.

(** An auto-detection rule of the command-line tool:
    [{ pattern, section, priority }] ([priority] may be absent). *)
Record AutoPattern : Type := mkAuto {
  a_pattern : RegExp;
  a_section : str;
  a_priority : option Z
}.

(** A language plugin; the plugins of the library have no [autoPatterns]. *)
Record Plugin : Type := mkPlugin {
  p_name : str;
  extensions : list str;
  indexFormat : str;
  regionStart : option RegExp;      (* [None] is [null] *)
  regionEnd : option RegExp;
  sectionMarker : option RegExp;
  autoPatterns : option (list AutoPattern)
}.

(* ------------------------------------------------------------------ *)
(** ** The library, [src/index.mjs]                                    *)
(* ------------------------------------------------------------------ *)

Module Lib.

Definition plugin (name : String.string) (exts : list String.string)
    (format : String.string) (rStart rEnd marker : option RegExp) : Plugin :=
  mkPlugin (lit name) (map lit exts) (lit format) rStart rEnd marker None.

Definition LANGUAGE_PLUGINS : list Plugin := [
  plugin "ts" [".ts"; ".tsx"; ".js"; ".jsx"; ".mjs"; ".cjs"] "jsdoc"
    (Some (re "^\/\/#region\s+(.+?)(?:\s*[—\-]\s*(.+))?$"))
    (Some (re "^\/\/#endregion"))
    (Some (re_i "\/\/\s*(?:={3,}\s*)?SECTION:\s*(.+?)(?:\s*={3,})?\s*$"));
  plugin "python" [".py"; ".pyw"; ".pyi"] "docstring"
    (Some (re "^#\s*region\s*[:\s]*(.+?)(?:\s*[—\-]\s*(.+))?$"))
    (Some (re "^#\s*endregion"))
    (Some (re_i "^#\s*(?:={3,}\s*)?SECTION:\s*(.+?)(?:\s*={3,})?\s*$"));
  plugin "rust" [".rs"] "doc-comment"
    (Some (re "^\/\/\s*region:\s*(.+?)(?:\s*[—\-]\s*(.+))?$"))
    (Some (re "^\/\/\s*endregion"))
    (Some (re_i "^\/\/\s*(?:={3,}\s*)?SECTION:\s*(.+?)(?:\s*={3,})?\s*$"));
  plugin "go" [".go"] "block-comment"
    (Some (re "^\/\/\s*region:\s*(.+?)(?:\s*[—\-]\s*(.+))?$"))
    (Some (re "^\/\/\s*endregion"))
    (Some (re_i "^\/\/\s*(?:={3,}\s*)?SECTION:\s*(.+?)(?:\s*={3,})?\s*$"));
  plugin "csharp" [".cs"] "xml-doc"
    (Some (re "^\s*#region\s+(.+?)(?:\s*[—\-]\s*(.+))?$"))
    (Some (re "^\s*#endregion"))
    (Some (re_i "\/\/\s*(?:={3,}\s*)?SECTION:\s*(.+?)(?:\s*={3,})?\s*$"));
  plugin "java" [".java"] "javadoc"
    (Some (re "^\/\/\s*region\s*(.+?)(?:\s*[—\-]\s*(.+))?$"))
    (Some (re "^\/\/\s*endregion"))
    (Some (re_i "\/\/\s*(?:={3,}\s*)?SECTION:\s*(.+?)(?:\s*={3,})?\s*$"));
  plugin "yaml" [".yaml"; ".yml"] "comment"
    (Some (re "^#\s*region:\s*(.+?)(?:\s*[—\-]\s*(.+))?$"))
    (Some (re "^#\s*endregion"))
    (Some (re_i "^#\s*(?:={3,}\s*)?SECTION:\s*(.+?)(?:\s*={3,})?\s*$"));
  plugin "json" [".json"; ".json5"; ".jsonc"] "key"
    None
    None
    (Some (pattern noflags (dq ++ lit "__section__(\w+)__" ++ dq)))
].

(** [getLanguagePlugin(filePath)]: the first plugin whose extensions
    include the lower-cased extension of the path, or [null]. *)
Definition getLanguagePlugin (filePath : str) : option Plugin :=
  let ext := toLowerCase (extname filePath) in
  find (fun plugin => existsb (eqs ext) (extensions plugin)) LANGUAGE_PLUGINS.

(** The two patterns of [parseIndex] *)
Definition blockRe : RegExp := re "\/\*\*\s*\n\s*\*\s*@ai-index[\s\S]*?\*\/".
Definition rowRe : RegExp :=
  re "\|\s*([^\|]+?)\s*\|\s*(\d+)\s*\|\s*(\d+)\s*\|(?:\s*(\d+)\s*\|)?(?:\s*([^\|]*?)\s*\|)?".

(** The body of the loop over the table rows: [row] is one match, its
    groups are [name, line, end, size, desc]. *)
Definition addRow (sections : obj IndexEntry) (row : mresult) : obj IndexEntry :=
  let name := group 1 row in
  let line := orEmpty (group 2 row) in
  let end' := orEmpty (group 3 row) in
  let size := group 4 row in
  let desc := group 5 row in
  if truthy name
     && negb (includes (lit "Section") (orEmpty name))
     && negb (includes (lit "---") (orEmpty name))
  then
    set (trim (orEmpty name))
        {| e_line := parseInt line;
           e_end := parseInt end';
           e_size := if truthy size then parseInt (orEmpty size)
                     else (parseInt end' - parseInt line)%Z;
           e_desc := match desc with Some d => trim d | None => [] end |}
        sections
  else sections.

(** [parseIndex(content)]: the first index block of the content, or [null]. *)
Definition parseIndex (content : str) : option ParsedIndex :=
  match exec blockRe content with
  | None => None
  | Some indexMatch =>
      let indexBlock := matched indexMatch in
      let sections := fold_left addRow (matchAll rowRe indexBlock) empty_obj in
      Some {| raw := indexBlock;
              sections := sections;
              startIndex := index indexMatch;
              endIndex := index indexMatch + length indexBlock |}
  end.

(** The patterns [findSections] falls back on when the plugin has none *)
Definition defaultRegionStart : RegExp :=
  re "^\/\/#region\s+(.+?)(?:\s*[—\-]\s*(.+))?$".
Definition defaultRegionEnd : RegExp := re "^\/\/#endregion".
Definition defaultSectionMarker : RegExp :=
  re_i "\/\/\s*(?:={3,}\s*)?SECTION:\s*(.+?)(?:\s*={3,})?\s*$".

(** [plugin?.field || fallback] *)
Definition pick (plugin : option Plugin) (field : Plugin -> option RegExp)
    (fallback : RegExp) : RegExp :=
  match plugin with
  | Some p => match field p with Some r => r | None => fallback end
  | None => fallback
  end.

(** The variables of the scanning loop.  [sectionStart] is [null] exactly
    when [currentSection] is; it is read only when [currentSection] is a
    non-empty string, so [null] is written [0]. *)
Record Scan : Type := mkScan {
  found : list Section;
  currentSection : option str;
  currentDesc : option str;
  sectionStart : Z
}.

(** [sections.push({ name: currentSection, line: sectionStart, end,
    desc: currentDesc || '' })] *)
Definition close (st : Scan) (end' : Z) : list Section :=
  found st ++ [mkSection (orEmpty (currentSection st)) (sectionStart st) end'
                         (Some (orEmpty (currentDesc st)))].

(** One iteration of the loop of [findSections], on the line of number
    [lineNum].  The three patterns are regular expression objects, so the
    guards [if (regionStart)], [regionEnd &&] and [if (sectionMarker)] of
    the source always pass. *)
Definition step (rStart rEnd marker : RegExp) (lineNum : Z) (l : str)
    (st : Scan) : Scan :=
  match exec rStart l with
  | Some regionMatch =>
      mkScan (if truthy (currentSection st) then close st (lineNum - 1)
              else found st)
             (Some (trim (orEmpty (group 1 regionMatch))))
             (Some (match group 2 regionMatch with
                    | Some d => trim d
                    | None => []
                    end))
             lineNum
  | None =>
      if test rEnd l then
        if truthy (currentSection st)
        then mkScan (close st lineNum) None None 0
        else st
      else
        match exec marker l with
        | Some markerMatch =>
            mkScan (if truthy (currentSection st) then close st (lineNum - 1)
                    else found st)
                   (Some (trim (orEmpty (group 1 markerMatch))))
                   (Some [])
                   lineNum
        | None => st
        end
  end.

Fixpoint loop (rStart rEnd marker : RegExp) (lines : list str) (lineNum : Z)
    (st : Scan) : Scan :=
  match lines with
  | [] => st
  | l :: rest => loop rStart rEnd marker rest (lineNum + 1)
                      (step rStart rEnd marker lineNum l st)
  end.

(** [findSections(content, plugin)] *)
Definition findSections (content : str) (plugin : option Plugin) : list Section :=
  let lines := split_nl content in
  let rStart := pick plugin regionStart defaultRegionStart in
  let rEnd := pick plugin regionEnd defaultRegionEnd in
  let marker := pick plugin sectionMarker defaultSectionMarker in
  let st := loop rStart rEnd marker lines 1 (mkScan [] None None 0) in
  if truthy (currentSection st) then close st (Z.of_nat (length lines))
  else found st.

(** One table row of [generateIndex] *)
Definition row (maxNameLen maxDescLen : nat) (section : Section) : str :=
  let size := (end_ section - line section + 1)%Z in
  lit " * | " ++ padEnd maxNameLen (name section)
  ++ lit " | " ++ padStart 4 (String_ (line section))
  ++ lit " | " ++ padStart 4 (String_ (end_ section))
  ++ lit " | " ++ padStart 4 (String_ size)
  ++ lit " | " ++ padEnd maxDescLen (orEmpty (desc section))
  ++ lit " |" ++ [nl].

(** [generateIndex(sections, totalLines)]; [now] is the text
    [new Date().toISOString()] gives at the call. *)
Definition generateIndex (now : str) (sections : list Section) (totalLines : Z)
    : str :=
  let maxNameLen := max_of 20 (map (fun s => length (name s)) sections) in
  let maxDescLen := max_of 20 (map (fun s => length (orEmpty (desc s))) sections) in
  let table :=
    (lit " * | " ++ padEnd maxNameLen (lit "Section")
     ++ lit " | Line | End  | Size | " ++ padEnd maxDescLen (lit "Description")
     ++ lit " |" ++ [nl])
    ++ (lit " * | " ++ repeat (ch "-") maxNameLen
        ++ lit " | ---- | ---- | ---- | " ++ repeat (ch "-") maxDescLen
        ++ lit " |" ++ [nl])
    ++ flat_map (row maxNameLen maxDescLen) sections in
  lit "/**" ++ [nl]
  ++ lit " * @ai-index" ++ [nl]
  ++ lit " * @generated " ++ now ++ [nl]
  ++ lit " * @total-lines " ++ String_ totalLines ++ [nl]
  ++ lit " *" ++ [nl]
  ++ table ++ lit " */".

Definition shebangRe : RegExp := re "^#!.*\n".

Record IndexResult : Type := mkIndexResult {
  r_sections : nat;
  r_totalLines : Z;
  r_action : str
}.

(** The sections [indexFile] writes to the block: the explicit ones, or the
    single section [main]. *)
Definition resolve (content : str) (plugin : Plugin) : list Section :=
  let totalLines := Z.of_nat (length (split_nl content)) in
  let sections := findSections content (Some plugin) in
  match sections with
  | [] => [mkSection (lit "main") 1 totalLines (Some (lit "Main content"))]
  | _ => sections
  end.

(** The content [indexFile] writes *)
Definition newContent (content indexBlock : str) (existingIndex : option ParsedIndex)
    : str :=
  match existingIndex with
  | Some existing =>
      slice 0 (startIndex existing) content
      ++ indexBlock
      ++ sliceFrom (endIndex existing) content
  | None =>
      match exec shebangRe content with
      | Some shebangMatch =>
          matched shebangMatch ++ indexBlock ++ [nl; nl]
          ++ sliceFrom (length (matched shebangMatch)) content
      | None => indexBlock ++ [nl; nl] ++ content
      end
  end.

(** [indexFile(filePath)]: the value returned and the file system after
    the call, or the exception thrown. *)
Definition indexFile (now : str) (filePath : str) (fs : FS)
    : result (IndexResult * FS) :=
  match readFile filePath fs with
  | Throw e => Throw e
  | Return content =>
      match getLanguagePlugin filePath with
      | None => Throw (lit "Unsupported file type: " ++ filePath)
      | Some plugin =>
          let lines := split_nl content in
          let totalLines := Z.of_nat (length lines) in
          let existingIndex := parseIndex content in
          let sections := resolve content plugin in
          let indexBlock := generateIndex now sections totalLines in
          let content' := newContent content indexBlock existingIndex in
          match writeFile filePath content' fs with
          | Throw e => Throw e
          | Return fs' =>
              Return ({| r_sections := length sections;
                         r_totalLines := totalLines;
                         r_action := match existingIndex with
                                     | Some _ => lit "updated"
                                     | None => lit "added"
                                     end |},
                      fs')
          end
      end
  end.

End Lib.

(* ------------------------------------------------------------------ *)
(** ** The server, [src/mcp-server.mjs]                                *)
(* ------------------------------------------------------------------ *)

Module Server.

Record LangConfig : Type := mkConfig {
  lang : str;
  extensions : list str;
  commentStart : str;
  blockStart : option str;
  blockEnd : option str;
  regionStart : RegExp;
  regionEnd : RegExp
}.

Definition config (name : String.string) (exts : list String.string)
    (comment : String.string) (bStart bEnd : option str)
    (rStart rEnd : RegExp) : LangConfig :=
  mkConfig (lit name) (map lit exts) (lit comment) bStart bEnd rStart rEnd.

Definition LANGUAGE_CONFIG : list LangConfig := [
  config "ts" [".ts"; ".tsx"; ".js"; ".jsx"; ".mjs"; ".cjs"] "//" (Some (lit "/*")) (Some (lit "*/"))
    (re "^\/\/#region\s+(.+?)(?:\s*[—\-]\s*(.+))?$")
    (re "^\/\/#endregion");
  config "python" [".py"; ".pyw"; ".pyi"] "#" None None
    (re "^#\s*region\s*[:\s]*(.+?)(?:\s*[—\-]\s*(.+))?$")
    (re "^#\s*endregion");
  config "rust" [".rs"] "//" None None
    (re "^\/\/\s*region:\s*(.+?)(?:\s*[—\-]\s*(.+))?$")
    (re "^\/\/\s*endregion");
  config "go" [".go"] "//" None None
    (re "^\/\/\s*region:\s*(.+?)(?:\s*[—\-]\s*(.+))?$")
    (re "^\/\/\s*endregion");
  config "csharp" [".cs"] "//" None None
    (re "^\s*#region\s+(.+?)$")
    (re "^\s*#endregion");
  config "java" [".java"; ".kt"; ".scala"] "//" None None
    (re "^\/\/\s*region\s*(.+?)$")
    (re "^\/\/\s*endregion");
  config "yaml" [".yaml"; ".yml"] "#" None None
    (re "^#\s*region:\s*(.+?)$")
    (re "^#\s*endregion")
].

(** [detectLanguage(filePath)] *)
Definition detectLanguage (filePath : str) : option LangConfig :=
  let ext := toLowerCase (extname filePath) in
  find (fun config => existsb (eqs ext) (extensions config)) LANGUAGE_CONFIG.

(** A section of the server: [{ name, desc, line, end, size }] *)
Record Section : Type := mkSection {
  name : str;
  desc : str;
  line : Z;
  end_ : Z;
  size : Z
}.

Record Rule : Type := mkRule { regex : RegExp; r_name : str; r_desc : str }.

Definition rule (r : RegExp) (n d : String.string) : Rule :=
  mkRule r (lit n) (lit d).

(** The table [patterns] of [detectSectionsAuto] *)
Definition patterns : list (str * list Rule) := [
  (lit "ts", [
     rule (re "^import\s+") "imports" "Import statements";
     rule (re "^export\s+(interface|type)\s+(\w+)") "types" "Type definitions";
     rule (re "^export\s+const\s+use\w+") "hooks" "React hooks";
     rule (re "^export\s+(async\s+)?function\s+(\w+)") "functions" "Exported functions";
     rule (re "^(export\s+)?class\s+(\w+)") "classes" "Class definitions"
  ]);
  (lit "python", [
     rule (re "^(from|import)\s+") "imports" "Import statements";
     rule (re "^class\s+(\w+)") "classes" "Class definitions";
     rule (re "^(async\s+)?def\s+(\w+)") "functions" "Function definitions";
     rule (re "^@(app|router)\.(get|post|put|delete)") "routes" "API routes"
  ]);
  (lit "rust", [
     rule (re "^use\s+") "imports" "Use statements";
     rule (re "^(pub\s+)?struct\s+(\w+)") "structs" "Struct definitions";
     rule (re "^(pub\s+)?enum\s+(\w+)") "enums" "Enum definitions";
     rule (re "^impl\s+") "impl" "Implementations";
     rule (re "^(pub\s+)?(async\s+)?fn\s+(\w+)") "functions" "Functions"
  ]);
  (lit "go", [
     rule (re "^import\s*\(") "imports" "Import block";
     rule (re "^type\s+(\w+)\s+struct") "types" "Struct types";
     rule (re "^type\s+(\w+)\s+interface") "interfaces" "Interface types";
     rule (re "^func\s+\(") "methods" "Methods";
     rule (re "^func\s+(\w+)") "functions" "Functions"
  ])
].

(** [patterns[langConfig?.lang] || []] *)
Definition langPatterns (langConfig : option LangConfig) : list Rule :=
  match langConfig with
  | Some c =>
      match find (fun kv => eqs (lang c) (fst kv)) patterns with
      | Some kv => snd kv
      | None => []
      end
  | None => []
  end.

(** [current.end = end'; current.size = current.end - current.line + 1] *)
Definition closeAt (current : Section) (end' : Z) : Section :=
  mkSection (name current) (desc current) (line current) end'
            (end' - line current + 1).

(** One iteration of the outer loop of [detectSectionsAuto] on the line of
    index [i]; the state is [sections] and [currentSection]. *)
Definition autoStep (rules : list Rule) (i : Z) (l : str)
    (st : list Section * option Section) : list Section * option Section :=
  let (sections, currentSection) := st in
  match find (fun r => test (regex r) l) rules with
  | None => st
  | Some r =>
      let fresh := mkSection (r_name r) (r_desc r) (i + 1) (i + 1) 1 in
      match currentSection with
      | None => (sections, Some fresh)
      | Some current =>
          if negb (eqs (name current) (r_name r))
          then (sections ++ [closeAt current i], Some fresh)
          else (sections, Some (closeAt current (i + 1)))
      end
  end.

Fixpoint autoLoop (rules : list Rule) (lines : list str) (i : Z)
    (st : list Section * option Section) : list Section * option Section :=
  match lines with
  | [] => st
  | l :: rest => autoLoop rules rest (i + 1) (autoStep rules i l st)
  end.

(** [detectSectionsAuto(lines, langConfig)] *)
Definition detectSectionsAuto (lines : list str) (langConfig : option LangConfig)
    : list Section :=
  let (sections, currentSection) :=
    autoLoop (langPatterns langConfig) lines 0 ([], None) in
  match currentSection with
  | Some current => sections ++ [current]
  | None => sections
  end.

(** One iteration of the loop of [detectSectionsExplicit] on the line of
    number [lineNum]. *)
Definition explicitStep (langConfig : option LangConfig) (lineNum : Z) (l : str)
    (st : list Section * option Section) : list Section * option Section :=
  let (sections, currentSection) := st in
  match match langConfig with
        | Some c => exec (regionStart c) l
        | None => None
        end with
  | Some m =>
      (match currentSection with
       | Some current => sections ++ [closeAt current (lineNum - 1)]
       | None => sections
       end,
       Some (mkSection (trim (orEmpty (group 1 m)))
                       (match group 2 m with Some d => trim d | None => [] end)
                       lineNum lineNum 1))
  | None =>
      if match langConfig with
         | Some c => test (regionEnd c) l
         | None => false
         end
      then
        match currentSection with
        | Some current => (sections ++ [closeAt current lineNum], None)
        | None => st
        end
      else st
  end.

Fixpoint explicitLoop (langConfig : option LangConfig) (lines : list str)
    (lineNum : Z) (st : list Section * option Section)
    : list Section * option Section :=
  match lines with
  | [] => st
  | l :: rest =>
      explicitLoop langConfig rest (lineNum + 1)
                   (explicitStep langConfig lineNum l st)
  end.

(** [detectSectionsExplicit(lines, langConfig)] *)
Definition detectSectionsExplicit (lines : list str)
    (langConfig : option LangConfig) : list Section :=
  let (sections, currentSection) :=
    explicitLoop langConfig lines 1 ([], None) in
  match currentSection with
  | Some current => sections ++ [closeAt current (Z.of_nat (length lines))]
  | None => sections
  end.

(** The index of a file (its field [file], the base name of the path, is
    left out). *)
Record Index : Type := mkIndex {
  path : str;
  language : str;
  totalLines : Z;
  sections : list Section
}.

(** The sections [generateIndex] reports for the lines of a file *)
Definition resolve (lines : list str) (langConfig : option LangConfig)
    : list Section :=
  let sections := detectSectionsExplicit lines langConfig in
  let sections :=
    match sections with
    | [] => detectSectionsAuto lines langConfig
    | _ => sections
    end in
  match sections with
  | [] => [mkSection (lit "main") (lit "Main content") 1
                     (Z.of_nat (length lines)) (Z.of_nat (length lines))]
  | _ => sections
  end.

(** [generateIndex(filePath)] *)
Definition generateIndex (filePath : str) (fs : FS) : result Index :=
  match readFile filePath fs with
  | Throw e => Throw e
  | Return content =>
      let lines := split_nl content in
      let langConfig := detectLanguage filePath in
      Return {| path := filePath;
                language := match langConfig with
                            | Some c => lang c
                            | None => lit "unknown"
                            end;
                totalLines := Z.of_nat (length lines);
                sections := resolve lines langConfig |}
  end.

(** [lines.slice(a, b)] of an array *)
Definition slice_array {A : Type} (a b : Z) (l : list A) : list A :=
  let len := Z.of_nat (length l) in
  let k := if (a <? 0)%Z then Z.max (len + a) 0 else Z.min a len in
  let final := if (b <? 0)%Z then Z.max (len + b) 0 else Z.min b len in
  firstn (Z.to_nat (final - k)) (skipn (Z.to_nat k) l).

(** What [readSection] returns: the error payload or the section read *)
Inductive ReadResult : Type :=
| NotFound (error : str) (availableSections : list str)
| Found (section : str) (lineStart lineEnd : Z) (content : str).

(** [readSection(filePath, sectionName)] *)
Definition readSection (filePath sectionName : str) (fs : FS)
    : result ReadResult :=
  match readFile filePath fs with
  | Throw e => Throw e
  | Return content =>
      let lines := split_nl content in
      match generateIndex filePath fs with
      | Throw e => Throw e
      | Return index =>
          match find (fun s => eqs (name s) sectionName) (sections index) with
          | None =>
              Return (NotFound (lit "Section " ++ dq ++ sectionName ++ dq
                                ++ lit " not found")
                               (map name (sections index)))
          | Some section =>
              let sectionLines :=
                slice_array (line section - 1) (end_ section) lines in
              Return (Found (name section) (line section) (end_ section)
                            (join_nl sectionLines))
          end
      end
  end.

(** The arguments of a [tools/call] request; an argument the request does
    not give is [None] ([undefined]). *)
Record CallArgs : Type := mkArgs {
  file_path : option str;
  section_name : option str
}.

(** What a response carries: the value whose JSON text is sent *)
Inductive Payload : Type :=
| IndexOf (index : Index)
| SectionOf (r : ReadResult).

(** A response of the handler: [{ content: [{ type: 'text', text }] }]
    with the JSON text of a payload, or
    [{ content: [{ type: 'text', text }], isError: true }] *)
Inductive Response : Type :=
| Content (payload : Payload)
| IsError (text : str).

(** [readFile(undefined, 'utf-8')] throws before any file is looked at. *)
Definition noPath : str :=
  lit "The " ++ dq ++ lit "path" ++ dq
  ++ lit " argument must be of type string or an instance of Buffer or URL. Received undefined".

(** [readSection(filePath, undefined)]: no section has the name
    [undefined]. *)
Definition readSectionOf (filePath : str) (sectionName : option str) (fs : FS)
    : result ReadResult :=
  match sectionName with
  | Some n => readSection filePath n fs
  | None =>
      match readFile filePath fs with
      | Throw e => Throw e
      | Return _ =>
          match generateIndex filePath fs with
          | Throw e => Throw e
          | Return index =>
              Return (NotFound (lit "Section " ++ dq ++ lit "undefined" ++ dq
                                ++ lit " not found")
                               (map name (sections index)))
          end
      end
  end.

(** The handler of [tools/call] *)
Definition callTool (name : str) (args : CallArgs) (fs : FS) : Response :=
  let caught (r : result Payload) :=
    match r with
    | Return p => Content p
    | Throw message => IsError (lit "Error: " ++ message)
    end in
  if eqs name (lit "get_file_index") then
    caught match file_path args with
           | None => Throw noPath
           | Some p =>
               match generateIndex p fs with
               | Return index => Return (IndexOf index)
               | Throw e => Throw e
               end
           end
  else if eqs name (lit "read_section") then
    caught match file_path args with
           | None => Throw noPath
           | Some p =>
               match readSectionOf p (section_name args) fs with
               | Return r => Return (SectionOf r)
               | Throw e => Throw e
               end
           end
  else caught (Throw (lit "Unknown tool: " ++ name)).

End Server.

(* ------------------------------------------------------------------ *)
(** ** The server with companion documents, [skills/SKILL.md] (v2.1)   *)
(* ------------------------------------------------------------------ *)

Module Server21.

(** The language table, [detectLanguage] and the two scanners have the
    text of those of [src/mcp-server.mjs]. *)
Definition detectLanguage : str -> option Server.LangConfig :=
  Server.detectLanguage.
Definition detectSectionsAuto
    : list str -> option Server.LangConfig -> list Server.Section :=
  Server.detectSectionsAuto.
Definition detectSectionsExplicit
    : list str -> option Server.LangConfig -> list Server.Section :=
  Server.detectSectionsExplicit.

(** The places where [findCompanionMarkdown] looks, in its order *)
Definition candidates (filePath : str) : list str :=
  let dir := dirname filePath in
  let name := basename filePath in
  [join [dir; name ++ lit ".ai.md"];
   join [dir; lit ".ai"; name ++ lit ".md"];
   join [dir; lit ".ai"; replace (re "\.[^.]+$") (lit ".md") name]].

(** [findCompanionMarkdown(filePath)]: the first candidate that can be
    accessed; [None] is [null]. *)
Definition findCompanionMarkdown (filePath : str) (fs : FS) : option str :=
  find (accessible fs) (candidates filePath).

Definition descriptionRe : RegExp := re "^#[^#].*\n\n([\s\S]*?)(?=\n##|$)".
Definition tableRe : RegExp := re_i "##\s*Sections?\s*\n\n([\s\S]*?)(?=\n##|$)".
Definition rowRe : RegExp := re "\|\s*([^|]+?)\s*\|\s*([^|]+?)\s*\|\s*([^|]*?)\s*\|".
Definition linesRe : RegExp := re "(\d+)(?:\s*[-–]\s*(\d+))?".
Definition notesRe : RegExp := re_i "##\s*Notes?\s*\n\n([\s\S]*?)(?=\n##|$)".

(** What [parseCompanionMarkdown] returns:
    [{ description, sections, notes }], the sections being
    [{ name, line, end, desc }]. *)
Record Companion : Type := mkCompanion {
  c_description : str;
  c_sections : list Section;
  c_notes : str
}.

(** The body of the loop over the rows of the table: the sections a row
    adds. *)
Definition rowSections (row : mresult) : list Section :=
  let name := orEmpty (group 1 row) in
  let lines := orEmpty (group 2 row) in
  let desc := orEmpty (group 3 row) in
  if includes (lit "Section") name || includes (lit "---") name then []
  else
    match exec linesRe lines with
    | Some lineMatch =>
        [mkSection (trim name)
                   (parseInt (orEmpty (group 1 lineMatch)))
                   (parseInt (if truthy (group 2 lineMatch)
                              then orEmpty (group 2 lineMatch)
                              else orEmpty (group 1 lineMatch)))
                   (Some (trim desc))]
    | None => []
    end.

(** The first group of the first match, trimmed; empty without a match *)
Definition firstGroup (pattern : RegExp) (content : str) : str :=
  match exec pattern content with
  | Some m => trim (orEmpty (group 1 m))
  | None => []
  end.

(** [parseCompanionMarkdown(mdPath)]; [None] is [null], returned when
    the document cannot be read. *)
Definition parseCompanionMarkdown (mdPath : str) (fs : FS) : option Companion :=
  match readFile mdPath fs with
  | Throw _ => None
  | Return content =>
      Some {| c_description := firstGroup descriptionRe content;
              c_sections :=
                match exec tableRe content with
                | Some tableMatch =>
                    flat_map rowSections
                             (matchAll rowRe (orEmpty (group 1 tableMatch)))
                | None => []
                end;
              c_notes := firstGroup notesRe content |}
  end.

(** The index of a file (its field [file], the base name of the path, is
    left out); a field that is not set is [None]. *)
Record Index : Type := mkIndex {
  path : str;
  language : str;
  totalLines : Z;
  source : str;
  sections : list Server.Section;
  description : option str;
  notes : option str;
  companionFile : option str
}.

(** [{ ...s, size: s.end - s.line + 1 }] *)
Definition sized (s : Section) : Server.Section :=
  Server.mkSection (name s) (orEmpty (desc s)) (line s) (end_ s)
                   (end_ s - line s + 1).

(** A text that is set when it is not empty *)
Definition whenSet (s : str) : option str :=
  match s with [] => None | _ => Some s end.

(** [generateIndex(filePath)] *)
Definition generateIndex (filePath : str) (fs : FS) : result Index :=
  match readFile filePath fs with
  | Throw e => Throw e
  | Return content =>
      let lines := split_nl content in
      let langConfig := detectLanguage filePath in
      let companionPath := findCompanionMarkdown filePath fs in
      (* 1. the companion document *)
      let '(sections, source, description, notes) :=
        match match companionPath with
              | Some p => parseCompanionMarkdown p fs
              | None => None
              end with
        | Some companion =>
            match c_sections companion with
            | [] => ([], lit "auto", [], [])
            | rows =>
                (map sized rows, lit "markdown",
                 c_description companion, c_notes companion)
            end
        | None => ([], lit "auto", [], [])
        end in
      (* 2. the region markers *)
      let '(sections, source) :=
        match sections with
        | [] =>
            let sections := detectSectionsExplicit lines langConfig in
            (sections, match sections with [] => source | _ => lit "regions" end)
        | _ => (sections, source)
        end in
      (* 3. the patterns *)
      let '(sections, source) :=
        match sections with
        | [] => (detectSectionsAuto lines langConfig, lit "auto")
        | _ => (sections, source)
        end in
      (* 4. the fallback *)
      let sections :=
        match sections with
        | [] => [Server.mkSection (lit "main") (lit "Main content") 1
                                  (Z.of_nat (length lines))
                                  (Z.of_nat (length lines))]
        | _ => sections
        end in
      Return {| path := filePath;
                language := match langConfig with
                            | Some c => Server.lang c
                            | None => lit "unknown"
                            end;
                totalLines := Z.of_nat (length lines);
                source := source;
                sections := sections;
                description := whenSet description;
                notes := whenSet notes;
                companionFile := companionPath |}
  end.

(** [readSection(filePath, sectionName)] *)
Definition readSection (filePath sectionName : str) (fs : FS)
    : result Server.ReadResult :=
  match readFile filePath fs with
  | Throw e => Throw e
  | Return content =>
      let lines := split_nl content in
      match generateIndex filePath fs with
      | Throw e => Throw e
      | Return index =>
          match find (fun s => eqs (Server.name s) sectionName) (sections index) with
          | None =>
              Return (Server.NotFound
                        (lit "Section " ++ dq ++ sectionName ++ dq
                         ++ lit " not found")
                        (map Server.name (sections index)))
          | Some section =>
              let sectionLines :=
                Server.slice_array (Server.line section - 1)
                                   (Server.end_ section) lines in
              Return (Server.Found (Server.name section) (Server.line section)
                                   (Server.end_ section) (join_nl sectionLines))
          end
      end
  end.

End Server21.

(* ------------------------------------------------------------------ *)
(** ** The command-line tool, [scripts/ai-index.mjs]                   *)
(* ------------------------------------------------------------------ *)

Module Cli.

Definition auto (r : RegExp) (section : String.string) (priority : option Z)
    : AutoPattern :=
  mkAuto r (lit section) priority.

Definition plugin (name : String.string) (exts : list String.string)
    (format : String.string) (rStart rEnd marker : option RegExp)
    (rules : list AutoPattern) : Plugin :=
  mkPlugin (lit name) (map lit exts) (lit format) rStart rEnd marker (Some rules).

Definition LANGUAGE_PLUGINS : list Plugin := [
  plugin "ts" [".ts"; ".tsx"; ".js"; ".jsx"; ".mjs"; ".cjs"] "jsdoc"
    (Some (re "^\/\/#region\s+(.+?)(?:\s*[‚Äî\-]\s*(.+))?$"))
    (Some (re "^\/\/#endregion"))
    (Some (re_i "\/\/\s*(?:={3,}\s*)?SECTION:\s*(.+?)(?:\s*={3,})?\s*$"))
    [
      auto (re_m "^import\s+") "imports" (Some 1%Z);
      auto (re_m "^export\s+type\s+") "types" (Some 2%Z);
      auto (re_m "^(?:export\s+)?interface\s+\w+State") "types/state" (Some 3%Z);
      auto (re_m "^(?:export\s+)?interface\s+\w+Actions") "types/actions" (Some 3%Z);
      auto (re_m "^(?:export\s+)?interface\s+") "types" (Some 2%Z);
      auto (re_m "^(?:export\s+)?type\s+") "types" (Some 2%Z);
      auto (re_m "^const\s+initial\w*\s*[=:]") "state/initial" (Some 4%Z);
      auto (re_m "^export\s+const\s+use\w+Store\s*=") "store" (Some 5%Z);
      auto (re_m "create<.*>\(\s*\(?") "store" (Some 5%Z);
      auto (re_m "^export\s+const\s+select\w+") "selectors" (Some 8%Z);
      auto (re_m "^export\s+function\s+use\w+") "hooks" (Some 9%Z)
    ];
  plugin "python" [".py"; ".pyw"; ".pyi"] "docstring"
    (Some (re "^#\s*region\s*[:\s]*(.+?)(?:\s*[‚Äî\-]\s*(.+))?$"))
    (Some (re "^#\s*endregion"))
    (Some (re_i "^#\s*(?:={3,}\s*)?SECTION:\s*(.+?)(?:\s*={3,})?\s*$"))
    [
      auto (re_m "^(?:from|import)\s+") "imports" (Some 1%Z);
      auto (re_m "^class\s+\w+\s*\(") "classes" (Some 3%Z);
      auto (re_m "^class\s+\w+Model\s*\(") "models" (Some 2%Z);
      auto (re_m "^@dataclass") "dataclasses" (Some 2%Z);
      auto (re_m "^@app\.(get|post|put|delete|patch)") "routes" (Some 4%Z);
      auto (re_m "^@router\.(get|post|put|delete|patch)") "routes" (Some 4%Z);
      auto (re_m "^def\s+test_") "tests" (Some 5%Z);
      auto (re_m "^async\s+def\s+") "async" (Some 3%Z)
    ];
  plugin "rust" [".rs"] "doc-comment"
    (Some (re "^\/\/\s*region:\s*(.+?)(?:\s*[‚Äî\-]\s*(.+))?$"))
    (Some (re "^\/\/\s*endregion"))
    (Some (re_i "^\/\/\s*(?:={3,}\s*)?SECTION:\s*(.+?)(?:\s*={3,})?\s*$"))
    [
      auto (re_m "^use\s+") "imports" (Some 1%Z);
      auto (re_m "^mod\s+") "modules" (Some 2%Z);
      auto (re_m "^pub\s+struct\s+") "structs" (Some 3%Z);
      auto (re_m "^pub\s+enum\s+") "enums" (Some 3%Z);
      auto (re_m "^impl\s+") "impl" (Some 4%Z);
      auto (re_m "^pub\s+fn\s+") "functions" (Some 5%Z);
      auto (re_m "^#\[test\]") "tests" (Some 6%Z)
    ];
  plugin "go" [".go"] "block-comment"
    (Some (re "^\/\/\s*region:\s*(.+?)(?:\s*[‚Äî\-]\s*(.+))?$"))
    (Some (re "^\/\/\s*endregion"))
    (Some (re_i "^\/\/\s*(?:={3,}\s*)?SECTION:\s*(.+?)(?:\s*={3,})?\s*$"))
    [
      auto (re_m "^import\s*\(") "imports" (Some 1%Z);
      auto (re_m "^type\s+\w+\s+struct\s*\{") "types" (Some 2%Z);
      auto (re_m "^type\s+\w+\s+interface\s*\{") "interfaces" (Some 2%Z);
      auto (re_m "^func\s+\(\w+\s+\*?\w+\)") "methods" (Some 3%Z);
      auto (re_m "^func\s+\w+") "functions" (Some 4%Z);
      auto (re_m "^func\s+Test\w+") "tests" (Some 5%Z)
    ];
  plugin "csharp" [".cs"] "xml-doc"
    (Some (re "^\s*#region\s+(.+?)(?:\s*[‚Äî\-]\s*(.+))?$"))
    (Some (re "^\s*#endregion"))
    (Some (re_i "\/\/\s*(?:={3,}\s*)?SECTION:\s*(.+?)(?:\s*={3,})?\s*$"))
    [
      auto (re_m "^using\s+") "imports" (Some 1%Z);
      auto (re_m "^namespace\s+") "namespace" (Some 2%Z);
      auto (re_m "^public\s+class\s+") "classes" (Some 3%Z);
      auto (re_m "^public\s+interface\s+") "interfaces" (Some 3%Z);
      auto (re_m "^public\s+enum\s+") "enums" (Some 3%Z);
      auto (re_m "^\[Test\]") "tests" (Some 5%Z)
    ];
  plugin "java" [".java"] "javadoc"
    (Some (re "^\/\/\s*region\s*(.+?)(?:\s*[‚Äî\-]\s*(.+))?$"))
    (Some (re "^\/\/\s*endregion"))
    (Some (re_i "\/\/\s*(?:={3,}\s*)?SECTION:\s*(.+?)(?:\s*={3,})?\s*$"))
    [
      auto (re_m "^import\s+") "imports" (Some 1%Z);
      auto (re_m "^package\s+") "package" (Some 0%Z);
      auto (re_m "^public\s+class\s+") "classes" (Some 2%Z);
      auto (re_m "^public\s+interface\s+") "interfaces" (Some 2%Z);
      auto (re_m "^public\s+enum\s+") "enums" (Some 2%Z);
      auto (re_m "^@Test") "tests" (Some 5%Z)
    ];
  plugin "yaml" [".yaml"; ".yml"] "comment"
    (Some (re "^#\s*region:\s*(.+?)(?:\s*[‚Äî\-]\s*(.+))?$"))
    (Some (re "^#\s*endregion"))
    (Some (re_i "^#\s*(?:={3,}\s*)?SECTION:\s*(.+?)(?:\s*={3,})?\s*$"))
    [
  
    ];
  plugin "json" [".json"; ".json5"; ".jsonc"] "key"
    None
    None
    (Some (pattern noflags (dq ++ lit "__section__(\w+)__" ++ dq)))
    [
      auto (pattern flag_m (dq ++ lit "nodes" ++ dq ++ lit "\s*:\s*\{")) "nodes" None;
      auto (pattern flag_m (dq ++ lit "edges" ++ dq ++ lit "\s*:\s*\{")) "edges" None;
      auto (pattern flag_m (dq ++ lit "config" ++ dq ++ lit "\s*:\s*\{")) "config" None
    ]
].

Definition getLanguagePlugin (filePath : str) : option Plugin :=
  let ext := toLowerCase (extname filePath) in
  find (fun plugin => existsb (eqs ext) (extensions plugin)) LANGUAGE_PLUGINS.

(** [parseExistingIndex] has the text of the library's [parseIndex]. *)
Definition parseExistingIndex : str -> option ParsedIndex := Lib.parseIndex.

Definition defaultRegionStart : RegExp :=
  re "^\/\/#region\s+(.+?)(?:\s*[‚Äî\-]\s*(.+))?$".

(** [findExplicitSections] has the text of the library's [findSections],
    with its own fallback for [regionStart]. *)
Definition findExplicitSections (content : str) (plugin : option Plugin)
    : list Section :=
  let lines := split_nl content in
  let rStart := Lib.pick plugin regionStart defaultRegionStart in
  let rEnd := Lib.pick plugin regionEnd Lib.defaultRegionEnd in
  let marker := Lib.pick plugin sectionMarker Lib.defaultSectionMarker in
  let st := Lib.loop rStart rEnd marker lines 1 (Lib.mkScan [] None None 0) in
  if truthy (Lib.currentSection st) then Lib.close st (Z.of_nat (length lines))
  else Lib.found st.

Record Detection : Type := mkDetection {
  d_section : str;
  d_line : Z;
  d_priority : Z
}.

(** The first loop of [detectSectionsAuto]: the first rule matching each
    line. *)
Fixpoint detect (rules : list AutoPattern) (lines : list str) (lineNum : Z)
    : list Detection :=
  match lines with
  | [] => []
  | lineContent :: rest =>
      match find (fun r => test (a_pattern r) lineContent) rules with
      | Some r =>
          [mkDetection (a_section r) lineNum
             (match a_priority r with
              | Some p => if (p =? 0)%Z then 5%Z else p
              | None => 5%Z
              end)]
      | None => []
      end ++ detect rules rest (lineNum + 1)
  end.

(** One iteration of the second loop; the state is [sections],
    [currentSection] and [sectionStart] ([null] written [0], see
    [Lib.Scan]). *)
Definition groupStep (detected : list Detection) (lineNum : Z)
    (st : list Section * option str * Z) : list Section * option str * Z :=
  let '(sections, currentSection, sectionStart) := st in
  match find (fun d => (d_line d =? lineNum)%Z) detected with
  | None => st
  | Some detection =>
      let sections' :=
        if truthy currentSection
           && negb (eqs (orEmpty currentSection) (d_section detection))
        then sections ++ [mkSection (orEmpty currentSection) sectionStart
                                    (lineNum - 1) None]
        else sections in
      match currentSection with
      | Some c =>
          if eqs c (d_section detection) then (sections', currentSection, sectionStart)
          else (sections', Some (d_section detection), lineNum)
      | None => (sections', Some (d_section detection), lineNum)
      end
  end.

Fixpoint groupLoop (detected : list Detection) (lines : list str) (lineNum : Z)
    (st : list Section * option str * Z) : list Section * option str * Z :=
  match lines with
  | [] => st
  | _ :: rest => groupLoop detected rest (lineNum + 1) (groupStep detected lineNum st)
  end.

(** [detectSectionsAuto(content, plugin)] *)
Definition detectSectionsAuto (content : str) (plugin : option Plugin)
    : list Section :=
  let lines := split_nl content in
  let patterns :=
    match plugin with
    | Some p => match autoPatterns p with Some l => l | None => [] end
    | None => []
    end in
  let detected := detect patterns lines 1 in
  let '(sections, currentSection, sectionStart) :=
    groupLoop detected lines 1 ([], None, 0%Z) in
  if truthy currentSection
  then sections ++ [mkSection (orEmpty currentSection) sectionStart
                              (Z.of_nat (length lines)) None]
  else sections.

(** [generateIndexBlock] and [insertIndex] have the text of the library's
    [generateIndex] and of the splice in its [indexFile]. *)
Definition generateIndexBlock : str -> list Section -> Z -> str :=
  Lib.generateIndex.
Definition insertIndex : str -> str -> option ParsedIndex -> str :=
  Lib.newContent.

Definition descMap : list (str * str) :=
  map (fun kv => (lit (fst kv), lit (snd kv))) [
    ("imports", "External dependencies");
    ("types", "Type definitions");
    ("config", "Configuration");
    ("main", "Main content");
    ("tests", "Unit tests");
    ("types/state", "State interface");
    ("types/actions", "Action interfaces");
    ("state/initial", "Initial state");
    ("store", "State store");
    ("selectors", "State selectors");
    ("hooks", "React hooks");
    ("debug", "Debug utilities");
    ("classes", "Class definitions");
    ("models", "Data models");
    ("dataclasses", "Dataclass definitions");
    ("routes", "API routes");
    ("async", "Async functions");
    ("modules", "Module declarations");
    ("structs", "Struct definitions");
    ("enums", "Enum definitions");
    ("impl", "Implementations");
    ("functions", "Function definitions");
    ("interfaces", "Interface definitions");
    ("methods", "Method definitions");
    ("namespace", "Namespace declaration");
    ("package", "Package declaration")
  ].

(** [descMap[name]] finds a member of [Object.prototype] for some names:
    a function or an object, which is truthy and not a string. *)
Definition inherited (k : str) : bool :=
  eqs k proto_key || existsb (eqs k) object_prototype_keys.

(** [if (!section.desc) section.desc = descMap[section.name] || ''];
    [None] when the description becomes a value that is not a string. *)
Definition describe (section : Section) : option Section :=
  if truthy (desc section) then Some section
  else
    match find_own (name section) descMap with
    | Some d => Some (mkSection (name section) (line section) (end_ section) (Some d))
    | None =>
        if inherited (name section) then None
        else Some (mkSection (name section) (line section) (end_ section) (Some []))
    end.

Fixpoint describeAll (sections : list Section) : option (list Section) :=
  match sections with
  | [] => Some []
  | s :: rest =>
      match describe s, describeAll rest with
      | Some s', Some rest' => Some (s' :: rest')
      | _, _ => None
      end
  end.

(** The sections [indexFile] finds, before the descriptions are added *)
Definition resolve (content : str) (plugin : Plugin) : list Section :=
  let totalLines := Z.of_nat (length (split_nl content)) in
  let sections := findExplicitSections content (Some plugin) in
  let sections :=
    match sections with
    | [] => detectSectionsAuto content (Some plugin)
    | _ => sections
    end in
  match sections with
  | [] => [mkSection (lit "main") 1 totalLines (Some (lit "Main content"))]
  | _ => sections
  end.

Record Options : Type := mkOptions { minLines : option Z }.

(** What [indexFile] returns: [{ skipped: true, reason }] or
    [{ success: true, sections, totalLines, action }] *)
Inductive IndexResult : Type :=
| Skipped (reason : str)
| Success (sections : nat) (totalLines : Z) (action : str).

(** [indexFile(filePath, options)] (the messages it prints are left out).
    A description that is not a string makes [generateIndexBlock] throw,
    at [(section.desc || '').padEnd]. *)
Definition indexFile (now : str) (filePath : str) (options : Options) (fs : FS)
    : result (IndexResult * FS) :=
  match readFile filePath fs with
  | Throw e => Throw e
  | Return content =>
      let lines := split_nl content in
      let totalLines := Z.of_nat (length lines) in
      if match minLines options with
         | Some m => negb (m =? 0)%Z && (totalLines <? m)%Z
         | None => false
         end
      then Return (Skipped (lit "below-threshold"), fs)
      else
        match getLanguagePlugin filePath with
        | None => Return (Skipped (lit "unsupported"), fs)
        | Some plugin =>
            let existingIndex := parseExistingIndex content in
            match describeAll (resolve content plugin) with
            | None => Throw (lit "TypeError: (section.desc || ).padEnd is not a function")
            | Some sections =>
                let indexBlock := generateIndexBlock now sections totalLines in
                let newContent := insertIndex content indexBlock existingIndex in
                match writeFile filePath newContent fs with
                | Throw e => Throw e
                | Return fs' =>
                    Return (Success (length sections) totalLines
                                    (match existingIndex with
                                     | Some _ => lit "Updated"
                                     | None => lit "Added"
                                     end),
                            fs')
                end
            end
        end
  end.

(** The issues [verifyIndex] collects; [message] is the text pushed. *)
Inductive Issue : Type :=
| OutOfRange (name : str)
| MissingFromIndex (name : str)
| LineDrift (name : str) (indexed actual : Z).

Definition message (i : Issue) : str :=
  match i with
  | OutOfRange n =>
      lit "Section " ++ dq ++ n ++ dq ++ lit ": line numbers exceed file length"
  | MissingFromIndex n =>
      lit "Section " ++ dq ++ n ++ dq ++ lit " in code but not in index"
  | LineDrift n indexed actual =>
      lit "Section " ++ dq ++ n ++ dq ++ lit ": index says line "
      ++ String_ indexed ++ lit ", actual is " ++ String_ actual
  end.

(** The first loop of [verifyIndex], over the stored sections *)
Definition rangeIssues (stored : obj IndexEntry) (lineCount : Z) : list Issue :=
  flat_map (fun kv =>
              if ((e_line (snd kv) >? lineCount) || (e_end (snd kv) >? lineCount))%Z
              then [OutOfRange (fst kv)] else [])
           (entries stored).

(** The body of the second loop, for one explicit section.  A value found
    for the name that is not a stored section has no [line]: the difference
    is [NaN] and the comparison with 5 false. *)
Definition driftIssues (stored : obj IndexEntry) (explicit : Section) : list Issue :=
  match lookup (name explicit) stored with
  | Stored indexed =>
      if (Z.abs (e_line indexed - line explicit) >? 5)%Z
      then [LineDrift (name explicit) (e_line indexed) (line explicit)]
      else []
  | Other true => []
  | Other false | Undefined => [MissingFromIndex (name explicit)]
  end.

(** What [verifyIndex] returns: [{ valid: false, reason: 'no-index' }],
    [{ valid: false, errors }] or [{ valid: true }] *)
Inductive VerifyResult : Type :=
| NoIndex
| Invalid (errors : list Issue)
| Valid.

Definition issues (content : str) (plugin : option Plugin) (existing : ParsedIndex)
    : list Issue :=
  let lines := split_nl content in
  rangeIssues (sections existing) (Z.of_nat (length lines))
  ++ flat_map (driftIssues (sections existing))
              (findExplicitSections content plugin).

(** [verifyIndex(filePath)] *)
Definition verifyIndex (filePath : str) (fs : FS) : result VerifyResult :=
  match readFile filePath fs with
  | Throw e => Throw e
  | Return content =>
      match parseExistingIndex content with
      | None => Return NoIndex
      | Some existingIndex =>
          let plugin := getLanguagePlugin filePath in
          match issues content plugin existingIndex with
          | [] => Return Valid
          | errors => Return (Invalid errors)
          end
      end
  end.

(** [removeIndex(filePath)]: the field [removed] of the value returned and
    the file system after the call (the messages it prints are left out). *)
Definition removeIndex (filePath : str) (fs : FS) : result (bool * FS) :=
  match readFile filePath fs with
  | Throw e => Throw e
  | Return content =>
      match parseExistingIndex content with
      | None => Return (false, fs)
      | Some existingIndex =>
          let newContent :=
            slice 0 (startIndex existingIndex) content
            ++ replace (re "^\n+") [] (sliceFrom (endIndex existingIndex) content) in
          match writeFile filePath newContent fs with
          | Throw e => Throw e
          | Return fs' => Return (true, fs')
          end
      end
  end.

(** [parseInt(s)] with no radix given: white space is skipped, a sign and
    the prefix [0x] are read, then the digits; [None] is [NaN].  (The
    value is the exact integer; JavaScript rounds it beyond 2^53.) *)
Definition digitOf (radix : N) (c : char) : option N :=
  let d := if isDigit c then Some (c - 48)%N
           else if ((97 <=? c) && (c <=? 102))%N then Some (c - 87)%N
           else if ((65 <=? c) && (c <=? 70))%N then Some (c - 55)%N
           else None in
  match d with
  | Some v => if (v <? radix)%N then Some v else None
  | None => None
  end.

Fixpoint parse_radix (radix : N) (acc : option N) (s : str) : option N :=
  match s with
  | c :: t =>
      match digitOf radix c with
      | Some v =>
          parse_radix radix
            (Some (match acc with Some a => a * radix + v | None => v end)%N) t
      | None => acc
      end
  | [] => acc
  end.

Definition parseIntAny (s : str) : option Z :=
  let s1 := trimStart s in
  let negative := match s1 with c :: _ => (c =? 45)%N | [] => false end in
  let s2 := match s1 with
            | c :: t => if ((c =? 45) || (c =? 43))%N then t else s1
            | [] => s1
            end in
  let hex := match s2 with
             | z :: x :: _ => ((z =? 48) && ((x =? 120) || (x =? 88)))%N
             | _ => false
             end in
  let s3 := if hex then skipn 2 s2 else s2 in
  match parse_radix (if hex then 16 else 10)%N None s3 with
  | Some n => Some (if negative then (- Z.of_N n)%Z else Z.of_N n)
  | None => None
  end.

(** [a.split('=')[1]] for a text [a] that holds [=] *)
Fixpoint upto_eq (s : str) : str :=
  match s with
  | c :: t => if (c =? 61)%N then [] else c :: upto_eq t
  | [] => []
  end.

Fixpoint after_eq (s : str) : option str :=
  match s with
  | c :: t => if (c =? 61)%N then Some (upto_eq t) else after_eq t
  | [] => None
  end.

(** The options [main] reads from the arguments *)
Record RunOptions : Type := mkRunOptions {
  verify : bool;
  remove : bool;
  indexOptions : Options
}.

Definition parseOptions (args : list str) : RunOptions :=
  {| verify := existsb (eqs (lit "--verify")) args;
     remove := existsb (eqs (lit "--remove")) args;
     indexOptions :=
       {| minLines :=
            parseIntAny
              (match find (startsWith (lit "--min-lines=")) args with
               | Some a =>
                   match after_eq a with
                   | Some [] | None => lit "0"
                   | Some v => v
                   end
               | None => lit "0"
               end) |} |}.

(** [[...new Set(files)]]: the first occurrence of each path is kept. *)
Fixpoint unique (seen files : list str) : list str :=
  match files with
  | f :: rest =>
      if existsb (eqs f) seen then unique seen rest
      else f :: unique (f :: seen) rest
  | [] => []
  end.

Record Results : Type := mkResults {
  success : nat;
  skipped : nat;
  failed : nat
}.

(** The body of the loop of [main] over the files.  [clock file] is the
    time at which the block of [file] is generated (a file is processed
    once). *)
Definition processFile (clock : str -> str) (options : RunOptions) (file : str)
    (st : Results * FS) : Results * FS :=
  let (results, fs) := st in
  let succeeded := mkResults (S (success results)) (skipped results) (failed results) in
  let skip := mkResults (success results) (S (skipped results)) (failed results) in
  let fail := mkResults (success results) (skipped results) (S (failed results)) in
  if verify options then
    match verifyIndex file fs with
    | Return Valid => (succeeded, fs)
    | Return _ => (fail, fs)
    | Throw _ => (fail, fs)
    end
  else if remove options then
    match removeIndex file fs with
    | Return (true, fs') => (succeeded, fs')
    | Return (false, fs') => (skip, fs')
    | Throw _ => (fail, fs)
    end
  else
    match indexFile (clock file) file (indexOptions options) fs with
    | Return (Skipped _, fs') => (skip, fs')
    | Return (Success _ _ _, fs') => (succeeded, fs')
    | Throw _ => (fail, fs)
    end.

(** How [main] ends: the help text (exit code 0), no file pattern (exit
    code 1), no file found (exit code 0), or the summary of the run *)
Inductive Outcome : Type :=
| Help
| NoPattern
| NoFiles
| Done (results : Results).

(** [main()] on the arguments [args].  A path is kept when [existsSync]
    finds it and [stat] says that it is a file; a directory is passed
    over. *)
Definition main (clock : str -> str) (args : list str) (fs : FS) : Outcome * FS :=
  if match args with [] => true | _ => false end
     || existsb (eqs (lit "--help")) args || existsb (eqs (lit "-h")) args
  then (Help, fs)
  else
    let options := parseOptions args in
    let patterns := filter (fun a => negb (startsWith (lit "--") a)) args in
    match patterns with
    | [] => (NoPattern, fs)
    | _ =>
        let files := unique [] (filter (isFile fs) patterns) in
        match files with
        | [] => (NoFiles, fs)
        | _ =>
            let (results, fs') :=
              fold_left (fun st file => processFile clock options file st)
                        files (mkResults 0 0 0, fs) in
            (Done results, fs')
        end
    end.

End Cli.

(* ------------------------------------------------------------------ *)
(** ** Vocabulary of the statements                                    *)
(* ------------------------------------------------------------------ *)

(** The line range of a section, [(start, end)] *)
Definition span : Type := (Z * Z)%type.

Definition span_of (s : Section) : span := (line s, end_ s).
Definition server_span (s : Server.Section) : span := (Server.line s, Server.end_ s).

Definition covers (a : span) (n : Z) : Prop := (fst a <= n <= snd a)%Z.

(** Document order, well-formed ranges, and no line in two sections *)
Definition ascending (l : list span) : Prop :=
  StronglySorted (fun a b => (fst a <= fst b)%Z) l.
Definition well_formed (l : list span) : Prop :=
  Forall (fun a => (fst a <= snd a)%Z) l.
Definition disjoint (l : list span) : Prop :=
  ForallOrdPairs (fun a b => forall n, ~ (covers a n /\ covers b n)) l.

(** The ranges follow one another inside [lo .. hi]: each starts after the
    previous one has ended. *)
Fixpoint chain (lo : Z) (l : list span) (hi : Z) : Prop :=
  match l with
  | [] => (lo <= hi + 1)%Z
  | a :: t => (lo <= fst a)%Z /\ (fst a <= snd a)%Z /\ chain (snd a + 1) t hi
  end.

(** The lines numbered [a .. b] of a file *)
Definition lines_numbered (a b : Z) (lines : list str) : list str :=
  map (fun k => nth k lines []) (seq (Z.to_nat (a - 1)) (Z.to_nat (b - a + 1))).

(** Every pattern of the programs is read by [parse]. *)
Definition reads (r : RegExp) : bool :=
  match re_body r with Chr CNone => false | _ => true end.

Definition reads_opt (r : option RegExp) : bool :=
  match r with Some x => reads x | None => true end.

Definition all_patterns : list RegExp :=
  [Lib.blockRe; Lib.rowRe; Lib.shebangRe; Lib.defaultRegionStart;
   Lib.defaultRegionEnd; Lib.defaultSectionMarker; Cli.defaultRegionStart]
  ++ flat_map (fun p =>
                 flat_map (fun r => match r with Some x => [x] | None => [] end)
                          [regionStart p; regionEnd p; sectionMarker p]
                 ++ map a_pattern (match autoPatterns p with
                                   | Some l => l
                                   | None => []
                                   end))
              (Lib.LANGUAGE_PLUGINS ++ Cli.LANGUAGE_PLUGINS)
  ++ flat_map (fun c => [Server.regionStart c; Server.regionEnd c])
              Server.LANGUAGE_CONFIG
  ++ flat_map (fun kv => map Server.regex (snd kv)) Server.patterns
  ++ [Server21.descriptionRe; Server21.tableRe; Server21.rowRe;
      Server21.linesRe; Server21.notesRe; re "\.[^.]+$"].

(** *** Loop invariants of the scanners *)

(** What holds of the loop variables before the line [lineNum] is read:
    the sections found so far follow one another and end before the open
    section starts, or before [lineNum] when none is open. *)
Definition scan_inv (lineNum : Z) (st : Lib.Scan) : Prop :=
  if truthy (Lib.currentSection st)
  then chain 1 (map span_of (Lib.found st)) (Lib.sectionStart st - 1)
       /\ (1 <= Lib.sectionStart st < lineNum)%Z
  else chain 1 (map span_of (Lib.found st)) (lineNum - 1).

(** The same for the second loop of the tool's pattern scanner *)
Definition group_inv (lineNum : Z) (st : list Section * option str * Z) : Prop :=
  let '(sections, currentSection, sectionStart) := st in
  if truthy currentSection
  then chain 1 (map span_of sections) (sectionStart - 1)
       /\ (1 <= sectionStart < lineNum)%Z
  else chain 1 (map span_of sections) (lineNum - 1).

(** What holds of [sections] and [currentSection] when the lines up to
    number [done] have been read. *)
Definition server_inv (done : Z) (st : list Server.Section * option Server.Section)
    : Prop :=
  match snd st with
  | Some c =>
      chain 1 (map server_span (fst st)) (Server.line c - 1)
      /\ (1 <= Server.line c <= Server.end_ c)%Z /\ (Server.end_ c <= done)%Z
  | None => chain 1 (map server_span (fst st)) done
  end.

(** The rows [generateIndex] of the server of version 2.1 takes from the
    companion document of a file; none without a document that can be
    read. *)
Definition companion_rows (filePath : str) (fs : FS) : list Section :=
  match Server21.findCompanionMarkdown filePath fs with
  | Some p =>
      match Server21.parseCompanionMarkdown p fs with
      | Some companion => Server21.c_sections companion
      | None => []
      end
  | None => []
  end.

(** The fallback section *)
Definition server_main (n : Z) : Server.Section :=
  Server.mkSection (lit "main") (lit "Main content") 1 n n.

Definition main_section (n : Z) : Section :=
  mkSection (lit "main") 1 n (Some (lit "Main content")).

(* ------------------------------------------------------------------ *)
(** ** Sample files                                                    *)
(* ------------------------------------------------------------------ *)

Module Sample.

Definition now : str := lit "2026-01-18T12:00:00.000Z".

(** A file system with one file *)
Definition single (path content : str) : FS :=
  mkFS (fun p => if eqs p path then Some content else None)
       (fun p => eqs p path) (fun p => eqs p path) (fun _ => false).

(** A text file, of a language no registry knows *)
Definition notes : FS := single (lit "notes.txt") (lit "hello").

(** A file system with the files listed, all of them writable *)
Definition files (l : list (str * str)) : FS :=
  let text p := option_map snd (find (fun kv => eqs p (fst kv)) l) in
  let present p := match text p with Some _ => true | None => false end in
  mkFS text present present (fun _ => false).

(** A companion document whose table is neither in order nor free of
    overlap, and has a row that ends before it starts *)
Definition companion_md : str := lit "# a.ts

## Sections

| Section | Lines | Description |
|---------|-------|-------------|
| b | 10-20 | second |
| a | 1-15 | first |
| c | 9-4 | third |
".

(** A file of twenty lines *)
Definition twenty_lines : str := repeat nl 19.

Definition with_companion : FS :=
  files [(lit "a.ts", twenty_lines); (lit "a.ts.ai.md", companion_md)].

(** A TypeScript file without region markers *)
Definition imports_ts : str := lit "import a from 'b'
const x = 1
const y = 2".

(** An index block whose only row has no Size column *)
Definition block_without_size : str := lit "/**
 * @ai-index
 * | foo | 10 | 20 |
 */".

(** A TypeScript file with a stored index and a region [imports] that
    starts at line 11; the stored start is [stored]. *)
Definition drifted (stored : String.string) : str :=
  lit "/**
 * @ai-index
 * | imports | " ++ lit stored ++ lit " | 13 |
 */






//#region imports
import a from 'b'
//#endregion".

End Sample.

(** *** Vocabulary of the round trip *)

Definition star : char := 42%N.
Definition slash : char := 47%N.

(** The state after [k] more code units of the subject have been consumed *)
Definition st_after (st : mstate) (k : nat) : mstate :=
  mkst (pos st + k)
       (match k with O => prev st | S j => Some (nth j (rest st) 0%N) end)
       (skipn k (rest st))
       (caps st).

(** The length of the longest prefix all of whose code units satisfy [f] *)
Fixpoint prefix_len (f : char -> bool) (l : str) : nat :=
  match l with
  | c :: t => if f c then S (prefix_len f t) else 0
  | [] => 0
  end.

(** The value of a string of decimal digits *)
Definition value (l : str) : N :=
  fold_left (fun a c => (a * 10 + (c - 48))%N) l 0%N.

(** Scanning for the block terminator: [scan_close b l] is [None] when
    [l] contains the two code units of the terminator in a row (or starts
    with a slash while [b] says that a star came just before); otherwise
    it tells whether [l] ends with a star ([b] for the empty [l]). *)
Fixpoint scan_close (b : bool) (l : str) : option bool :=
  match l with
  | [] => Some b
  | c :: t =>
      if b && (c =? slash)%N then None else scan_close (c =? star)%N t
  end.

(** The white space of a pattern, [\s*] *)
Definition spc : regex := Rep true 0 CSpace.



(** What the cell [\s*(\d+)\s*\|] reads: white space, digits (at least
    one), white space, a bar; the digits and what follows the bar. *)
Fixpoint takeWhile (f : char -> bool) (l : str) : str :=
  match l with
  | c :: t => if f c then c :: takeWhile f t else []
  | [] => []
  end.


(** *** Vocabulary of the further properties *)

(** A range inside a file of [n] lines *)
Definition within (n : Z) (a : span) : Prop :=
  (1 <= fst a <= snd a)%Z /\ (snd a <= n)%Z.

(** No two neighbours of a list of names are the same name. *)
Fixpoint adjacent_distinct (l : list str) : Prop :=
  match l with
  | a :: t => match t with b :: _ => a <> b | [] => True end
              /\ adjacent_distinct t
  | [] => True
  end.

(** The last section of a list ends at line [n] (nothing is said of the
    empty list). *)
Definition last_ends_at (n : Z) (l : list Section) : Prop :=
  match rev l with
  | s :: _ => end_ s = n
  | [] => True
  end.

(** The rules of a plugin, [plugin?.autoPatterns || []] *)
Definition rules_of (plugin : option Plugin) : list AutoPattern :=
  match plugin with
  | Some p => match autoPatterns p with Some l => l | None => [] end
  | None => []
  end.

(** The first rule of the tool matching a line, and of the server *)
Definition cli_rule (rules : list AutoPattern) (l : str) : option AutoPattern :=
  find (fun r => test (a_pattern r) l) rules.
Definition server_rule (rules : list Server.Rule) (l : str) : option Server.Rule :=
  find (fun r => test (Server.regex r) l) rules.

(** The size field of a section of the server agrees with its range. *)
Definition sized (s : Server.Section) : Prop :=
  Server.size s = (Server.end_ s - Server.line s + 1)%Z.

(** What holds of the server's loop variables about sizes and names: every
    section is sized, and the names of the sections, followed by the name of
    the open one, have no equal neighbours. *)
Definition server_sized (st : list Server.Section * option Server.Section)
    : Prop :=
  Forall sized (fst st)
  /\ match snd st with Some c => sized c | None => True end.

Definition server_names (st : list Server.Section * option Server.Section)
    : list str :=
  map Server.name (fst st)
  ++ match snd st with Some c => [Server.name c] | None => [] end.

(** The open section of the server's pattern scanner exists as soon as a
    section was closed. *)
Definition server_started (st : list Server.Section * option Server.Section)
    : Prop :=
  snd st = None -> fst st = [].

(** One iteration of the tool's pattern scanner with its two loops fused:
    the detection of the line is the first rule matching it. *)
Definition fusedStep (rules : list AutoPattern) (lineNum : Z) (l : str)
    (st : list Section * option str * Z) : list Section * option str * Z :=
  let '(sections, currentSection, sectionStart) := st in
  match cli_rule rules l with
  | None => st
  | Some r =>
      let sections' :=
        if truthy currentSection
           && negb (eqs (orEmpty currentSection) (a_section r))
        then sections ++ [mkSection (orEmpty currentSection) sectionStart
                                    (lineNum - 1) None]
        else sections in
      match currentSection with
      | Some c =>
          if eqs c (a_section r) then (sections', currentSection, sectionStart)
          else (sections', Some (a_section r), lineNum)
      | None => (sections', Some (a_section r), lineNum)
      end
  end.

Fixpoint fusedLoop (rules : list AutoPattern) (lines : list str) (lineNum : Z)
    (st : list Section * option str * Z) : list Section * option str * Z :=
  match lines with
  | [] => st
  | l :: rest => fusedLoop rules rest (lineNum + 1) (fusedStep rules lineNum l st)
  end.

(** A rule with a section name *)
Definition named (r : AutoPattern) : bool :=
  match a_section r with [] => false | _ :: _ => true end.

(** What holds of the variables of the tool's pattern scanner: nothing is
    found before a section is open, the open section has a name, and the
    names found, followed by the open one, have no equal neighbours. *)
Definition fused_inv (st : list Section * option str * Z) : Prop :=
  let '(sections, currentSection, _) := st in
  match currentSection with
  | None => sections = []
  | Some c => c <> [] /\ adjacent_distinct (map name sections ++ [c])
  end.

(** The detection the first loop of the tool records for a rule *)
Definition detection_of (lineNum : Z) (r : AutoPattern) : Cli.Detection :=
  Cli.mkDetection (a_section r) lineNum
    (match a_priority r with
     | Some p => if (p =? 0)%Z then 5%Z else p
     | None => 5%Z
     end).

(** The name of the section a line opens for the explicit scanner of the
    library and of the tool: the capture of a region start, or of a section
    marker on a line that is no region end. *)
Definition opened_name (rStart rEnd marker : RegExp) (l : str) : option str :=
  match exec rStart l with
  | Some m => Some (trim (orEmpty (group 1 m)))
  | None =>
      if test rEnd l then None
      else match exec marker l with
           | Some m => Some (trim (orEmpty (group 1 m)))
           | None => None
           end
  end.

(** A section that starts on a line of the file which opens it, under a
    name that is not empty *)
Definition marked (rStart rEnd marker : RegExp) (lines : list str)
    (s : Section) : Prop :=
  name s <> []
  /\ (1 <= line s)%Z
  /\ exists l, nth_error lines (Z.to_nat (line s - 1)) = Some l
               /\ opened_name rStart rEnd marker l = Some (name s).

(** Something was found or is open. *)
Definition active (st : Lib.Scan) : bool :=
  truthy (Lib.currentSection st)
  || match Lib.found st with [] => false | _ :: _ => true end.

(** What holds of the variables of the explicit scanner after the lines
    [pre]: every section found, and the open one, is marked. *)
Definition marks_inv (rStart rEnd marker : RegExp) (lines : list str)
    (st : Lib.Scan) : Prop :=
  Forall (marked rStart rEnd marker lines) (Lib.found st)
  /\ (truthy (Lib.currentSection st) = true ->
      forall e, marked rStart rEnd marker lines
                       (mkSection (orEmpty (Lib.currentSection st))
                                  (Lib.sectionStart st) e
                                  (Some (orEmpty (Lib.currentDesc st))))).

(** A name [parseIndex] accepts for a row: without the text of the header
    and without three dashes in a row *)
Definition row_name (k : str) : Prop :=
  includes (lit "Section") k = false /\ includes (lit "---") k = false.

(** A line of text: no line terminator in it *)
Definition one_line (l : str) : bool := forallb (fun c => negb (isLineTerminator c)) l.

(** A line feed *)
Definition isFeed (c : char) : bool := (10 =? c)%N.

(** *** Vocabulary of the block and its terminator *)

(** The head of an index block, which the block pattern reads code unit
    by code unit *)
Definition block_head : str := lit "/**" ++ [nl] ++ lit " * @ai-index".

(** The pattern that reads the text [s] and goes on with [K] *)
Definition literally (s : str) (K : regex) : regex :=
  fold_right (fun c r => Cat (Chr (CChar c)) r) K s.

(** The block pattern up to [@ai-index], followed by [K] *)
Definition block_head_re (K : regex) : regex :=
  literally (lit "/**")
    (Cat spc (Cat (Chr (CChar nl)) (Cat spc (Cat (Chr (CChar star))
       (Cat spc (literally (lit "@ai-index") K)))))).

(** The set [[\s\S]] and the end of the block pattern, [[\s\S]*?\*\/] *)
Definition any_unit : cset := COr (COr CNone CSpace) (CNot CSpace).
Definition closing : regex := Cat (Chr (CChar star)) (Chr (CChar slash)).
Definition to_close : regex := Cat (Rep false 0 any_unit) closing.

(** The index of the first block terminator in a text *)
Fixpoint find_close (l : str) : option nat :=
  match l with
  | a :: t =>
      match t with
      | b :: _ => if ((a =? star) && (b =? slash))%N then Some 0
                  else option_map S (find_close t)
      | [] => None
      end
  | [] => None
  end.

(** A text without the block terminator; a section whose name and
    description are such texts *)
Definition open_text (l : str) : bool := negb (includes (lit "*/") l).

Definition open_section (s : Section) : bool :=
  open_text (name s) && open_text (orEmpty (desc s)).

(** A code unit that is neither a star nor a slash *)
Definition plain (c : char) : bool := (negb (c =? star) && negb (c =? slash))%N.

(** A text that starts with a code unit other than a slash *)
Definition starts_clear (l : str) : bool :=
  match l with c :: _ => negb (c =? slash)%N | [] => false end.

(** The shebang line of a content, empty when it has none: what the
    shebang pattern matches *)
Definition shebang_line (content : str) : str :=
  match exec Lib.shebangRe content with
  | Some m => matched m
  | None => []
  end.

(** *** Vocabulary of the table rows *)






(** The line and the end of a section are in the safe range (so is the
    size [end - line + 1] then, for a line that is not negative). *)
Definition in_range (s : Section) : bool :=
  (line s <=? MAX_SAFE_INTEGER)%Z && (end_ s <=? MAX_SAFE_INTEGER)%Z.






(* ================================================================== *)
(** * Part II: properties                                              *)
(* ================================================================== *)

Lemma patterns_read : forallb reads all_patterns = true.
Proof. vm_compute. reflexivity. Qed.

(** ** Ranges that follow one another *)

Lemma chain_bounds lo l hi : chain lo l hi -> (lo <= hi + 1)%Z.
Proof.
  revert lo. induction l as [|a t IH]; simpl; intros lo H; [exact H|].
  destruct H as (H1 & H2 & H3). apply IH in H3. lia.
Qed.

Lemma chain_weaken lo l hi hi' :
  chain lo l hi -> (hi <= hi')%Z -> chain lo l hi'.
Proof.
  revert lo. induction l as [|a t IH]; simpl; intros lo H Hle; [lia|].
  destruct H as (H1 & H2 & H3). repeat split; auto.
Qed.

Lemma chain_snoc lo l hi a b :
  chain lo l hi -> (hi + 1 <= a)%Z -> (a <= b)%Z -> chain lo (l ++ [(a, b)]) b.
Proof.
  revert lo. induction l as [|x t IH]; simpl; intros lo H Ha Hb.
  - repeat split; lia.
  - destruct H as (H1 & H2 & H3). repeat split; auto.
Qed.

Lemma chain_within lo l hi a :
  chain lo l hi -> In a l -> (lo <= fst a /\ fst a <= snd a /\ snd a <= hi)%Z.
Proof.
  revert lo. induction l as [|x t IH]; simpl; intros lo H Hin; [contradiction|].
  destruct H as (H1 & H2 & H3). destruct Hin as [->|Hin].
  - apply chain_bounds in H3. lia.
  - specialize (IH _ H3 Hin). lia.
Qed.

Lemma chain_ascending lo l hi : chain lo l hi -> ascending l.
Proof.
  revert lo. induction l as [|x t IH]; simpl; intros lo H; [constructor|].
  destruct H as (H1 & H2 & H3). constructor; [eapply IH; eauto|].
  apply Forall_forall. intros a Ha.
  pose proof (chain_within _ _ _ _ H3 Ha). lia.
Qed.

Lemma chain_well_formed lo l hi : chain lo l hi -> well_formed l.
Proof.
  intros H. apply Forall_forall. intros a Ha.
  pose proof (chain_within _ _ _ _ H Ha). lia.
Qed.

Lemma chain_disjoint lo l hi : chain lo l hi -> disjoint l.
Proof.
  revert lo. induction l as [|x t IH]; simpl; intros lo H; [constructor|].
  destruct H as (H1 & H2 & H3). constructor; [|eapply IH; eauto].
  apply Forall_forall. intros a Ha n [Hx Hn].
  pose proof (chain_within _ _ _ _ H3 Ha). unfold covers in *. lia.
Qed.

Lemma split_nl_nonempty s : split_nl s <> [].
Proof.
  induction s as [|c t IH]; simpl; [discriminate|].
  destruct (c =? nl)%N; [discriminate|].
  destruct (split_nl t); [contradiction|discriminate].
Qed.

Lemma split_nl_length s : (1 <= Z.of_nat (length (split_nl s)))%Z.
Proof.
  pose proof (split_nl_nonempty s). destruct (split_nl s); [contradiction|].
  simpl length. lia.
Qed.

(** ** The explicit scanner of the library and of the tool *)

Section ExplicitScan.
Variables rStart rEnd marker : RegExp.

Lemma close_chain st lineNum e :
  scan_inv lineNum st -> truthy (Lib.currentSection st) = true ->
  (lineNum - 1 <= e)%Z ->
  chain 1 (map span_of (Lib.close st e)) e.
Proof.
  unfold scan_inv, Lib.close. intros H Ht He. rewrite Ht in H.
  destruct H as [Hc Hs]. rewrite map_app. cbn [map span_of line end_].
  apply chain_snoc with (hi := (Lib.sectionStart st - 1)%Z); [exact Hc|simpl; lia|simpl; lia].
Qed.

Lemma open_inv found0 lineNum nm d :
  chain 1 (map span_of found0) (lineNum - 1) -> (1 <= lineNum)%Z ->
  scan_inv (lineNum + 1) (Lib.mkScan found0 nm d lineNum).
Proof.
  intros H Hl. unfold scan_inv. simpl.
  destruct (truthy nm).
  - split; [exact H|lia].
  - eapply chain_weaken; eauto. lia.
Qed.

Lemma found_chain st lineNum :
  scan_inv lineNum st -> truthy (Lib.currentSection st) = false ->
  chain 1 (map span_of (Lib.found st)) (lineNum - 1).
Proof. unfold scan_inv. intros H Ht. rewrite Ht in H. exact H. Qed.

Lemma scan_inv_next st lineNum :
  scan_inv lineNum st -> scan_inv (lineNum + 1) st.
Proof.
  unfold scan_inv. destruct (truthy (Lib.currentSection st)).
  - intros [H1 H2]. split; [exact H1|lia].
  - intros H. eapply chain_weaken; eauto. lia.
Qed.

Lemma step_inv lineNum l st :
  (1 <= lineNum)%Z -> scan_inv lineNum st ->
  scan_inv (lineNum + 1) (Lib.step rStart rEnd marker lineNum l st).
Proof.
  intros Hl Hinv. unfold Lib.step.
  assert (Hopen : forall nm d,
             scan_inv (lineNum + 1)
               (Lib.mkScan (if truthy (Lib.currentSection st)
                            then Lib.close st (lineNum - 1) else Lib.found st)
                           nm d lineNum)).
  { intros nm d. apply open_inv; auto.
    destruct (truthy (Lib.currentSection st)) eqn:Ht.
    - eapply close_chain; eauto. lia.
    - eapply found_chain; eauto. }
  destruct (exec rStart l); [apply Hopen|].
  destruct (test rEnd l).
  - destruct (truthy (Lib.currentSection st)) eqn:Ht.
    + unfold scan_inv. simpl.
      replace (lineNum + 1 - 1)%Z with lineNum by lia.
      eapply close_chain; eauto. lia.
    + apply scan_inv_next. exact Hinv.
  - destruct (exec marker l); [apply Hopen|].
    apply scan_inv_next. exact Hinv.
Qed.

Lemma loop_inv lines : forall lineNum st,
  (1 <= lineNum)%Z -> scan_inv lineNum st ->
  scan_inv (lineNum + Z.of_nat (length lines))
           (Lib.loop rStart rEnd marker lines lineNum st).
Proof.
  induction lines as [|l rest IH]; intros lineNum st Hl Hinv.
  - simpl. replace (lineNum + 0)%Z with lineNum by lia. exact Hinv.
  - cbn [Lib.loop length].
    replace (lineNum + Z.of_nat (S (length rest)))%Z
      with ((lineNum + 1) + Z.of_nat (length rest))%Z by lia.
    apply IH; [lia|]. apply step_inv; auto.
Qed.

(** The sections of one scan follow one another within the file. *)
Lemma scan_chain lines :
  let st := Lib.loop rStart rEnd marker lines 1 (Lib.mkScan [] None None 0) in
  chain 1 (map span_of
             (if truthy (Lib.currentSection st)
              then Lib.close st (Z.of_nat (length lines)) else Lib.found st))
        (Z.of_nat (length lines)).
Proof.
  intros st.
  assert (H : scan_inv (1 + Z.of_nat (length lines)) st).
  { apply loop_inv; [lia|]. unfold scan_inv. simpl. lia. }
  destruct (truthy (Lib.currentSection st)) eqn:Ht.
  - eapply close_chain; eauto. lia.
  - apply found_chain in H; auto.
    replace (1 + Z.of_nat (length lines) - 1)%Z with (Z.of_nat (length lines)) in H by lia.
    exact H.
Qed.

End ExplicitScan.

Lemma findSections_chain content plugin :
  chain 1 (map span_of (Lib.findSections content plugin))
        (Z.of_nat (length (split_nl content))).
Proof. unfold Lib.findSections. apply scan_chain. Qed.

Lemma findExplicitSections_chain content plugin :
  chain 1 (map span_of (Cli.findExplicitSections content plugin))
        (Z.of_nat (length (split_nl content))).
Proof. unfold Cli.findExplicitSections. apply scan_chain. Qed.

(** ** The pattern scanner of the tool *)

Section CliAuto.
Variable detected : list Cli.Detection.

Lemma groupStep_inv lineNum st :
  (1 <= lineNum)%Z -> group_inv lineNum st ->
  group_inv (lineNum + 1) (Cli.groupStep detected lineNum st).
Proof.
  intros Hl. destruct st as [[sections cur] start]. unfold Cli.groupStep.
  assert (Hnext : group_inv lineNum (sections, cur, start) ->
                  group_inv (lineNum + 1) (sections, cur, start)).
  { unfold group_inv. destruct (truthy cur).
    - intros [H1 H2]. split; [exact H1|lia].
    - intros H. eapply chain_weaken; eauto. lia. }
  destruct (find _ detected) as [d|]; [|exact Hnext].
  intros Hinv.
  assert (Hfresh : forall secs nm,
             chain 1 (map span_of secs) (lineNum - 1) ->
             group_inv (lineNum + 1) (secs, nm, lineNum)).
  { intros secs nm H. unfold group_inv. destruct (truthy nm).
    - split; [exact H|lia].
    - eapply chain_weaken; eauto. lia. }
  destruct cur as [c|].
  - cbn [orEmpty]. destruct (eqs c (Cli.d_section d)) eqn:He; cbn [negb].
    + rewrite andb_false_r. apply Hnext. exact Hinv.
    + rewrite andb_true_r. apply Hfresh. unfold group_inv in Hinv.
      destruct (truthy (Some c)) eqn:Ht.
      * destruct Hinv as [H1 H2]. rewrite map_app. cbn [map span_of line end_].
        apply chain_snoc with (hi := (start - 1)%Z); [exact H1|simpl; lia|simpl; lia].
      * exact Hinv.
  - cbn [truthy andb]. apply Hfresh. exact Hinv.
Qed.

Lemma groupLoop_inv lines : forall lineNum st,
  (1 <= lineNum)%Z -> group_inv lineNum st ->
  group_inv (lineNum + Z.of_nat (length lines))
            (Cli.groupLoop detected lines lineNum st).
Proof.
  induction lines as [|l rest IH]; intros lineNum st Hl Hinv.
  - simpl. replace (lineNum + 0)%Z with lineNum by lia. exact Hinv.
  - cbn [Cli.groupLoop length].
    replace (lineNum + Z.of_nat (S (length rest)))%Z
      with ((lineNum + 1) + Z.of_nat (length rest))%Z by lia.
    apply IH; [lia|]. apply groupStep_inv; auto.
Qed.

End CliAuto.

Lemma cli_detectSectionsAuto_chain content plugin :
  chain 1 (map span_of (Cli.detectSectionsAuto content plugin))
        (Z.of_nat (length (split_nl content))).
Proof.
  unfold Cli.detectSectionsAuto.
  set (lines := split_nl content). set (detected := Cli.detect _ lines 1).
  pose proof (groupLoop_inv detected lines 1 ([], None, 0%Z)) as H.
  destruct (Cli.groupLoop detected lines 1 ([], None, 0%Z)) as [[sections cur] start].
  assert (Hinv : group_inv (1 + Z.of_nat (length lines)) (sections, cur, start)).
  { apply H; [lia|]. simpl. lia. }
  unfold group_inv in Hinv. destruct (truthy cur).
  - destruct Hinv as [H1 H2]. rewrite map_app. cbn [map span_of line end_].
    apply chain_snoc with (hi := (start - 1)%Z); [exact H1|simpl; lia|simpl; lia].
  - replace (1 + Z.of_nat (length lines) - 1)%Z with (Z.of_nat (length lines)) in Hinv by lia.
    exact Hinv.
Qed.

(** ** The scanners of the server *)

Lemma server_inv_next done st :
  server_inv done st -> server_inv (done + 1) st.
Proof.
  unfold server_inv. destruct (snd st).
  - intros (H1 & H2 & H3). repeat split; auto; lia.
  - intros H. eapply chain_weaken; eauto. lia.
Qed.

Lemma server_push sections c done e :
  server_inv done (sections, Some c) -> (done <= e)%Z ->
  chain 1 (map server_span (sections ++ [Server.closeAt c e])) e.
Proof.
  unfold server_inv. simpl. intros (H1 & H2 & H3) He.
  rewrite map_app.
  apply chain_snoc with (hi := (Server.line c - 1)%Z);
    [exact H1|simpl; lia|simpl; lia].
Qed.

Lemma autoStep_inv rules i l st :
  (0 <= i)%Z -> server_inv i st ->
  server_inv (i + 1) (Server.autoStep rules i l st).
Proof.
  intros Hi Hinv. destruct st as [sections cur]. unfold Server.autoStep.
  destruct (find _ rules) as [r|]; [|apply server_inv_next; exact Hinv].
  destruct cur as [c|].
  - destruct (negb (eqs (Server.name c) (Server.r_name r))).
    + unfold server_inv. simpl. split; [|lia].
      replace (i + 1 - 1)%Z with i by lia.
      eapply server_push; eauto. lia.
    + unfold server_inv in *. simpl in *. destruct Hinv as (H1 & H2 & H3).
      repeat split; auto; lia.
  - unfold server_inv in *. simpl in *. split; [|lia].
    replace (i + 1 - 1)%Z with i by lia. exact Hinv.
Qed.

Lemma autoLoop_inv rules lines : forall i st,
  (0 <= i)%Z -> server_inv i st ->
  server_inv (i + Z.of_nat (length lines)) (Server.autoLoop rules lines i st).
Proof.
  induction lines as [|l rest IH]; intros i st Hi Hinv.
  - simpl. replace (i + 0)%Z with i by lia. exact Hinv.
  - cbn [Server.autoLoop length].
    replace (i + Z.of_nat (S (length rest)))%Z
      with ((i + 1) + Z.of_nat (length rest))%Z by lia.
    apply IH; [lia|]. apply autoStep_inv; auto.
Qed.

Lemma server_detectSectionsAuto_chain lines cfg :
  chain 1 (map server_span (Server.detectSectionsAuto lines cfg))
        (Z.of_nat (length lines)).
Proof.
  unfold Server.detectSectionsAuto.
  pose proof (autoLoop_inv (Server.langPatterns cfg) lines 0 ([], None)) as H.
  destruct (Server.autoLoop _ lines 0 ([], None)) as [sections cur].
  assert (Hinv : server_inv (0 + Z.of_nat (length lines)) (sections, cur)).
  { apply H; [lia|]. unfold server_inv. simpl. lia. }
  replace (0 + Z.of_nat (length lines))%Z with (Z.of_nat (length lines)) in Hinv by lia.
  destruct cur as [c|]; [|exact Hinv].
  unfold server_inv in Hinv. simpl in Hinv. destruct Hinv as (H1 & H2 & H3).
  rewrite map_app.
  apply chain_weaken with (hi := Server.end_ c); [|exact H3].
  apply chain_snoc with (hi := (Server.line c - 1)%Z); [exact H1|simpl; lia|simpl; lia].
Qed.

Lemma explicitStep_inv cfg lineNum l st :
  (1 <= lineNum)%Z -> server_inv (lineNum - 1) st ->
  server_inv lineNum (Server.explicitStep cfg lineNum l st).
Proof.
  intros Hl Hinv. destruct st as [sections cur]. unfold Server.explicitStep.
  assert (Hkeep : server_inv lineNum (sections, cur)).
  { replace lineNum with (lineNum - 1 + 1)%Z by lia. apply server_inv_next.
    exact Hinv. }
  destruct (match cfg with Some c => exec (Server.regionStart c) l | None => None end).
  - unfold server_inv. cbn [fst snd Server.line Server.end_]. split; [|lia].
    destruct cur as [c|].
    + apply server_push with (done := (lineNum - 1)%Z); [exact Hinv|lia].
    + exact Hinv.
  - destruct (match cfg with Some c => test (Server.regionEnd c) l | None => false end);
      [|exact Hkeep].
    destruct cur as [c|]; [|exact Hkeep].
    unfold server_inv. cbn [fst snd].
    apply server_push with (done := (lineNum - 1)%Z); [exact Hinv|lia].
Qed.

Lemma explicitLoop_inv cfg lines : forall lineNum st,
  (1 <= lineNum)%Z -> server_inv (lineNum - 1) st ->
  server_inv (lineNum - 1 + Z.of_nat (length lines))
             (Server.explicitLoop cfg lines lineNum st).
Proof.
  induction lines as [|l rest IH]; intros lineNum st Hl Hinv.
  - simpl. replace (lineNum - 1 + 0)%Z with (lineNum - 1)%Z by lia. exact Hinv.
  - cbn [Server.explicitLoop length].
    replace (lineNum - 1 + Z.of_nat (S (length rest)))%Z
      with ((lineNum + 1) - 1 + Z.of_nat (length rest))%Z by lia.
    apply IH; [lia|].
    replace (lineNum + 1 - 1)%Z with lineNum by lia.
    apply explicitStep_inv; auto.
Qed.

Lemma server_detectSectionsExplicit_chain lines cfg :
  chain 1 (map server_span (Server.detectSectionsExplicit lines cfg))
        (Z.of_nat (length lines)).
Proof.
  unfold Server.detectSectionsExplicit.
  pose proof (explicitLoop_inv cfg lines 1 ([], None)) as H.
  destruct (Server.explicitLoop cfg lines 1 ([], None)) as [sections cur].
  assert (Hinv : server_inv (1 - 1 + Z.of_nat (length lines)) (sections, cur)).
  { apply H; [lia|]. unfold server_inv. simpl. lia. }
  replace (1 - 1 + Z.of_nat (length lines))%Z with (Z.of_nat (length lines)) in Hinv by lia.
  destruct cur as [c|]; [|exact Hinv].
  eapply server_push; eauto. lia.
Qed.

(** ** The resolved sections follow one another within the file *)

Lemma main_chain n : (1 <= n)%Z -> chain 1 [(1, n)%Z] n.
Proof. intros H. simpl. lia. Qed.

Lemma lib_resolve_chain content plugin :
  chain 1 (map span_of (Lib.resolve content plugin))
        (Z.of_nat (length (split_nl content))).
Proof.
  unfold Lib.resolve.
  pose proof (findSections_chain content (Some plugin)) as H.
  destruct (Lib.findSections content (Some plugin)); [|exact H].
  apply main_chain, split_nl_length.
Qed.

Lemma cli_resolve_chain content plugin :
  chain 1 (map span_of (Cli.resolve content plugin))
        (Z.of_nat (length (split_nl content))).
Proof.
  unfold Cli.resolve.
  pose proof (findExplicitSections_chain content (Some plugin)) as H.
  pose proof (cli_detectSectionsAuto_chain content (Some plugin)) as H'.
  destruct (Cli.findExplicitSections content (Some plugin)); [|exact H].
  destruct (Cli.detectSectionsAuto content (Some plugin)); [|exact H'].
  apply main_chain, split_nl_length.
Qed.

Lemma server_resolve_chain lines cfg :
  lines <> [] ->
  chain 1 (map server_span (Server.resolve lines cfg)) (Z.of_nat (length lines)).
Proof.
  intros Hne. unfold Server.resolve.
  pose proof (server_detectSectionsExplicit_chain lines cfg) as H.
  pose proof (server_detectSectionsAuto_chain lines cfg) as H'.
  destruct (Server.detectSectionsExplicit lines cfg); [|exact H].
  destruct (Server.detectSectionsAuto lines cfg); [|exact H'].
  apply main_chain. destruct lines; [contradiction|simpl length; lia].
Qed.

(** The server of version 2.1: companion rows, or the scanners *)

(** The index of the server of version 2.1: the rows of the companion
    document when it has any, and else what the server of version 2.0
    resolves. *)
Lemma server21_generateIndex (filePath content : str) (fs : FS) :
  fs filePath = Some content ->
  exists index,
    Server21.generateIndex filePath fs = Return index
    /\ Server21.totalLines index = Z.of_nat (length (split_nl content))
    /\ Server21.companionFile index = Server21.findCompanionMarkdown filePath fs
    /\ match companion_rows filePath fs with
       | [] =>
           Server21.sections index
           = Server.resolve (split_nl content) (Server.detectLanguage filePath)
           /\ Server21.source index
              = match Server.detectSectionsExplicit
                        (split_nl content) (Server.detectLanguage filePath) with
                | [] => lit "auto"
                | _ => lit "regions"
                end
       | rows =>
           Server21.sections index = map Server21.sized rows
           /\ Server21.source index = lit "markdown"
       end.
Proof.
  intros Hread. unfold Server21.generateIndex, readFile, companion_rows.
  rewrite Hread.
  unfold Server21.detectLanguage, Server21.detectSectionsExplicit,
         Server21.detectSectionsAuto, Server.resolve.
  set (lines := split_nl content). set (cfg := Server.detectLanguage filePath).
  destruct (Server21.findCompanionMarkdown filePath fs) as [p|].
  - destruct (Server21.parseCompanionMarkdown p fs) as [companion|].
    + destruct (Server21.c_sections companion) as [|r rows].
      * destruct (Server.detectSectionsExplicit lines cfg) as [|e es].
        -- eexists. repeat split.
        -- eexists. repeat split.
      * eexists. repeat split.
    + destruct (Server.detectSectionsExplicit lines cfg) as [|e es].
      * eexists. repeat split.
      * eexists. repeat split.
  - destruct (Server.detectSectionsExplicit lines cfg) as [|e es].
    + eexists. repeat split.
    + eexists. repeat split.
Qed.

Lemma server21_scanned (filePath content : str) (fs : FS) index :
  fs filePath = Some content ->
  Server21.generateIndex filePath fs = Return index ->
  Server21.source index <> lit "markdown" ->
  Server21.sections index
  = Server.resolve (split_nl content) (Server.detectLanguage filePath).
Proof.
  intros Hread Hrun Hsource.
  destruct (server21_generateIndex filePath content fs Hread)
    as (index' & Hrun' & _ & _ & H).
  rewrite Hrun in Hrun'. injection Hrun' as <-.
  destruct (companion_rows filePath fs); [apply H|].
  destruct H as [_ H]. contradiction.
Qed.

(** C3 (as amended).  The sections that the scanners or the fallback
    supply (in the library, the tool and the two servers) are in ascending
    order of start, each has start <= end, and no line belongs to two of
    them.  The server of version 2.1 resolves to such sections whenever
    its index is not taken from a companion document. *)
Theorem C3_resolved_sections_ordered_disjoint :
  forall content : str,
    (forall plugin,
        let l := map span_of (Lib.resolve content plugin) in
        ascending l /\ well_formed l /\ disjoint l)
    /\ (forall plugin,
           let l := map span_of (Cli.resolve content plugin) in
           ascending l /\ well_formed l /\ disjoint l)
    /\ (forall cfg,
           let l := map server_span (Server.resolve (split_nl content) cfg) in
           ascending l /\ well_formed l /\ disjoint l)
    /\ (forall (filePath : str) (fs : FS) (index : Server21.Index),
           fs filePath = Some content ->
           Server21.generateIndex filePath fs = Return index ->
           Server21.source index <> lit "markdown" ->
           let l := map server_span (Server21.sections index) in
           ascending l /\ well_formed l /\ disjoint l).
Proof.
  intros content.
  assert (H : forall l hi, chain 1 l hi -> ascending l /\ well_formed l /\ disjoint l).
  { intros l hi Hc. repeat split;
      [eapply chain_ascending|eapply chain_well_formed|eapply chain_disjoint]; eauto. }
  split; [|split; [|split]].
  - intros x. cbv zeta. eapply H. apply lib_resolve_chain.
  - intros x. cbv zeta. eapply H. apply cli_resolve_chain.
  - intros x. cbv zeta. eapply H. apply server_resolve_chain, split_nl_nonempty.
  - intros filePath fs index Hread Hrun Hsource. cbv zeta.
    rewrite (server21_scanned _ _ _ _ Hread Hrun Hsource).
    eapply H. apply server_resolve_chain, split_nl_nonempty.
Qed.

Lemma C3_witness :
  exists index,
    Server21.generateIndex (lit "a.ts")
                           (Sample.single (lit "a.ts") Sample.imports_ts)
    = Return index
    /\ ascending (map server_span (Server21.sections index))
    /\ disjoint (map server_span (Server21.sections index)).
Proof.
  destruct (C3_resolved_sections_ordered_disjoint Sample.imports_ts)
    as (_ & _ & _ & H).
  destruct (Server21.generateIndex (lit "a.ts")
              (Sample.single (lit "a.ts") Sample.imports_ts))
    as [index|] eqn:E; [|vm_compute in E; discriminate].
  exists index. split; [reflexivity|].
  destruct (H (lit "a.ts") (Sample.single (lit "a.ts") Sample.imports_ts)
              index eq_refl E) as (H1 & _ & H3).
  - vm_compute in E. injection E as <-. intros Hc. vm_compute in Hc.
    discriminate Hc.
  - split; [exact H1|exact H3].
Defined.

(** C3 fails as it is stated, for every resolved index: the server of
    version 2.1 takes the rows of a companion document as they are
    written.  The table with the rows [b 10-20], [a 1-15], [c 9-4] gives
    an index that is not in ascending order, has a section that ends before
    it starts, and has line 12 in two sections. *)
Lemma C3_companion_rows_unordered :
  exists index,
    Server21.generateIndex (lit "a.ts") Sample.with_companion = Return index
    /\ Server21.source index = lit "markdown"
    /\ map server_span (Server21.sections index)
       = [(10, 20); (1, 15); (9, 4)]%Z
    /\ ~ ascending (map server_span (Server21.sections index))
    /\ ~ well_formed (map server_span (Server21.sections index))
    /\ ~ disjoint (map server_span (Server21.sections index)).
Proof.
  destruct (Server21.generateIndex (lit "a.ts") Sample.with_companion)
    as [index|] eqn:E; [|vm_compute in E; discriminate].
  exists index. split; [reflexivity|].
  assert (Hs : Server21.source index = lit "markdown"
               /\ map server_span (Server21.sections index)
                  = [(10, 20); (1, 15); (9, 4)]%Z).
  { vm_compute in E. injection E as <-. split; vm_compute; reflexivity. }
  destruct Hs as [Hs Hspans]. split; [exact Hs|]. split; [exact Hspans|].
  rewrite Hspans. split; [|split].
  - intros H. inversion H as [|a l _ Hall]; subst.
    inversion Hall as [|b l' Hle _]; subst. cbn [fst] in Hle. lia.
  - intros H. inversion H as [|a l _ Hrest]; subst.
    inversion Hrest as [|b l' _ Hrest']; subst.
    inversion Hrest' as [|c l'' Hle _]; subst. cbn [fst snd] in Hle. lia.
  - intros H. inversion H as [|a l Hall _]; subst.
    inversion Hall as [|b l' Hab _]; subst.
    apply (Hab 12%Z). unfold covers. cbn [fst snd]. lia.
Qed.

(** C2.  Every file that is read resolves to at least one section, and
    when the scanners find nothing the only section is [main], from line 1
    to the last line.  (The library, the tool and the server of
    [src/mcp-server.mjs] consult no companion document; the server of
    version 2.1, which does, ends in the same fallback, see
    [server21_generateIndex].) *)
Theorem C2_resolved_sections_never_empty :
  forall (filePath content : str) (fs : FS),
    fs filePath = Some content ->
    let lines := split_nl content in
    let n := Z.of_nat (length lines) in
    (exists index,
        Server.generateIndex filePath fs = Return index
        /\ Server.totalLines index = n
        /\ Server.sections index <> []
        /\ (Server.detectSectionsExplicit lines (Server.detectLanguage filePath) = [] ->
            Server.detectSectionsAuto lines (Server.detectLanguage filePath) = [] ->
            Server.sections index = [server_main n]))
    /\ (forall plugin,
           Cli.resolve content plugin <> []
           /\ (Cli.findExplicitSections content (Some plugin) = [] ->
               Cli.detectSectionsAuto content (Some plugin) = [] ->
               Cli.resolve content plugin = [main_section n]))
    /\ (forall plugin,
           Lib.resolve content plugin <> []
           /\ (Lib.findSections content (Some plugin) = [] ->
               Lib.resolve content plugin = [main_section n])).
Proof.
  intros filePath content fs Hread lines n. split; [|split].
  - unfold Server.generateIndex, readFile. rewrite Hread.
    eexists. split; [reflexivity|]. cbn [Server.totalLines Server.sections].
    fold lines. split; [reflexivity|]. unfold Server.resolve.
    destruct (Server.detectSectionsExplicit lines _) eqn:He.
    + destruct (Server.detectSectionsAuto lines _) eqn:Ha.
      * split; [discriminate|]. intros _ _. reflexivity.
      * split; [discriminate|]. intros _ Hx. discriminate Hx.
    + split; [discriminate|]. intros Hx. discriminate Hx.
  - intros plugin. unfold Cli.resolve. fold lines. fold n.
    destruct (Cli.findExplicitSections content _) eqn:He.
    + destruct (Cli.detectSectionsAuto content _) eqn:Ha.
      * split; [discriminate|]. intros _ _. reflexivity.
      * split; [discriminate|]. intros _ Hx. discriminate Hx.
    + split; [discriminate|]. intros Hx. discriminate Hx.
  - intros plugin. unfold Lib.resolve. fold lines. fold n.
    destruct (Lib.findSections content _) eqn:He.
    + split; [discriminate|]. intros _. reflexivity.
    + split; [discriminate|]. intros Hx. discriminate Hx.
Qed.

Lemma C2_witness :
  exists index,
    Server.generateIndex (lit "notes.txt") Sample.notes = Return index
    /\ Server.sections index = [server_main 1].
Proof.
  destruct (C2_resolved_sections_never_empty
              (lit "notes.txt") (lit "hello") Sample.notes eq_refl)
    as [(index & Hret & _ & _ & Hmain) _].
  exists index. split; [exact Hret|].
  apply Hmain; vm_compute; reflexivity.
Defined.

(** ** Which scanner supplies the sections *)

(** C5 (as amended).  In the tool and in the server the sections are those
    of the explicit scanner when it finds any, otherwise those of
    auto-detection when it finds any, otherwise the section [main]; the
    library has no auto-detection and goes from the explicit scanner
    straight to [main]. *)
Theorem C5_auto_detection_after_explicit :
  forall content : str,
    let n := Z.of_nat (length (split_nl content)) in
    (forall plugin,
        let explicit := Cli.findExplicitSections content (Some plugin) in
        let auto := Cli.detectSectionsAuto content (Some plugin) in
        (explicit <> [] -> Cli.resolve content plugin = explicit)
        /\ (explicit = [] -> auto <> [] -> Cli.resolve content plugin = auto)
        /\ (explicit = [] -> auto = [] ->
            Cli.resolve content plugin = [main_section n]))
    /\ (forall cfg,
           let explicit := Server.detectSectionsExplicit (split_nl content) cfg in
           let auto := Server.detectSectionsAuto (split_nl content) cfg in
           (explicit <> [] -> Server.resolve (split_nl content) cfg = explicit)
           /\ (explicit = [] -> auto <> [] ->
               Server.resolve (split_nl content) cfg = auto)
           /\ (explicit = [] -> auto = [] ->
               Server.resolve (split_nl content) cfg = [server_main n]))
    /\ (forall plugin,
           let explicit := Lib.findSections content (Some plugin) in
           (explicit <> [] -> Lib.resolve content plugin = explicit)
           /\ (explicit = [] -> Lib.resolve content plugin = [main_section n])).
Proof.
  intros content n. split; [|split].
  - intros plugin explicit auto. unfold Cli.resolve. fold explicit auto n.
    destruct explicit, auto; repeat split; intros; congruence.
  - intros cfg explicit auto. unfold Server.resolve. fold explicit auto n.
    destruct explicit, auto; repeat split; intros; congruence.
  - intros plugin explicit. unfold Lib.resolve. fold explicit n.
    destruct explicit; repeat split; intros; congruence.
Qed.

Lemma C5_witness :
  exists plugin sections,
    Cli.getLanguagePlugin (lit "a.ts") = Some plugin
    /\ Cli.detectSectionsAuto Sample.imports_ts (Some plugin) = sections
    /\ sections <> []
    /\ Cli.resolve Sample.imports_ts plugin = sections.
Proof.
  eexists. eexists. split; [vm_compute; reflexivity|].
  split; [reflexivity|]. split; [vm_compute; discriminate|].
  apply (C5_auto_detection_after_explicit Sample.imports_ts).
  - vm_compute. reflexivity.
  - vm_compute. discriminate.
Defined.

(** The library resolves a file without markers to [main] although the
    tool's auto-detection finds a section in it. *)
Lemma C5_library_skips_auto_detection :
  exists plugin cli_plugin,
    Lib.getLanguagePlugin (lit "a.ts") = Some plugin
    /\ Cli.getLanguagePlugin (lit "a.ts") = Some cli_plugin
    /\ Lib.findSections Sample.imports_ts (Some plugin) = []
    /\ Cli.detectSectionsAuto Sample.imports_ts (Some cli_plugin)
       = [mkSection (lit "imports") 1 3 None]
    /\ Lib.resolve Sample.imports_ts plugin = [main_section 3].
Proof.
  eexists. eexists. split; [vm_compute; reflexivity|].
  split; [vm_compute; reflexivity|].
  repeat split; vm_compute; reflexivity.
Qed.

(** ** The end of the last auto-detected section *)

(** C6 (the defect).  On a file of three lines whose first line alone
    matches a rule, the server's scanner ends the section at line 1, the
    last matching line, not at the last line of the file. *)
Theorem C6_server_last_section_ends_at_last_match :
  length (split_nl Sample.imports_ts) = 3
  /\ Server.detectSectionsAuto (split_nl Sample.imports_ts)
                               (Server.detectLanguage (lit "a.ts"))
     = [Server.mkSection (lit "imports") (lit "Import statements") 1 1 1].
Proof. split; vm_compute; reflexivity. Qed.

(** The tool's scanner does close the open section at the last line. *)
Lemma cli_auto_closes_at_last_line :
  forall (content : str) (plugin : option Plugin),
    let lines := split_nl content in
    let rules := match plugin with
                 | Some p => match autoPatterns p with Some l => l | None => [] end
                 | None => []
                 end in
    forall sections current start,
      Cli.groupLoop (Cli.detect rules lines 1) lines 1 ([], None, 0%Z)
      = (sections, current, start) ->
      truthy current = true ->
      Cli.detectSectionsAuto content plugin
      = sections ++ [mkSection (orEmpty current) start
                               (Z.of_nat (length lines)) None].
Proof.
  intros content plugin lines rules sections current start Hloop Hopen.
  unfold Cli.detectSectionsAuto. fold lines rules. rewrite Hloop, Hopen.
  reflexivity.
Qed.

(** ** Unsupported languages *)

Lemma find_none_ext (A : Type) (ext_of : A -> list str) (ext : str) (l : list A) :
  find (fun p => existsb (eqs ext) (ext_of p)) l = None
  <-> forallb (fun e => negb (existsb (eqs ext) e)) (map ext_of l) = true.
Proof.
  induction l as [|a t IH]; simpl; [tauto|].
  destruct (existsb (eqs ext) (ext_of a)); simpl; [split; discriminate|exact IH].
Qed.

Lemma same_registry filePath :
  Lib.getLanguagePlugin filePath = None <-> Cli.getLanguagePlugin filePath = None.
Proof.
  unfold Lib.getLanguagePlugin, Cli.getLanguagePlugin.
  rewrite !find_none_ext.
  replace (map extensions Cli.LANGUAGE_PLUGINS)
    with (map extensions Lib.LANGUAGE_PLUGINS) by (vm_compute; reflexivity).
  tauto.
Qed.

(** The library throws on a file of an unregistered language. *)
Lemma C9_library_throws :
  Lib.getLanguagePlugin (lit "notes.txt") = None
  /\ Lib.indexFile Sample.now (lit "notes.txt") Sample.notes
     = Throw (lit "Unsupported file type: notes.txt").
Proof. split; vm_compute; reflexivity. Qed.

(** C9 (as amended).  For a readable file whose extension is in no
    registry entry, the tool's [indexFile] returns a skip result (reason
    [unsupported], or [below-threshold] when the line threshold applies)
    and leaves the files as they are, and the library's [indexFile] throws
    [Unsupported file type]. *)
Theorem C9_unsupported_language :
  forall (now filePath content : str) (options : Cli.Options) (fs : FS),
    fs filePath = Some content ->
    Cli.getLanguagePlugin filePath = None ->
    let n := Z.of_nat (length (split_nl content)) in
    let below := match Cli.minLines options with
                 | Some m => negb (m =? 0)%Z && (n <? m)%Z
                 | None => false
                 end in
    Cli.indexFile now filePath options fs
    = Return (Cli.Skipped (if below then lit "below-threshold"
                           else lit "unsupported"), fs)
    /\ Lib.indexFile now filePath fs
       = Throw (lit "Unsupported file type: " ++ filePath).
Proof.
  intros now filePath content options fs Hread Hnone n below. split.
  - unfold Cli.indexFile, readFile. rewrite Hread. fold n. fold below.
    destruct below; [reflexivity|]. rewrite Hnone. reflexivity.
  - apply same_registry in Hnone.
    unfold Lib.indexFile, readFile. rewrite Hread, Hnone. reflexivity.
Qed.

Lemma C9_witness :
  Cli.indexFile Sample.now (lit "notes.txt") (Cli.mkOptions None) Sample.notes
  = Return (Cli.Skipped (lit "unsupported"), Sample.notes)
  /\ Lib.indexFile Sample.now (lit "notes.txt") Sample.notes
     = Throw (lit "Unsupported file type: " ++ lit "notes.txt").
Proof.
  apply (C9_unsupported_language Sample.now (lit "notes.txt") (lit "hello")
           (Cli.mkOptions None) Sample.notes).
  - reflexivity.
  - vm_compute. reflexivity.
Defined.

(** ** The size of a parsed row *)

(** C10 (the defect).  A row without the Size column, for lines 10 to 20,
    is parsed with size 10, which is [end - start], not [end - start + 1]. *)
Theorem C10_size_without_size_column :
  option_map (fun p => lookup (lit "foo") (sections p))
             (Lib.parseIndex Sample.block_without_size)
  = Some (Stored (mkEntry 10 20 10 [])).
Proof. vm_compute. reflexivity. Qed.

(** ** Reading a section *)

Lemma eqs_true a b : eqs a b = true <-> a = b.
Proof. unfold eqs. destruct (str_eq_dec a b); split; congruence. Qed.

Lemma eqs_refl a : eqs a a = true.
Proof. apply eqs_true. reflexivity. Qed.

(** Writing a file *)

Lemma writeFile_inv path data fs fs' :
  writeFile path data fs = Return fs' ->
  readOnly fs path = false /\ fs' = withFile path data fs.
Proof.
  unfold writeFile. destruct (readOnly fs path); [discriminate|].
  intros H. injection H as <-. split; reflexivity.
Qed.

Lemma withFile_same path data fs : withFile path data fs path = Some data.
Proof. unfold withFile. cbn [textOf]. rewrite eqs_refl. reflexivity. Qed.

Lemma withFile_other path data fs p :
  p <> path -> withFile path data fs p = fs p.
Proof.
  intros Hne. unfold withFile. cbn [textOf].
  destruct (eqs p path) eqn:He; [|reflexivity].
  apply eqs_true in He. contradiction.
Qed.

Lemma firstn_skipn_seq (A : Type) (d : A) (l : list A) : forall k m,
  k + m <= length l ->
  firstn m (skipn k l) = map (fun i => nth i l d) (seq k m).
Proof.
  induction l as [|x t IH]; intros k m H.
  - simpl in H. assert (k = 0) by lia. assert (m = 0) by lia. subst. reflexivity.
  - destruct k as [|k].
    + destruct m as [|m]; [reflexivity|]. simpl. f_equal.
      specialize (IH 0 m). simpl in IH. rewrite IH by (simpl in H; lia).
      rewrite <- seq_shift, map_map. reflexivity.
    + simpl skipn. rewrite IH by (simpl in H; lia).
      rewrite <- seq_shift, map_map. reflexivity.
Qed.

Lemma slice_array_lines (lines : list str) a b :
  (1 <= a)%Z -> (a <= b)%Z -> (b <= Z.of_nat (length lines))%Z ->
  Server.slice_array (a - 1) b lines = lines_numbered a b lines.
Proof.
  intros Ha Hab Hb. unfold Server.slice_array, lines_numbered.
  replace (a - 1 <? 0)%Z with false by (symmetry; apply Z.ltb_ge; lia).
  replace (b <? 0)%Z with false by (symmetry; apply Z.ltb_ge; lia).
  rewrite !Z.min_l by lia.
  replace (b - (a - 1))%Z with (b - a + 1)%Z by lia.
  apply firstn_skipn_seq. lia.
Qed.

(** C8.  [readSection] answers a name that no section of the resolved
    index has with the error and the names of all sections; for a name
    that a section has, it returns that name with the start, the end and
    the text of the lines start to end of the first section so named. *)
Theorem C8_readSection :
  forall (filePath sectionName content : str) (fs : FS),
    fs filePath = Some content ->
    let lines := split_nl content in
    let sections := Server.resolve lines (Server.detectLanguage filePath) in
    ((forall s, In s sections -> Server.name s <> sectionName) ->
     Server.readSection filePath sectionName fs
     = Return (Server.NotFound
                 (lit "Section " ++ dq ++ sectionName ++ dq ++ lit " not found")
                 (map Server.name sections)))
    /\ (forall s, In s sections -> Server.name s = sectionName ->
        exists s',
          find (fun x => eqs (Server.name x) sectionName) sections = Some s'
          /\ In s' sections
          /\ Server.name s' = sectionName
          /\ Server.readSection filePath sectionName fs
             = Return (Server.Found sectionName (Server.line s') (Server.end_ s')
                         (join_nl (lines_numbered (Server.line s') (Server.end_ s')
                                                  lines)))).
Proof.
  intros filePath sectionName content fs Hread lines sections.
  assert (Hrs : Server.readSection filePath sectionName fs
                = match find (fun s => eqs (Server.name s) sectionName) sections with
                  | None =>
                      Return (Server.NotFound
                                (lit "Section " ++ dq ++ sectionName ++ dq
                                 ++ lit " not found")
                                (map Server.name sections))
                  | Some section =>
                      Return (Server.Found (Server.name section)
                                (Server.line section) (Server.end_ section)
                                (join_nl (Server.slice_array
                                            (Server.line section - 1)
                                            (Server.end_ section) lines)))
                  end).
  { unfold Server.readSection, Server.generateIndex, readFile.
    rewrite Hread. reflexivity. }
  split.
  - intros Hnone. rewrite Hrs.
    destruct (find _ sections) as [s|] eqn:Hf; [|reflexivity].
    apply find_some in Hf. destruct Hf as [Hin Heq].
    apply eqs_true in Heq. exfalso. exact (Hnone s Hin Heq).
  - intros s Hin Hname.
    destruct (find (fun x => eqs (Server.name x) sectionName) sections)
      as [s'|] eqn:Hf.
    + pose proof (find_some _ _ Hf) as [Hin' Heq]. apply eqs_true in Heq.
      exists s'. repeat split; auto. rewrite Hrs, Heq.
      pose proof (server_resolve_chain lines (Server.detectLanguage filePath)
                    (split_nl_nonempty content)) as Hc.
      assert (Hs : In (server_span s') (map server_span sections))
        by (apply in_map; exact Hin').
      pose proof (chain_within _ _ _ _ Hc Hs) as Hb. simpl in Hb.
      rewrite slice_array_lines by lia. reflexivity.
    + exfalso. pose proof (find_none _ _ Hf s Hin) as Hx. simpl in Hx.
      rewrite Hname, eqs_refl in Hx. discriminate.
Qed.

Lemma C8_witness :
  Server.readSection (lit "notes.txt") (lit "missing") Sample.notes
  = Return (Server.NotFound (lit "Section " ++ dq ++ lit "missing" ++ dq
                             ++ lit " not found")
                            [lit "main"])
  /\ Server.readSection (lit "notes.txt") (lit "main") Sample.notes
     = Return (Server.Found (lit "main") 1 1 (lit "hello")).
Proof.
  pose proof (C8_readSection (lit "notes.txt") (lit "missing") (lit "hello")
                Sample.notes eq_refl) as [Hmiss _].
  pose proof (C8_readSection (lit "notes.txt") (lit "main") (lit "hello")
                Sample.notes eq_refl) as [_ Hhit].
  split.
  - apply Hmiss. intros s Hin. vm_compute in Hin.
    destruct Hin as [<-|[]]. vm_compute. discriminate.
  - destruct (Hhit (server_main 1)) as (s' & Hf & _ & _ & Hr).
    + vm_compute. left. reflexivity.
    + vm_compute. reflexivity.
    + vm_compute in Hf. injection Hf as <-. exact Hr.
Defined.

(** ** Verification of a stored index *)

Lemma rangeIssues_no_drift stored n nm a b :
  ~ In (Cli.LineDrift nm a b) (Cli.rangeIssues stored n).
Proof.
  unfold Cli.rangeIssues. intros H. apply in_flat_map in H.
  destruct H as (kv & _ & H).
  destruct ((e_line (snd kv) >? n)%Z || (e_end (snd kv) >? n)%Z);
    simpl in H; [destruct H as [H|[]]; discriminate|contradiction].
Qed.

Lemma driftIssues_drift stored explicit nm a b :
  In (Cli.LineDrift nm a b) (Cli.driftIssues stored explicit) ->
  exists indexed,
    lookup (name explicit) stored = Stored indexed
    /\ nm = name explicit /\ a = e_line indexed /\ b = line explicit
    /\ (Z.abs (e_line indexed - line explicit) > 5)%Z.
Proof.
  unfold Cli.driftIssues. destruct (lookup (name explicit) stored) as [v|[]|].
  - destruct (Z.abs (e_line v - line explicit) >? 5)%Z eqn:Hc; simpl;
      [|contradiction].
    intros [H|[]]. injection H as <- <- <-. exists v.
    repeat split; auto. apply Z.gtb_lt in Hc. lia.
  - simpl. contradiction.
  - simpl. intros [H|[]]. discriminate.
  - simpl. intros [H|[]]. discriminate.
Qed.

(** C4.  For a section found by the explicit scanner whose name the stored
    block has, [verifyIndex] reports a line drift exactly when the stored
    start and the recomputed start differ by more than 5. *)
Theorem C4_line_drift_tolerance :
  forall (filePath content : str) (fs : FS) (existing : ParsedIndex)
         (explicit : Section) (indexed : IndexEntry),
    fs filePath = Some content ->
    Cli.parseExistingIndex content = Some existing ->
    In explicit (Cli.findExplicitSections content (Cli.getLanguagePlugin filePath)) ->
    lookup (name explicit) (sections existing) = Stored indexed ->
    (exists errors,
        Cli.verifyIndex filePath fs = Return (Cli.Invalid errors)
        /\ In (Cli.LineDrift (name explicit) (e_line indexed) (line explicit)) errors)
    <-> (Z.abs (e_line indexed - line explicit) > 5)%Z.
Proof.
  intros filePath content fs existing explicit indexed Hread Hparse Hin Hlook.
  assert (Hv : Cli.verifyIndex filePath fs
               = match Cli.issues content (Cli.getLanguagePlugin filePath) existing with
                 | [] => Return Cli.Valid
                 | errors => Return (Cli.Invalid errors)
                 end).
  { unfold Cli.verifyIndex, readFile. rewrite Hread, Hparse. reflexivity. }
  set (drift := Cli.LineDrift (name explicit) (e_line indexed) (line explicit)).
  assert (Hiff : In drift (Cli.issues content (Cli.getLanguagePlugin filePath) existing)
                 <-> (Z.abs (e_line indexed - line explicit) > 5)%Z).
  { unfold Cli.issues. rewrite in_app_iff, in_flat_map. split.
    - intros [H|(e' & _ & H)].
      + exfalso. exact (rangeIssues_no_drift _ _ _ _ _ H).
      + apply driftIssues_drift in H.
        destruct H as (v & Hl & Hn & Ha & Hb & Hgt).
        rewrite <- Hn, Hlook in Hl. injection Hl as <-. rewrite <- Hb in Hgt.
        exact Hgt.
    - intros Hgt. right. exists explicit. split; [exact Hin|].
      unfold Cli.driftIssues. rewrite Hlook.
      replace (Z.abs (e_line indexed - line explicit) >? 5)%Z with true
        by (symmetry; apply Z.gtb_lt; lia).
      left. reflexivity. }
  rewrite <- Hiff. rewrite Hv. split.
  - intros (errors & Hret & Hd).
    destruct (Cli.issues content _ existing); [discriminate|].
    injection Hret as <-. exact Hd.
  - intros Hd. destruct (Cli.issues content _ existing) as [|i l] eqn:Hi;
      [contradiction|].
    exists (i :: l). split; [reflexivity|exact Hd].
Qed.

(** A stored start that is 5 lines off leaves the file valid; 6 lines off
    is reported. *)
Lemma verify_off_by_five :
  Cli.verifyIndex (lit "a.ts") (Sample.single (lit "a.ts") (Sample.drifted "6"))
  = Return Cli.Valid.
Proof. vm_compute. reflexivity. Qed.

Lemma verify_off_by_six :
  Cli.verifyIndex (lit "a.ts") (Sample.single (lit "a.ts") (Sample.drifted "5"))
  = Return (Cli.Invalid [Cli.LineDrift (lit "imports") 5 11]).
Proof. vm_compute. reflexivity. Qed.

Lemma C4_witness :
  (exists errors,
      Cli.verifyIndex (lit "a.ts") (Sample.single (lit "a.ts") (Sample.drifted "5"))
      = Return (Cli.Invalid errors)
      /\ In (Cli.LineDrift (lit "imports") 5 11) errors)
  /\ ~ (exists errors,
           Cli.verifyIndex (lit "a.ts")
                           (Sample.single (lit "a.ts") (Sample.drifted "6"))
           = Return (Cli.Invalid errors)
           /\ In (Cli.LineDrift (lit "imports") 6 11) errors).
Proof.
  split.
  - destruct (Lib.parseIndex (Sample.drifted "5")) as [existing|] eqn:Hp;
      [|vm_compute in Hp; discriminate].
    apply (C4_line_drift_tolerance (lit "a.ts") (Sample.drifted "5")
             (Sample.single (lit "a.ts") (Sample.drifted "5")) existing
             (mkSection (lit "imports") 11 13 (Some [])) (mkEntry 5 13 8 [])).
    + reflexivity.
    + exact Hp.
    + vm_compute. left. reflexivity.
    + vm_compute in Hp. injection Hp as <-. vm_compute. reflexivity.
    + vm_compute. reflexivity.
  - destruct (Lib.parseIndex (Sample.drifted "6")) as [existing|] eqn:Hp;
      [|vm_compute in Hp; discriminate].
    intros H.
    apply (C4_line_drift_tolerance (lit "a.ts") (Sample.drifted "6")
             (Sample.single (lit "a.ts") (Sample.drifted "6")) existing
             (mkSection (lit "imports") 11 13 (Some [])) (mkEntry 6 13 7 [])) in H.
    + vm_compute in H. discriminate.
    + reflexivity.
    + exact Hp.
    + vm_compute. left. reflexivity.
    + vm_compute in Hp. injection Hp as <-. vm_compute. reflexivity.
Defined.

(** ** Replacing a stored block *)

(** A match is a piece of the subject: what precedes it has the length of
    its index. *)
Lemma search_span fl r : forall l p pv m (pre : str),
  search fl r p pv l = Some m -> length pre = p ->
  exists after,
    pre ++ l = firstn (index m) (pre ++ l) ++ matched m ++ after
    /\ after = skipn (index m + length (matched m)) (pre ++ l)
    /\ index m <= length (pre ++ l).
Proof.
  induction l as [|c t IH]; intros p pv m pre Hs Hp.
  - simpl in Hs. destruct (run fl r _) as [|st' ?]; [discriminate|].
    injection Hs as <-. simpl. rewrite firstn_nil, !app_nil_r.
    subst p. rewrite firstn_all, Nat.add_0_r, skipn_all.
    exists []. rewrite app_nil_r. repeat split; auto.
  - simpl in Hs. destruct (run fl r _) as [|st' ?].
    + specialize (IH (S p) (Some c) m (pre ++ [c]) Hs).
      rewrite <- app_assoc in IH. simpl in IH. apply IH.
      rewrite length_app. simpl. lia.
    + injection Hs as <-. cbn [index matched]. subst p.
      exists (skipn (length pre + length (firstn (pos st' - length pre) (c :: t)))
                    (pre ++ c :: t)).
      split; [|split; [reflexivity|rewrite length_app; lia]].
      rewrite firstn_app, firstn_all, Nat.sub_diag. simpl firstn at 1.
      rewrite app_nil_r. f_equal.
      rewrite skipn_app.
      replace (length pre + length (firstn (pos st' - length pre) (c :: t)) - length pre)
        with (length (firstn (pos st' - length pre) (c :: t))) by lia.
      rewrite skipn_all2 by lia. simpl app at 2.
      set (k := pos st' - length pre).
      destruct (Nat.le_gt_cases k (length (c :: t))) as [Hk|Hk].
      * rewrite length_firstn, Nat.min_l by exact Hk.
        symmetry. apply firstn_skipn.
      * rewrite firstn_all2 by lia. rewrite skipn_all, app_nil_r. reflexivity.
Qed.

Lemma parseIndex_span content existing :
  Lib.parseIndex content = Some existing ->
  content = slice 0 (startIndex existing) content ++ raw existing
            ++ sliceFrom (endIndex existing) content
  /\ length (slice 0 (startIndex existing) content) = startIndex existing
  /\ endIndex existing = startIndex existing + length (raw existing).
Proof.
  unfold Lib.parseIndex, exec.
  destruct (search _ _ 0 None content) as [m|] eqn:Hs; [|discriminate].
  intros H. injection H as <-. cbn [startIndex endIndex raw].
  destruct (search_span _ _ _ _ _ _ [] Hs eq_refl) as (after & H1 & H2 & H3).
  simpl in H1, H2, H3. unfold slice, sliceFrom. simpl skipn. rewrite Nat.sub_0_r.
  rewrite <- H2. split; [exact H1|]. split; [|reflexivity].
  rewrite length_firstn. lia.
Qed.

(** C7.  When the content of a file has an index block and [indexFile]
    generates a new one, the file is written with the text before the old
    block, the new block, and the text after the old block: the block keeps
    its offset and everything around it is as it was.  No other file
    changes. *)
Theorem C7_block_replaced_in_place :
  forall (now filePath content : str) (fs fs' : FS) (existing : ParsedIndex)
         (r : Lib.IndexResult),
    fs filePath = Some content ->
    Lib.parseIndex content = Some existing ->
    Lib.indexFile now filePath fs = Return (r, fs') ->
    exists before after plugin,
      content = before ++ raw existing ++ after
      /\ length before = startIndex existing
      /\ endIndex existing = startIndex existing + length (raw existing)
      /\ Lib.getLanguagePlugin filePath = Some plugin
      /\ fs' filePath
         = Some (before
                 ++ Lib.generateIndex now (Lib.resolve content plugin)
                      (Z.of_nat (length (split_nl content)))
                 ++ after)
      /\ (forall other, other <> filePath -> fs' other = fs other).
Proof.
  intros now filePath content fs fs' existing r Hread Hparse Hrun.
  unfold Lib.indexFile, readFile in Hrun. rewrite Hread in Hrun.
  destruct (Lib.getLanguagePlugin filePath) as [plugin|]; [|discriminate].
  rewrite Hparse in Hrun.
  destruct (writeFile filePath _ fs) as [fs1|] eqn:Hw; [|discriminate].
  injection Hrun as _ <-. apply writeFile_inv in Hw. destruct Hw as [_ ->].
  destruct (parseIndex_span _ _ Hparse) as (H1 & H2 & H3).
  exists (slice 0 (startIndex existing) content),
         (sliceFrom (endIndex existing) content), plugin.
  repeat split; auto.
  - apply withFile_same.
  - intros other Hne. apply withFile_other. exact Hne.
Qed.

(** The tool replaces the block in the same way. *)
Lemma cli_block_replaced_in_place :
  forall (now filePath content : str) (options : Cli.Options) (fs fs' : FS)
         (existing : ParsedIndex) (n : nat) (total : Z) (action : str),
    fs filePath = Some content ->
    Cli.parseExistingIndex content = Some existing ->
    Cli.indexFile now filePath options fs
    = Return (Cli.Success n total action, fs') ->
    exists before after block,
      content = before ++ raw existing ++ after
      /\ length before = startIndex existing
      /\ fs' filePath = Some (before ++ block ++ after).
Proof.
  intros now filePath content options fs fs' existing n total action
         Hread Hparse Hrun.
  unfold Cli.indexFile, readFile in Hrun. rewrite Hread in Hrun.
  destruct (match Cli.minLines options with Some _ => _ | None => _ end);
    [discriminate|].
  destruct (Cli.getLanguagePlugin filePath) as [plugin|]; [|discriminate].
  destruct (Cli.describeAll _) as [sections|]; [|discriminate].
  rewrite Hparse in Hrun.
  destruct (writeFile filePath _ fs) as [fs1|] eqn:Hw; [|discriminate].
  injection Hrun as _ _ _ <-. apply writeFile_inv in Hw. destruct Hw as [_ ->].
  destruct (parseIndex_span _ _ Hparse) as (H1 & H2 & H3).
  exists (slice 0 (startIndex existing) content),
         (sliceFrom (endIndex existing) content),
         (Cli.generateIndexBlock now sections (Z.of_nat (length (split_nl content)))).
  repeat split; auto.
  apply withFile_same.
Qed.

Lemma C7_witness :
  exists (r : Lib.IndexResult) (fs' : FS) (before after block : str),
    Lib.indexFile Sample.now (lit "a.ts")
                  (Sample.single (lit "a.ts") (Sample.drifted "6"))
    = Return (r, fs')
    /\ length before = 0
    /\ fs' (lit "a.ts") = Some (before ++ block ++ after).
Proof.
  set (fs := Sample.single (lit "a.ts") (Sample.drifted "6")).
  destruct (Lib.parseIndex (Sample.drifted "6")) as [existing|] eqn:Hp;
    [|vm_compute in Hp; discriminate].
  destruct (Lib.indexFile Sample.now (lit "a.ts") fs) as [[r fs']|e] eqn:Hrun;
    [|vm_compute in Hrun; discriminate].
  destruct (C7_block_replaced_in_place Sample.now (lit "a.ts")
              (Sample.drifted "6") fs fs' existing r eq_refl Hp Hrun)
    as (before & after & plugin & _ & Hlen & _ & _ & Hw & _).
  exists r, fs', before, after. eexists.
  split; [reflexivity|]. split; [|exact Hw].
  rewrite Hlen. vm_compute in Hp. injection Hp as <-. reflexivity.
Defined.

(** ** White space, digits *)

Lemma trimStart_length l : length (trimStart l) <= length l.
Proof.
  induction l as [|c t IH]; simpl; [lia|]. destruct (isSpace c); simpl; lia.
Qed.

Lemma trimStart_spaces sp l :
  forallb isSpace sp = true -> trimStart (sp ++ l) = trimStart l.
Proof.
  induction sp as [|c t IH]; simpl; [reflexivity|].
  intros H. apply andb_prop in H. destruct H as [Hc Ht]. rewrite Hc. auto.
Qed.

Lemma trimStart_id c t : isSpace c = false -> trimStart (c :: t) = c :: t.
Proof. intros H. simpl. rewrite H. reflexivity. Qed.

Lemma trimEnd_length l : length (trimEnd l) <= length l.
Proof.
  unfold trimEnd. rewrite length_rev.
  pose proof (trimStart_length (rev l)) as H. rewrite length_rev in H. exact H.
Qed.

(** A string equal to its [trim] starts and ends with no white space. *)
Lemma trimmed_head c t : trim (c :: t) = c :: t -> isSpace c = false.
Proof.
  intros H. destruct (isSpace c) eqn:Hc; [|reflexivity]. exfalso.
  assert (Hl : length (trim (c :: t)) <= length t).
  { unfold trim. etransitivity; [apply trimEnd_length|].
    simpl. rewrite Hc. apply trimStart_length. }
  rewrite H in Hl. simpl in Hl. lia.
Qed.

Lemma trimmed_start s : trim s = s -> trimStart s = s.
Proof.
  destruct s as [|c t]; [reflexivity|]. intros H.
  apply trimStart_id. eapply trimmed_head; eauto.
Qed.

Lemma trimmed_end s : trim s = s -> trimEnd s = s.
Proof.
  intros H. pose proof (trimmed_start s H) as Hs.
  unfold trim in H. rewrite Hs in H. exact H.
Qed.

Lemma trimmed_rev_head s c t :
  trim s = s -> rev s = c :: t -> isSpace c = false.
Proof.
  intros H Hr. apply trimmed_end in H. unfold trimEnd in H.
  destruct (isSpace c) eqn:Hc; [|reflexivity]. exfalso.
  rewrite Hr in H. simpl in H. rewrite Hc in H.
  assert (Hl : length (rev (trimStart t)) = length s) by (rewrite H; reflexivity).
  rewrite length_rev in Hl. pose proof (trimStart_length t).
  assert (length s = S (length t)).
  { rewrite <- (length_rev s), Hr. reflexivity. }
  lia.
Qed.

Lemma forallb_rev_true (f : char -> bool) l :
  forallb f l = true -> forallb f (rev l) = true.
Proof.
  rewrite !forallb_forall. intros H x Hx. apply H, in_rev. exact Hx.
Qed.

(** White space around a trimmed, non-empty string is what [trim] removes. *)
Lemma trim_sandwich sp x sp' :
  forallb isSpace sp = true -> forallb isSpace sp' = true ->
  trim x = x -> x <> [] ->
  trim (sp ++ x ++ sp') = x.
Proof.
  intros Hsp Hsp' Hx Hne. unfold trim.
  rewrite trimStart_spaces by exact Hsp.
  destruct x as [|c t]; [contradiction|].
  simpl app. rewrite trimStart_id by (eapply trimmed_head; eauto).
  change (c :: t ++ sp') with ((c :: t) ++ sp').
  unfold trimEnd. rewrite rev_app_distr.
  rewrite trimStart_spaces by (apply forallb_rev_true; exact Hsp').
  destruct (rev (c :: t)) as [|d r] eqn:Hr.
  - apply (f_equal (@length _)) in Hr. rewrite length_rev in Hr. discriminate.
  - rewrite trimStart_id by (eapply trimmed_rev_head; eauto).
    rewrite <- Hr. apply rev_involutive.
Qed.




(** ** Decimal numerals *)

Lemma digits_fuel_acc f : forall n acc,
  digits_fuel f n acc = digits_fuel f n [] ++ acc.
Proof.
  induction f as [|f IH]; intros n acc; simpl; [reflexivity|].
  destruct (n <? 10)%N; [reflexivity|].
  rewrite (IH _ (_ :: acc)), (IH _ [_]). rewrite <- app_assoc. reflexivity.
Qed.

Lemma value_app a b :
  value (a ++ b)
  = fold_left (fun x c => (x * 10 + (c - 48))%N) b (value a).
Proof. unfold value. apply fold_left_app. Qed.

Lemma digits_fuel_S f n acc :
  digits_fuel (S f) n acc
  = if (n <? 10)%N then (48 + n mod 10)%N :: acc
    else digits_fuel f (n / 10)%N ((48 + n mod 10)%N :: acc).
Proof. reflexivity. Qed.

Lemma digit_of_mod n : isDigit (48 + n mod 10)%N = true.
Proof.
  unfold isDigit.
  assert (H : (n mod 10 < 10)%N) by (apply N.mod_upper_bound; lia).
  generalize dependent (n mod 10)%N. intros m H.
  apply andb_true_intro. split; apply N.leb_le; lia.
Qed.

Lemma digits_fuel_spec f : forall n,
  (n < 2 ^ N.of_nat (S f))%N ->
  value (digits_fuel (S f) n []) = n
  /\ forallb isDigit (digits_fuel (S f) n []) = true
  /\ digits_fuel (S f) n [] <> [].
Proof.
  induction f as [|f IH]; intros n Hn; rewrite digits_fuel_S.
  - assert (Hlt : (n < 10)%N).
    { change (N.of_nat 1) with 1%N in Hn. rewrite N.pow_1_r in Hn. lia. }
    pose proof (digit_of_mod n) as Hd.
    apply N.ltb_lt in Hlt. rewrite Hlt. apply N.ltb_lt in Hlt.
    rewrite N.mod_small in * by exact Hlt.
    repeat split; [unfold value; cbn [fold_left]; lia| |discriminate].
    cbn [forallb]. rewrite Hd. reflexivity.
  - pose proof (digit_of_mod n) as Hd.
    destruct (n <? 10)%N eqn:Hlt.
    + apply N.ltb_lt in Hlt. rewrite N.mod_small in * by exact Hlt.
      repeat split; [|cbn [forallb]; rewrite Hd; reflexivity|discriminate].
      unfold value. cbn [fold_left]. lia.
    + apply N.ltb_ge in Hlt.
      assert (Hq : (n / 10 < 2 ^ N.of_nat (S f))%N).
      { rewrite (Nat2N.inj_succ (S f)), N.pow_succ_r' in Hn.
        apply N.Div0.div_lt_upper_bound. lia. }
      destruct (IH _ Hq) as (Hv & Hall & Hne).
      rewrite digits_fuel_acc.
      repeat split.
      * rewrite value_app, Hv. cbn [fold_left].
        pose proof (N.div_mod n 10 ltac:(lia)) as Hdm. clear - Hdm.
        generalize dependent (n mod 10)%N. generalize dependent (n / 10)%N.
        intros q m Hdm. lia.
      * rewrite forallb_app, Hall. cbn [forallb andb]. rewrite Hd. reflexivity.
      * intros H. apply app_eq_nil in H. destruct H as [_ H]. discriminate.
Qed.

Lemma digits_spec n :
  value (digits n) = n /\ forallb isDigit (digits n) = true /\ digits n <> [].
Proof.
  unfold digits. apply digits_fuel_spec.
  destruct n as [|p]; [simpl; lia|].
  rewrite Nat2N.inj_succ, N2Nat.id.
  apply N.log2_spec. lia.
Qed.




(** ** The matcher *)

Lemma flat_map_nil (A B : Type) (f : A -> list B) (l : list A) :
  (forall x, In x l -> f x = []) -> flat_map f l = [].
Proof.
  induction l as [|a t IH]; intros H; simpl; [reflexivity|].
  rewrite (H a) by (left; reflexivity). simpl. apply IH.
  intros x Hx. apply H. right. exact Hx.
Qed.


Lemma prefix_len_app f w c t :
  forallb f w = true -> f c = false -> prefix_len f (w ++ c :: t) = length w.
Proof.
  induction w as [|x w IH]; simpl; intros Hw Hc.
  - rewrite Hc. reflexivity.
  - apply andb_prop in Hw. destruct Hw as [Hx Hw]. rewrite Hx. f_equal. auto.
Qed.

Lemma prefix_len_le f l : prefix_len f l <= length l.
Proof. induction l as [|c t IH]; simpl; [lia|]. destruct (f c); simpl; lia. Qed.

(** Below the longest prefix, the next code unit satisfies [f]. *)
Lemma prefix_len_next f l j :
  j < prefix_len f l -> exists c t, skipn j l = c :: t /\ f c = true.
Proof.
  revert j. induction l as [|x l IH]; simpl; intros j Hj; [lia|].
  destruct (f x) eqn:Hx; [|lia].
  destruct j as [|j]; [exists x, l; auto|]. simpl. apply IH. lia.
Qed.

Lemma st_after_0 st : st_after st 0 = st.
Proof.
  destruct st as [p pv l cs]. unfold st_after. simpl.
  rewrite Nat.add_0_r. reflexivity.
Qed.

Lemma rep_from_eq fl cs l : forall p pv caps0,
  rep_from fl cs p pv l caps0
  = map (st_after (mkst p pv l caps0)) (seq 0 (S (prefix_len (cmatch fl cs) l))).
Proof.
  induction l as [|c t IH]; intros p pv caps0.
  - simpl. unfold st_after. simpl. rewrite Nat.add_0_r. reflexivity.
  - cbn [rep_from prefix_len]. destruct (cmatch fl cs c).
    + rewrite IH.
      change (seq 0 (S (S (prefix_len (cmatch fl cs) t))))
        with (0 :: seq 1 (S (prefix_len (cmatch fl cs) t))).
      rewrite <- seq_shift, map_cons, map_map. f_equal.
      * unfold st_after. simpl. rewrite Nat.add_0_r. reflexivity.
      * apply map_ext. intros k.
        destruct k; unfold st_after; simpl; f_equal; lia.
    + simpl. unfold st_after. simpl. rewrite Nat.add_0_r. reflexivity.
Qed.

(** The candidates of a repetition: the lengths [n .. m], longest first
    when greedy. *)
Lemma run_rep fl g n cs st :
  run fl (Rep g n cs) st
  = let all := map (st_after st)
                   (seq n (S (prefix_len (cmatch fl cs) (rest st)) - n)) in
    if g then rev all else all.
Proof.
  cbn [run]. rewrite rep_from_eq.
  replace (mkst (pos st) (prev st) (rest st) (caps st)) with st
    by (destruct st; reflexivity).
  rewrite skipn_map, skipn_seq. reflexivity.
Qed.

Lemma in_run_rep fl g n cs st x :
  In x (run fl (Rep g n cs) st) ->
  exists j, x = st_after st j /\ n <= j <= prefix_len (cmatch fl cs) (rest st).
Proof.
  rewrite run_rep. cbv zeta. intros H.
  assert (H' : In x (map (st_after st)
                         (seq n (S (prefix_len (cmatch fl cs) (rest st)) - n)))).
  { destruct g; [apply in_rev; exact H|exact H]. }
  apply in_map_iff in H'. destruct H' as (j & <- & Hj).
  apply in_seq in Hj. exists j. split; [reflexivity|lia].
Qed.

(** A greedy repetition all of whose shorter candidates fail in [F] *)
Lemma rep_greedy_max fl n cs st (F : mstate -> list mstate) :
  let m := prefix_len (cmatch fl cs) (rest st) in
  (forall j, n <= j < m -> F (st_after st j) = []) ->
  flat_map F (run fl (Rep true n cs) st)
  = if n <=? m then F (st_after st m) else [].
Proof.
  intros m Hfail. rewrite run_rep. cbv zeta. fold m.
  destruct (n <=? m) eqn:Hnm.
  - apply Nat.leb_le in Hnm.
    replace (S m - n) with (S (m - n)) by lia.
    rewrite seq_S, map_app, rev_app_distr. cbn [map rev app flat_map].
    replace (n + (m - n)) with m by lia.
    rewrite flat_map_nil; [apply app_nil_r|].
    intros x Hx. apply in_rev, in_map_iff in Hx. destruct Hx as (j & <- & Hj).
    apply in_seq in Hj. apply Hfail. lia.
  - apply Nat.leb_gt in Hnm. replace (S m - n) with 0 by lia. reflexivity.
Qed.

(** The first candidate of a repetition that [F] accepts *)
Lemma rep_first fl (g : bool) n cs st (F : mstate -> list mstate) j0 :
  let m := prefix_len (cmatch fl cs) (rest st) in
  n <= j0 <= m ->
  (forall j, n <= j <= m -> (if g then j0 < j else j < j0) ->
             F (st_after st j) = []) ->
  exists more,
    flat_map F (run fl (Rep g n cs) st) = F (st_after st j0) ++ more.
Proof.
  intros m Hj0 Hfail. rewrite run_rep. cbv zeta. fold m.
  replace (S m - n) with ((j0 - n) + S (m - j0)) by lia.
  rewrite seq_app. replace (n + (j0 - n)) with j0 by lia.
  cbn [seq]. rewrite map_app. cbn [map].
  destruct g.
  - rewrite rev_app_distr. cbn [rev]. rewrite <- app_assoc. cbn [app].
    rewrite flat_map_app. cbn [flat_map].
    rewrite flat_map_nil.
    + eexists. reflexivity.
    + intros x Hx. apply in_rev, in_map_iff in Hx. destruct Hx as (j & <- & Hj).
      apply in_seq in Hj. apply Hfail; lia.
  - rewrite flat_map_app. cbn [flat_map].
    rewrite flat_map_nil.
    + eexists. reflexivity.
    + intros x Hx. apply in_map_iff in Hx. destruct Hx as (j & <- & Hj).
      apply in_seq in Hj. apply Hfail; lia.
Qed.






Lemma prefix_len_head f c t : f c = false -> prefix_len f (c :: t) = 0.
Proof. intros H. simpl. rewrite H. reflexivity. Qed.




(* ------------------------------------------------------------------ *)
(** * Further properties of the scanners                               *)
(* ------------------------------------------------------------------ *)

Lemma chain_length lo l hi :
  chain lo l hi -> (Z.of_nat (length l) <= hi - lo + 1)%Z.
Proof.
  revert lo. induction l as [|a t IH]; simpl; intros lo H; [lia|].
  destruct H as (H1 & H2 & H3). apply IH in H3. lia.
Qed.

Lemma chain_all_within l n : chain 1 l n -> Forall (within n) l.
Proof.
  intros H. apply Forall_forall. intros a Ha.
  pose proof (chain_within _ _ _ _ H Ha). unfold within. lia.
Qed.

(** X1.  Every section of a resolved index lies inside the file:
    1 <= start <= end <= number of lines; and an index has at most as many
    sections as the file has lines. *)
Theorem resolved_sections_within_file :
  forall content : str,
    let n := length (split_nl content) in
    (forall plugin,
        Forall (within (Z.of_nat n)) (map span_of (Lib.resolve content plugin))
        /\ length (Lib.resolve content plugin) <= n)
    /\ (forall plugin,
           Forall (within (Z.of_nat n)) (map span_of (Cli.resolve content plugin))
           /\ length (Cli.resolve content plugin) <= n)
    /\ (forall cfg,
           Forall (within (Z.of_nat n))
                  (map server_span (Server.resolve (split_nl content) cfg))
           /\ length (Server.resolve (split_nl content) cfg) <= n).
Proof.
  intros content n.
  assert (H : forall l, chain 1 l (Z.of_nat n) ->
                        Forall (within (Z.of_nat n)) l /\ length l <= n).
  { intros l Hc. split; [apply chain_all_within; exact Hc|].
    apply chain_length in Hc. lia. }
  split; [|split]; intros x.
  - rewrite <- (length_map span_of). apply H, lib_resolve_chain.
  - rewrite <- (length_map span_of). apply H, cli_resolve_chain.
  - rewrite <- (length_map server_span).
    apply H, server_resolve_chain, split_nl_nonempty.
Qed.

(** ** The size field of the server's sections *)

Lemma closeAt_sized c e : sized (Server.closeAt c e).
Proof. unfold sized. reflexivity. Qed.

Lemma Forall_snoc (A : Type) (P : A -> Prop) l x :
  Forall P l -> P x -> Forall P (l ++ [x]).
Proof. intros Hl Hx. apply Forall_app. split; [exact Hl|]. constructor; auto. Qed.

Lemma autoStep_sized rules i l st :
  server_sized st -> server_sized (Server.autoStep rules i l st).
Proof.
  destruct st as [sections cur]. unfold Server.autoStep, server_sized.
  cbn [fst snd]. intros [Hs Hc].
  destruct (find _ rules) as [r|]; [|split; assumption].
  assert (Hfresh : sized (Server.mkSection (Server.r_name r) (Server.r_desc r)
                                           (i + 1) (i + 1) 1)).
  { unfold sized. cbn. lia. }
  destruct cur as [c|]; [|split; assumption].
  destruct (negb (eqs (Server.name c) (Server.r_name r))); cbn [fst snd].
  - split; [|exact Hfresh]. apply Forall_snoc; [exact Hs|apply closeAt_sized].
  - split; [exact Hs|apply closeAt_sized].
Qed.

Lemma autoLoop_sized rules lines : forall i st,
  server_sized st -> server_sized (Server.autoLoop rules lines i st).
Proof.
  induction lines as [|l rest IH]; intros i st H; [exact H|].
  cbn [Server.autoLoop]. apply IH, autoStep_sized, H.
Qed.

Lemma explicitStep_sized cfg lineNum l st :
  server_sized st -> server_sized (Server.explicitStep cfg lineNum l st).
Proof.
  destruct st as [sections cur]. unfold Server.explicitStep, server_sized.
  cbn [fst snd]. intros [Hs Hc].
  destruct (match cfg with Some c => exec (Server.regionStart c) l | None => None end).
  - cbn [fst snd]. split; [|unfold sized; cbn; lia].
    destruct cur as [c|]; [|exact Hs].
    apply Forall_snoc; [exact Hs|apply closeAt_sized].
  - destruct (match cfg with Some c => test (Server.regionEnd c) l | None => false end);
      [|split; assumption].
    destruct cur as [c|]; [|split; assumption].
    cbn [fst snd]. split; [|exact I].
    apply Forall_snoc; [exact Hs|apply closeAt_sized].
Qed.

Lemma explicitLoop_sized cfg lines : forall lineNum st,
  server_sized st -> server_sized (Server.explicitLoop cfg lines lineNum st).
Proof.
  induction lines as [|l rest IH]; intros lineNum st H; [exact H|].
  cbn [Server.explicitLoop]. apply IH, explicitStep_sized, H.
Qed.

(** X2.  The size of every section the server reports is
    [end - line + 1], whichever scanner or the fallback produced it. *)
Theorem server_sections_sized :
  forall (lines : list str) (cfg : option Server.LangConfig),
    Forall sized (Server.detectSectionsExplicit lines cfg)
    /\ Forall sized (Server.detectSectionsAuto lines cfg)
    /\ Forall sized (Server.resolve lines cfg).
Proof.
  intros lines cfg.
  assert (Hinit : server_sized ([], None)) by (split; [constructor|exact I]).
  assert (He : Forall sized (Server.detectSectionsExplicit lines cfg)).
  { unfold Server.detectSectionsExplicit.
    pose proof (explicitLoop_sized cfg lines 1 _ Hinit) as H.
    destruct (Server.explicitLoop cfg lines 1 ([], None)) as [sections cur].
    destruct H as [Hs Hc]. cbn [fst snd] in *.
    destruct cur as [c|]; [|exact Hs].
    apply Forall_snoc; [exact Hs|apply closeAt_sized]. }
  assert (Ha : Forall sized (Server.detectSectionsAuto lines cfg)).
  { unfold Server.detectSectionsAuto.
    pose proof (autoLoop_sized (Server.langPatterns cfg) lines 0 _ Hinit) as H.
    destruct (Server.autoLoop _ lines 0 ([], None)) as [sections cur].
    destruct H as [Hs Hc]. cbn [fst snd] in *.
    destruct cur as [c|]; [|exact Hs].
    apply Forall_snoc; assumption. }
  repeat split; auto. unfold Server.resolve.
  destruct (Server.detectSectionsExplicit lines cfg); [|exact He].
  destruct (Server.detectSectionsAuto lines cfg); [|exact Ha].
  constructor; [|constructor]. unfold sized. cbn. lia.
Qed.

(** ** The pattern scanner of the server: names and emptiness *)

Lemma adjacent_snoc l a b :
  adjacent_distinct (l ++ [a]) -> a <> b -> adjacent_distinct ((l ++ [a]) ++ [b]).
Proof.
  induction l as [|x t IH]; intros H Hab.
  - simpl. auto.
  - cbn [app adjacent_distinct] in *. destruct H as [H1 H2]. split.
    + destruct t; exact H1.
    + apply IH; assumption.
Qed.

Lemma adjacent_single l a : l = [] -> adjacent_distinct (l ++ [a]).
Proof. intros ->. simpl. auto. Qed.

Lemma autoStep_names rules i l st :
  server_started st -> adjacent_distinct (server_names st) ->
  server_started (Server.autoStep rules i l st)
  /\ adjacent_distinct (server_names (Server.autoStep rules i l st)).
Proof.
  destruct st as [sections cur].
  unfold Server.autoStep, server_started, server_names. cbn [fst snd].
  intros Hst Hadj. destruct (find _ rules) as [r|]; [|split; assumption].
  destruct cur as [c|].
  - destruct (negb (eqs (Server.name c) (Server.r_name r))) eqn:Hne;
      cbn [fst snd Server.name Server.closeAt].
    + split; [discriminate|]. rewrite map_app. cbn [map Server.name Server.closeAt].
      apply adjacent_snoc; [exact Hadj|].
      intros Heq. apply eqs_true in Heq. rewrite Heq in Hne. discriminate.
    + split; [discriminate|exact Hadj].
  - cbn [fst snd Server.name]. split; [discriminate|].
    apply adjacent_single. rewrite (Hst eq_refl). reflexivity.
Qed.

Lemma autoLoop_names rules lines : forall i st,
  server_started st -> adjacent_distinct (server_names st) ->
  server_started (Server.autoLoop rules lines i st)
  /\ adjacent_distinct (server_names (Server.autoLoop rules lines i st)).
Proof.
  induction lines as [|l rest IH]; intros i st H1 H2; [split; assumption|].
  cbn [Server.autoLoop].
  destruct (autoStep_names rules i l st H1 H2) as [H3 H4]. apply IH; assumption.
Qed.

Lemma autoLoop_open rules lines : forall i st,
  snd (Server.autoLoop rules lines i st) = None
  <-> snd st = None /\ Forall (fun l => server_rule rules l = None) lines.
Proof.
  induction lines as [|l rest IH]; intros i st.
  - simpl. split; [intros H; split; [exact H|constructor]|tauto].
  - cbn [Server.autoLoop]. rewrite IH.
    assert (Hstep : snd (Server.autoStep rules i l st) = None
                    <-> snd st = None /\ server_rule rules l = None).
    { destruct st as [sections cur]. unfold Server.autoStep, server_rule.
      destruct (find _ rules) as [r|].
      - split; [|intros [_ H]; discriminate].
        destruct cur as [c|]; [|discriminate].
        destruct (negb _); discriminate.
      - cbn [snd]. tauto. }
    rewrite Hstep. split.
    + intros [[H1 H2] H3]. split; [exact H1|]. constructor; assumption.
    + intros [H1 H2]. inversion H2; subst. tauto.
Qed.

(** X3.  The server's pattern scanner returns no section exactly when no
    line matches a rule of the language, and the sections it returns never
    have the same name twice in a row. *)
Theorem server_auto_sections :
  forall (lines : list str) (cfg : option Server.LangConfig),
    (Server.detectSectionsAuto lines cfg = []
     <-> Forall (fun l => server_rule (Server.langPatterns cfg) l = None) lines)
    /\ adjacent_distinct (map Server.name (Server.detectSectionsAuto lines cfg)).
Proof.
  intros lines cfg. unfold Server.detectSectionsAuto.
  pose proof (autoLoop_open (Server.langPatterns cfg) lines 0 ([], None)) as Hopen.
  destruct (autoLoop_names (Server.langPatterns cfg) lines 0 ([], None))
    as [Hst Hadj]; [intros _; reflexivity|exact I|].
  destruct (Server.autoLoop _ lines 0 ([], None)) as [sections cur].
  unfold server_started, server_names in *. cbn [fst snd] in *.
  destruct cur as [c|].
  - split.
    + split.
      * intros H. apply app_eq_nil in H. destruct H as [_ H]. discriminate.
      * intros H. assert (Hx : Some c = None) by (apply Hopen; auto).
        discriminate.
    + rewrite map_app. exact Hadj.
  - rewrite (Hst eq_refl) in *. split.
    + split; [intros _; apply Hopen; reflexivity|reflexivity].
    + exact I.
Qed.

Lemma server_auto_sections_witness :
  Server.detectSectionsAuto [lit "const x = 1"; lit "x += 1"]
                            (Server.detectLanguage (lit "a.ts")) = [].
Proof.
  destruct (server_auto_sections [lit "const x = 1"; lit "x += 1"]
                                 (Server.detectLanguage (lit "a.ts")))
    as [[_ Hempty] _].
  apply Hempty.
  constructor; [vm_compute; reflexivity|].
  constructor; [vm_compute; reflexivity|constructor].
Defined.

(** ** The pattern scanner of the tool: names, emptiness, last line *)

Lemma detect_line_ge rules lines : forall k d,
  In d (Cli.detect rules lines k) -> (k <= Cli.d_line d)%Z.
Proof.
  induction lines as [|l rest IH]; intros k d Hin; [contradiction|].
  cbn [Cli.detect] in Hin. apply in_app_or in Hin. destruct Hin as [Hin|Hin].
  - destruct (find _ rules); [|contradiction].
    destruct Hin as [<-|[]]. simpl. lia.
  - apply IH in Hin. lia.
Qed.

Lemma find_detect rules lines : forall k0 j l,
  nth_error lines j = Some l ->
  find (fun d => (Cli.d_line d =? k0 + Z.of_nat j)%Z) (Cli.detect rules lines k0)
  = option_map (detection_of (k0 + Z.of_nat j)) (cli_rule rules l).
Proof.
  induction lines as [|l0 rest IH]; intros k0 j l Hnth.
  - destruct j; discriminate.
  - cbn [Cli.detect]. destruct j as [|j].
    + injection Hnth as ->. rewrite Z.add_0_r. unfold cli_rule.
      destruct (find _ rules) as [r|]; cbn [app find option_map].
      * cbn [Cli.d_line]. rewrite Z.eqb_refl. reflexivity.
      * destruct (find _ (Cli.detect rules rest (k0 + 1))) as [d|] eqn:Hf;
          [|reflexivity].
        apply find_some in Hf. destruct Hf as [Hin Heq].
        apply detect_line_ge in Hin. apply Z.eqb_eq in Heq. lia.
    + cbn [nth_error] in Hnth.
      replace (k0 + Z.of_nat (S j))%Z with (k0 + 1 + Z.of_nat j)%Z by lia.
      rewrite <- (IH (k0 + 1)%Z j l Hnth).
      destruct (find _ rules) as [r|]; [|reflexivity].
      cbn [app find Cli.d_line].
      replace (k0 =? k0 + 1 + Z.of_nat j)%Z with false
        by (symmetry; apply Z.eqb_neq; lia).
      reflexivity.
Qed.

Lemma groupStep_fused rules detected lineNum l st :
  find (fun d => (Cli.d_line d =? lineNum)%Z) detected
  = option_map (detection_of lineNum) (cli_rule rules l) ->
  Cli.groupStep detected lineNum st = fusedStep rules lineNum l st.
Proof.
  intros Hf. destruct st as [[sections cur] start].
  unfold Cli.groupStep, fusedStep. rewrite Hf.
  destruct (cli_rule rules l) as [r|]; reflexivity.
Qed.

(** The two loops of the scanner amount to the fused loop. *)
Lemma groupLoop_fused rules all : forall todo pre lineNum st,
  all = pre ++ todo -> lineNum = (1 + Z.of_nat (length pre))%Z ->
  Cli.groupLoop (Cli.detect rules all 1) todo lineNum st
  = fusedLoop rules todo lineNum st.
Proof.
  intros todo.
  induction todo as [|l todo IH]; intros pre lineNum st Hall Hnum; [reflexivity|].
  cbn [Cli.groupLoop fusedLoop].
  rewrite (groupStep_fused rules _ lineNum l).
  - apply (IH (pre ++ [l])).
    + rewrite <- app_assoc. exact Hall.
    + rewrite length_app. cbn [length]. lia.
  - subst lineNum. apply find_detect. subst all.
    rewrite nth_error_app2 by lia. rewrite Nat.sub_diag. reflexivity.
Qed.

Lemma cli_rule_named rules l r :
  forallb named rules = true -> cli_rule rules l = Some r -> a_section r <> [].
Proof.
  intros Hall Hr. apply find_some in Hr. destruct Hr as [Hin _].
  rewrite forallb_forall in Hall. specialize (Hall r Hin).
  unfold named in Hall. destruct (a_section r); [discriminate|discriminate].
Qed.

Lemma fusedStep_inv rules lineNum l st :
  forallb named rules = true -> fused_inv st ->
  fused_inv (fusedStep rules lineNum l st).
Proof.
  intros Hall. destruct st as [[sections cur] start]. unfold fusedStep, fused_inv.
  destruct (cli_rule rules l) as [r|] eqn:Hr; [|tauto].
  pose proof (cli_rule_named _ _ _ Hall Hr) as Hn.
  destruct cur as [c|].
  - intros [Hc Hadj]. cbn [orEmpty].
    destruct (eqs c (a_section r)) eqn:He; cbn [negb].
    + rewrite andb_false_r. split; assumption.
    + rewrite andb_true_r.
      replace (truthy (Some c)) with true by (destruct c; [contradiction|reflexivity]).
      split; [exact Hn|]. rewrite map_app. cbn [map name].
      apply adjacent_snoc; [exact Hadj|].
      intros Heq. apply eqs_true in Heq. congruence.
  - intros ->. cbn [truthy andb]. split; [exact Hn|]. simpl. auto.
Qed.

Lemma fusedLoop_inv rules lines : forall lineNum st,
  forallb named rules = true -> fused_inv st ->
  fused_inv (fusedLoop rules lines lineNum st).
Proof.
  induction lines as [|l rest IH]; intros lineNum st Hall H; [exact H|].
  cbn [fusedLoop]. apply IH; [exact Hall|]. apply fusedStep_inv; assumption.
Qed.

Lemma fusedLoop_open rules lines : forall lineNum st,
  snd (fst (fusedLoop rules lines lineNum st)) = None
  <-> snd (fst st) = None /\ Forall (fun l => cli_rule rules l = None) lines.
Proof.
  induction lines as [|l rest IH]; intros lineNum st.
  - simpl. split; [intros H; split; [exact H|constructor]|tauto].
  - cbn [fusedLoop]. rewrite IH.
    assert (Hstep : snd (fst (fusedStep rules lineNum l st)) = None
                    <-> snd (fst st) = None /\ cli_rule rules l = None).
    { destruct st as [[sections cur] start]. unfold fusedStep.
      destruct (cli_rule rules l) as [r|].
      - split; [|intros [_ H]; discriminate].
        destruct cur as [c|]; [|discriminate].
        destruct (eqs c (a_section r)); discriminate.
      - cbn [fst snd]. tauto. }
    rewrite Hstep. split.
    + intros [[H1 H2] H3]. split; [exact H1|]. constructor; assumption.
    + intros [H1 H2]. inversion H2; subst. tauto.
Qed.

(** X4.  For a plugin all of whose rules name a section, the tool's pattern
    scanner returns no section exactly when no line matches a rule; the
    sections it returns never have the same name twice in a row, and the
    last of them ends at the last line of the file. *)
Theorem cli_auto_sections :
  forall (content : str) (plugin : option Plugin),
    forallb named (rules_of plugin) = true ->
    let found := Cli.detectSectionsAuto content plugin in
    (found = []
     <-> Forall (fun l => cli_rule (rules_of plugin) l = None) (split_nl content))
    /\ adjacent_distinct (map name found)
    /\ last_ends_at (Z.of_nat (length (split_nl content))) found.
Proof.
  intros content plugin Hall found. unfold found, Cli.detectSectionsAuto.
  fold (rules_of plugin).
  rewrite (groupLoop_fused (rules_of plugin) (split_nl content) _ [] 1)
    by reflexivity.
  pose proof (fusedLoop_open (rules_of plugin) (split_nl content) 1 ([], None, 0%Z))
    as Hopen.
  pose proof (fusedLoop_inv (rules_of plugin) (split_nl content) 1 ([], None, 0%Z)
                Hall eq_refl) as Hinv.
  destruct (fusedLoop _ (split_nl content) 1 ([], None, 0%Z))
    as [[sections cur] start].
  unfold fused_inv in Hinv. cbn [fst snd] in Hopen.
  destruct cur as [c|].
  - destruct Hinv as [Hc Hadj].
    replace (truthy (Some c)) with true by (destruct c; [contradiction|reflexivity]).
    split; [|split].
    + split.
      * intros H. apply app_eq_nil in H. destruct H as [_ H]. discriminate.
      * intros H. assert (Hx : Some c = None) by (apply Hopen; auto).
        discriminate.
    + rewrite map_app. exact Hadj.
    + unfold last_ends_at. rewrite rev_app_distr. reflexivity.
  - subst sections. cbn [truthy]. split; [|split].
    + split; [intros _; apply Hopen; reflexivity|reflexivity].
    + exact I.
    + exact I.
Qed.

Lemma cli_auto_sections_witness :
  exists plugin,
    Cli.getLanguagePlugin (lit "a.ts") = Some plugin
    /\ last_ends_at 3 (Cli.detectSectionsAuto Sample.imports_ts (Some plugin)).
Proof.
  destruct (Cli.getLanguagePlugin (lit "a.ts")) as [plugin|] eqn:Hp;
    [|vm_compute in Hp; discriminate].
  exists plugin. split; [reflexivity|].
  assert (Hall : forallb named (rules_of (Some plugin)) = true).
  { vm_compute in Hp. injection Hp as <-. vm_compute. reflexivity. }
  destruct (cli_auto_sections Sample.imports_ts (Some plugin) Hall)
    as (_ & _ & Hlast).
  exact Hlast.
Defined.

(** ** The explicit scanner: where sections come from *)

Section ExplicitMarks.
Variables rStart rEnd marker : RegExp.

Lemma nonnil_snoc (A : Type) (l : list A) x :
  match l ++ [x] with [] => false | _ :: _ => true end = true.
Proof. destruct l; reflexivity. Qed.

Lemma step_active lineNum l st :
  active (Lib.step rStart rEnd marker lineNum l st)
  = active st || truthy (opened_name rStart rEnd marker l).
Proof.
  unfold Lib.step, opened_name, active.
  assert (Hopen : forall nm,
             truthy nm
             || match (if truthy (Lib.currentSection st)
                       then Lib.close st (lineNum - 1) else Lib.found st) with
                | [] => false | _ :: _ => true end
             = truthy (Lib.currentSection st)
               || match Lib.found st with [] => false | _ :: _ => true end
               || truthy nm).
  { intros nm. destruct (truthy (Lib.currentSection st)).
    - unfold Lib.close. rewrite nonnil_snoc. destruct (truthy nm); reflexivity.
    - destruct (truthy nm), (Lib.found st); reflexivity. }
  destruct (exec rStart l); cbn [Lib.currentSection Lib.found];
    [apply Hopen|].
  destruct (test rEnd l).
  - destruct (truthy (Lib.currentSection st)) eqn:Ht;
      cbn [Lib.currentSection Lib.found truthy].
    + unfold Lib.close. rewrite nonnil_snoc. reflexivity.
    + rewrite Ht. rewrite orb_false_r. reflexivity.
  - destruct (exec marker l); cbn [Lib.currentSection Lib.found];
      [apply Hopen|].
    cbn [truthy]. rewrite orb_false_r. reflexivity.
Qed.

Lemma loop_active lines : forall lineNum st,
  active (Lib.loop rStart rEnd marker lines lineNum st)
  = active st || existsb (fun l => truthy (opened_name rStart rEnd marker l)) lines.
Proof.
  induction lines as [|l todo IH]; intros lineNum st.
  - simpl. rewrite orb_false_r. reflexivity.
  - cbn [Lib.loop existsb]. rewrite IH, step_active, orb_assoc. reflexivity.
Qed.

Lemma marked_later lines l s :
  marked rStart rEnd marker lines s -> marked rStart rEnd marker (lines ++ [l]) s.
Proof.
  intros (H1 & H2 & x & Hx & Hn). repeat split; auto.
  exists x. split; [|exact Hn].
  rewrite nth_error_app1; [exact Hx|]. apply nth_error_Some. congruence.
Qed.

Lemma marks_inv_later lines l st :
  marks_inv rStart rEnd marker lines st ->
  marks_inv rStart rEnd marker (lines ++ [l]) st.
Proof.
  intros [H1 H2]. split.
  - eapply Forall_impl; [|exact H1]. intros s. apply marked_later.
  - intros Ht e. apply marked_later, H2, Ht.
Qed.

Lemma close_marked lines st e :
  marks_inv rStart rEnd marker lines st ->
  truthy (Lib.currentSection st) = true ->
  Forall (marked rStart rEnd marker lines) (Lib.close st e).
Proof.
  intros [H1 H2] Ht. unfold Lib.close. apply Forall_snoc; [exact H1|].
  apply H2, Ht.
Qed.

Lemma truthy_nonempty x : truthy (Some x) = true -> x <> [].
Proof. destruct x; [discriminate|discriminate]. Qed.

Lemma step_marks pre l st :
  marks_inv rStart rEnd marker pre st ->
  marks_inv rStart rEnd marker (pre ++ [l])
            (Lib.step rStart rEnd marker (1 + Z.of_nat (length pre)) l st).
Proof.
  intros Hinv. pose proof (marks_inv_later pre l st Hinv) as Hlater.
  assert (Hopen : forall nm d,
             opened_name rStart rEnd marker l = Some nm ->
             marks_inv rStart rEnd marker (pre ++ [l])
               (Lib.mkScan (if truthy (Lib.currentSection st)
                            then Lib.close st (1 + Z.of_nat (length pre) - 1)
                            else Lib.found st)
                           (Some nm) d (1 + Z.of_nat (length pre)))).
  { intros nm d Hnm. split; cbn [Lib.found Lib.currentSection Lib.sectionStart].
    - destruct (truthy (Lib.currentSection st)) eqn:Ht.
      + apply close_marked; assumption.
      + apply Hlater.
    - intros Ht e. unfold marked. cbn [name line orEmpty].
      split; [apply truthy_nonempty; exact Ht|]. split; [lia|].
      exists l. split; [|exact Hnm].
      replace (Z.to_nat (1 + Z.of_nat (length pre) - 1)) with (length pre) by lia.
      rewrite nth_error_app2 by lia. rewrite Nat.sub_diag. reflexivity. }
  unfold Lib.step. unfold opened_name in Hopen.
  destruct (exec rStart l); [apply Hopen; reflexivity|].
  destruct (test rEnd l).
  - destruct (truthy (Lib.currentSection st)) eqn:Ht; [|exact Hlater].
    split; cbn [Lib.found Lib.currentSection]; [|discriminate].
    apply close_marked; assumption.
  - destruct (exec marker l); [apply Hopen; reflexivity|exact Hlater].
Qed.

Lemma loop_marks todo : forall pre st,
  marks_inv rStart rEnd marker pre st ->
  marks_inv rStart rEnd marker (pre ++ todo)
            (Lib.loop rStart rEnd marker todo (1 + Z.of_nat (length pre)) st).
Proof.
  induction todo as [|l todo IH]; intros pre st Hinv.
  - rewrite app_nil_r. exact Hinv.
  - cbn [Lib.loop].
    replace (1 + Z.of_nat (length pre) + 1)%Z
      with (1 + Z.of_nat (length (pre ++ [l])))%Z
      by (rewrite length_app; cbn [length]; lia).
    replace (pre ++ l :: todo) with ((pre ++ [l]) ++ todo)
      by (rewrite <- app_assoc; reflexivity).
    apply IH, step_marks, Hinv.
Qed.

(** The result of one scan: empty exactly when no line opens a named
    section, and made of marked sections. *)
Lemma scan_marks lines :
  let st := Lib.loop rStart rEnd marker lines 1 (Lib.mkScan [] None None 0) in
  let found := if truthy (Lib.currentSection st)
               then Lib.close st (Z.of_nat (length lines)) else Lib.found st in
  (found = [] <-> Forall (fun l => truthy (opened_name rStart rEnd marker l) = false)
                         lines)
  /\ Forall (marked rStart rEnd marker lines) found.
Proof.
  intros st found. split.
  - pose proof (loop_active lines 1 (Lib.mkScan [] None None 0)) as Ha.
    fold st in Ha. cbn [active Lib.currentSection Lib.found truthy orb] in Ha.
    assert (Hf : match found with [] => false | _ :: _ => true end = active st).
    { unfold found, active. destruct (truthy (Lib.currentSection st)).
      - unfold Lib.close. rewrite nonnil_snoc. reflexivity.
      - reflexivity. }
    rewrite Ha in Hf. rewrite Forall_forall. split.
    + intros Hnil l Hin. rewrite Hnil in Hf.
      destruct (truthy (opened_name rStart rEnd marker l)) eqn:Ho; [|reflexivity].
      assert (Hx : existsb (fun l => truthy (opened_name rStart rEnd marker l)) lines
                   = true) by (apply existsb_exists; exists l; auto).
      rewrite Hx in Hf. discriminate.
    + intros Hall. destruct found; [reflexivity|]. symmetry in Hf.
      cbn [orb] in Hf. apply existsb_exists in Hf. destruct Hf as (l & Hin & Ho).
      rewrite (Hall l Hin) in Ho. discriminate.
  - pose proof (loop_marks lines [] (Lib.mkScan [] None None 0)) as Hm.
    cbn [app length Z.of_nat] in Hm. change (1 + 0)%Z with 1%Z in Hm. fold st in Hm.
    assert (Hinit : marks_inv rStart rEnd marker [] (Lib.mkScan [] None None 0)).
    { split; [constructor|]. cbn [Lib.currentSection truthy]. discriminate. }
    specialize (Hm Hinit). unfold found.
    destruct (truthy (Lib.currentSection st)) eqn:Ht.
    + apply close_marked; assumption.
    + apply Hm.
Qed.

End ExplicitMarks.

(** X5.  The explicit scanner of the library and of the tool returns no
    section exactly when no line of the file opens a section with a name
    (a region start, or a section marker on a line that is no region end);
    every section it returns has a non-empty name and starts on a line that
    opens it under that name. *)
Theorem explicit_sections_from_markers :
  forall (content : str) (plugin : option Plugin),
    let lines := split_nl content in
    let rEnd := Lib.pick plugin regionEnd Lib.defaultRegionEnd in
    let marker := Lib.pick plugin sectionMarker Lib.defaultSectionMarker in
    (let rStart := Lib.pick plugin regionStart Lib.defaultRegionStart in
     (Lib.findSections content plugin = []
      <-> Forall (fun l => truthy (opened_name rStart rEnd marker l) = false) lines)
     /\ Forall (marked rStart rEnd marker lines) (Lib.findSections content plugin))
    /\ (let rStart := Lib.pick plugin regionStart Cli.defaultRegionStart in
        (Cli.findExplicitSections content plugin = []
         <-> Forall (fun l => truthy (opened_name rStart rEnd marker l) = false)
                    lines)
        /\ Forall (marked rStart rEnd marker lines)
                  (Cli.findExplicitSections content plugin)).
Proof.
  intros content plugin lines rEnd marker. split; intros rStart.
  - exact (scan_marks rStart rEnd marker lines).
  - exact (scan_marks rStart rEnd marker lines).
Qed.

Lemma explicit_sections_from_markers_witness :
  Lib.findSections (lit "const x = 1") (Lib.getLanguagePlugin (lit "a.ts")) = [].
Proof.
  destruct (explicit_sections_from_markers (lit "const x = 1")
                                           (Lib.getLanguagePlugin (lit "a.ts")))
    as [[[_ Hempty] _] _].
  apply Hempty. constructor; [vm_compute; reflexivity|constructor].
Defined.

(** ** What [parseIndex] stores *)

Lemma startsWith_app p a b : startsWith p a = true -> startsWith p (a ++ b) = true.
Proof.
  revert a. induction p as [|x p IH]; intros a H; [reflexivity|].
  destruct a as [|y a]; [discriminate|]. simpl in *.
  apply andb_prop in H. destruct H as [H1 H2]. rewrite H1. simpl. auto.
Qed.

Lemma includes_app_l p a b : includes p a = true -> includes p (a ++ b) = true.
Proof.
  induction a as [|y a IH]; intros H.
  - simpl in H. rewrite orb_false_r in H.
    destruct p; [destruct b; reflexivity|discriminate].
  - cbn [includes] in H. change ((y :: a) ++ b) with (y :: (a ++ b)).
    cbn [includes]. apply orb_prop in H. destruct H as [H|H].
    + pose proof (startsWith_app p (y :: a) b H) as Hs.
      change ((y :: a) ++ b) with (y :: (a ++ b)) in Hs.
      rewrite Hs. reflexivity.
    + rewrite (IH H). apply orb_true_r.
Qed.

Lemma includes_app_r p a b : includes p b = true -> includes p (a ++ b) = true.
Proof.
  induction a as [|y a IH]; intros H; [exact H|].
  change ((y :: a) ++ b) with (y :: (a ++ b)). cbn [includes].
  rewrite (IH H). apply orb_true_r.
Qed.

Lemma trimStart_suffix s : exists w, s = w ++ trimStart s.
Proof.
  induction s as [|c t IH]; [exists []; reflexivity|]. simpl.
  destruct (isSpace c); [|exists []; reflexivity].
  destruct IH as [w Hw]. exists (c :: w). simpl. rewrite <- Hw. reflexivity.
Qed.

Lemma trimEnd_prefix s : exists w, s = trimEnd s ++ w.
Proof.
  unfold trimEnd. destruct (trimStart_suffix (rev s)) as [w Hw].
  exists (rev w). rewrite <- rev_app_distr, <- Hw, rev_involutive. reflexivity.
Qed.

(** What a trimmed string includes, the string includes. *)
Lemma includes_trim p s : includes p (trim s) = true -> includes p s = true.
Proof.
  intros H. unfold trim in H.
  destruct (trimEnd_prefix (trimStart s)) as [w Hw].
  destruct (trimStart_suffix s) as [v Hv].
  rewrite Hv, Hw. apply includes_app_r, includes_app_l, H.
Qed.

Lemma row_name_trim s :
  includes (lit "Section") s = false -> includes (lit "---") s = false ->
  row_name (trim s).
Proof.
  intros H1 H2. split.
  - destruct (includes (lit "Section") (trim s)) eqn:H; [|reflexivity].
    apply includes_trim in H. congruence.
  - destruct (includes (lit "---") (trim s)) eqn:H; [|reflexivity].
    apply includes_trim in H. congruence.
Qed.

Lemma find_own_key (V : Type) k (l : list (str * V)) v :
  find_own k l = Some v -> In k (map fst l).
Proof.
  induction l as [|[k' v'] t IH]; simpl; [discriminate|].
  destruct (eqs k k') eqn:He.
  - intros _. left. apply eqs_true in He. congruence.
  - intros H. right. apply IH, H.
Qed.

Lemma upsert_keys (V : Type) k (v : V) l x :
  In x (map fst (upsert k v l)) -> x = k \/ In x (map fst l).
Proof.
  induction l as [|[k' v'] t IH]; simpl.
  - intros [H|[]]. left. congruence.
  - destruct (eqs k k') eqn:He; simpl.
    + intros [H|H]; [left; congruence|right; right; exact H].
    + intros [H|H]; [right; left; exact H|].
      destruct (IH H) as [H'|H']; [left; exact H'|right; right; exact H'].
Qed.

Lemma addRow_keys o row :
  Forall row_name (map fst (own o)) ->
  Forall row_name (map fst (own (Lib.addRow o row))).
Proof.
  intros H. unfold Lib.addRow.
  destruct (truthy (group 1 row)); cbn [andb]; [|exact H].
  destruct (includes (lit "Section") (orEmpty (group 1 row))) eqn:H1;
    cbn [negb andb]; [exact H|].
  destruct (includes (lit "---") (orEmpty (group 1 row))) eqn:H2;
    cbn [negb]; [exact H|].
  unfold set. destruct (eqs _ proto_key); cbn [own]; [exact H|].
  apply Forall_forall. intros x Hx. apply upsert_keys in Hx.
  destruct Hx as [->|Hx].
  - apply row_name_trim; assumption.
  - rewrite Forall_forall in H. apply H, Hx.
Qed.

Lemma addRows_keys rows : forall o,
  Forall row_name (map fst (own o)) ->
  Forall row_name (map fst (own (fold_left Lib.addRow rows o))).
Proof.
  induction rows as [|r rows IH]; intros o H; [exact H|].
  cbn [fold_left]. apply IH, addRow_keys, H.
Qed.

(** X6.  No section that [parseIndex] stores has a name containing the
    text [Section] or three dashes in a row: rows with such names are taken
    for the header and the separator of the table and dropped. *)
Theorem parseIndex_names :
  forall (content : str) (parsed : ParsedIndex) (k : str) (v : IndexEntry),
    Lib.parseIndex content = Some parsed ->
    lookup k (sections parsed) = Stored v ->
    row_name k.
Proof.
  intros content parsed k v Hp Hl. unfold Lib.parseIndex in Hp.
  destruct (exec Lib.blockRe content) as [m|]; [|discriminate].
  injection Hp as <-. cbn [sections] in Hl.
  pose proof (addRows_keys (matchAll Lib.rowRe (matched m)) empty_obj
                           (Forall_nil _)) as Hkeys.
  unfold lookup, get in Hl.
  destruct (find_own k (own _)) as [v'|] eqn:Hf.
  - rewrite Forall_forall in Hkeys. apply Hkeys. eapply find_own_key; eauto.
  - destruct (eqs k proto_key) eqn:Hk.
    + apply eqs_true in Hk. subst k. split; vm_compute; reflexivity.
    + destruct (proto _) as [p|].
      * unfold entry_field in Hl.
        repeat match type of Hl with
               | context [if ?c then _ else _] => destruct c; try discriminate
               end.
      * destruct (existsb _ _); discriminate.
Qed.

Lemma parseIndex_names_witness : row_name (lit "foo").
Proof.
  destruct (Lib.parseIndex Sample.block_without_size) as [parsed|] eqn:Hp;
    [|vm_compute in Hp; discriminate].
  apply (parseIndex_names Sample.block_without_size parsed (lit "foo")
                          (mkEntry 10 20 10 []) Hp).
  vm_compute in Hp. injection Hp as <-. vm_compute. reflexivity.
Defined.

(** A section named with the word of the header is generated but not
    read back. *)
Lemma section_named_Sections_is_dropped :
  option_map (fun p => lookup (lit "Sections") (sections p))
    (Lib.parseIndex
       (Lib.generateIndex Sample.now
          [mkSection (lit "Sections") 1 3 (Some (lit "x"))] 10))
  = Some Undefined.
Proof. vm_compute. reflexivity. Qed.

(** ** Inserting a block into a file that has none *)

(** A pattern that starts with [^] and has no [m] flag matches at the
    start of the subject only. *)
Lemma search_anchored fl K l : forall p c,
  multiline fl = false -> search fl (Cat Bol K) p (Some c) l = None.
Proof.
  induction l as [|x t IH]; intros p c Hm; cbn [search run at_bol prev];
    rewrite Hm; cbn [andb flat_map]; auto.
Qed.

Lemma exec_anchored fl K s m :
  multiline fl = false -> exec (mkre (Cat Bol K) fl) s = Some m ->
  index m = 0 /\ s = matched m ++ sliceFrom (length (matched m)) s.
Proof.
  intros Hm He. unfold exec in He. cbn [re_body re_flags] in He.
  assert (Hi : index m = 0).
  { destruct s as [|x t]; cbn [search] in He.
    - destruct (run fl (Cat Bol K) _); [discriminate|].
      injection He as <-. reflexivity.
    - destruct (run fl (Cat Bol K) _).
      + rewrite search_anchored in He by exact Hm. discriminate.
      + injection He as <-. reflexivity. }
  split; [exact Hi|].
  destruct (search_span _ _ _ _ _ _ [] He eq_refl) as (after & H1 & H2 & _).
  rewrite Hi in H1, H2. simpl in H1, H2. unfold sliceFrom. rewrite <- H2. exact H1.
Qed.

Lemma run_cat fl a b st :
  run fl (Cat a b) st = flat_map (run fl b) (run fl a st).
Proof. reflexivity. Qed.

Lemma run_chr_step fl cs K c t p pv caps0 :
  cmatch fl cs c = true ->
  run fl (Cat (Chr cs) K) (mkst p pv (c :: t) caps0)
  = run fl K (mkst (S p) (Some c) t caps0).
Proof.
  intros H. cbn [run rest]. rewrite H. cbn [flat_map]. apply app_nil_r.
Qed.

Lemma run_chr_last fl cs c t p pv caps0 :
  cmatch fl cs c = true ->
  run fl (Chr cs) (mkst p pv (c :: t) caps0) = [mkst (S p) (Some c) t caps0].
Proof. intros H. cbn [run rest]. rewrite H. reflexivity. Qed.

Lemma run_bol_start fl K st :
  prev st = None -> run fl (Cat Bol K) st = run fl K st.
Proof.
  intros H. cbn [run]. unfold at_bol. rewrite H. cbn [flat_map]. apply app_nil_r.
Qed.

Lemma search_unfold fl r p pv l :
  search fl r p pv l
  = match run fl r (mkst p pv l []) with
    | st' :: _ => Some (mkres p (firstn (pos st' - p) l) (caps st') st')
    | [] => match l with
            | c :: t => search fl r (S p) (Some c) t
            | [] => None
            end
    end.
Proof. destruct l; reflexivity. Qed.

Lemma shebangRe_shape :
  Lib.shebangRe
  = mkre (Cat Bol (Cat (Chr (CChar 35%N)) (Cat (Chr (CChar 33%N))
            (Cat (Rep true 0 CAny) (Chr (CChar 10%N)))))) noflags.
Proof. vm_compute. reflexivity. Qed.

(** The first line of a file that starts with [#!] is what the shebang
    pattern matches, when the line ends with a line feed and has no other
    line terminator. *)
Lemma shebang_match l tail :
  one_line l = true ->
  option_map matched (exec Lib.shebangRe (lit "#!" ++ l ++ nl :: tail))
  = Some (lit "#!" ++ l ++ [nl]).
Proof.
  intros Hl. rewrite shebangRe_shape. unfold exec. cbn [re_body re_flags].
  change (lit "#!") with [35%N; 33%N]. cbn [app]. rewrite search_unfold.
  match goal with
  | |- context [run ?f ?r ?st] =>
      assert (Hrun : exists more,
                 run f r st = mkst (S (2 + length l)) (Some nl) tail [] :: more)
  end.
  { rewrite run_bol_start by reflexivity.
    rewrite !run_chr_step by reflexivity. rewrite run_cat.
    destruct (rep_first noflags true 0 CAny
                (mkst 2 (Some 33%N) (l ++ nl :: tail) [])
                (run noflags (Chr (CChar 10%N))) (length l)) as [more Hmore].
    - cbn [rest]. rewrite prefix_len_app; [lia|exact Hl|reflexivity].
    - cbn [rest]. rewrite prefix_len_app; [|exact Hl|reflexivity].
      intros j Hj1 Hj2. lia.
    - eexists. etransitivity; [exact Hmore|].
      unfold st_after. cbn [rest pos caps prev].
      rewrite skipn_app, skipn_all, Nat.sub_diag. cbn [skipn app].
      rewrite run_chr_last by reflexivity. reflexivity. }
  destruct Hrun as [more Hrun]. rewrite Hrun. cbn [option_map matched pos].
  f_equal. rewrite Nat.sub_0_r.
  change (35%N :: 33%N :: l ++ nl :: tail)
    with ([35%N; 33%N] ++ l ++ nl :: tail).
  replace (S (2 + length l)) with (length ([35%N; 33%N] ++ l ++ [nl]))
    by (rewrite !length_app; simpl; lia).
  replace ([35%N; 33%N] ++ l ++ nl :: tail)
    with (([35%N; 33%N] ++ l ++ [nl]) ++ tail)
    by (rewrite <- !app_assoc; reflexivity).
  rewrite firstn_app, firstn_all, Nat.sub_diag. cbn [firstn].
  rewrite app_nil_r. reflexivity.
Qed.

(** X7.  When a file has no index block, the content written is the
    original content with the block and two line feeds put in: at the very
    top, or right after the first line when that line is matched by the
    shebang pattern; nothing of the original content is lost or reordered.
    A first line [#!...] that ends with a line feed and contains no other
    line terminator is kept verbatim as the first line. *)
Theorem insert_keeps_content :
  forall content block : str,
    (exists first others,
        content = first ++ others
        /\ Lib.newContent content block None
           = first ++ block ++ [nl; nl] ++ others
        /\ (first = [] \/ exec Lib.shebangRe content <> None))
    /\ (forall l others,
           one_line l = true -> content = lit "#!" ++ l ++ nl :: others ->
           Lib.newContent content block None
           = (lit "#!" ++ l ++ [nl]) ++ block ++ [nl; nl] ++ others).
Proof.
  intros content block. split.
  - unfold Lib.newContent.
    destruct (exec Lib.shebangRe content) as [m|] eqn:He.
    + rewrite shebangRe_shape in He.
      destruct (exec_anchored noflags _ _ _ eq_refl He) as [_ Hs].
      exists (matched m), (sliceFrom (length (matched m)) content).
      repeat split; [exact Hs|right; discriminate].
    + exists [], content. repeat split. left. reflexivity.
  - intros l others Hl ->. unfold Lib.newContent.
    pose proof (shebang_match l others Hl) as Hm.
    destruct (exec Lib.shebangRe _) as [m|]; [|discriminate].
    cbn [option_map] in Hm. injection Hm as Hm. rewrite Hm.
    f_equal. f_equal. f_equal. unfold sliceFrom.
    replace (lit "#!" ++ l ++ nl :: others)
      with ((lit "#!" ++ l ++ [nl]) ++ others)
      by (rewrite <- !app_assoc; reflexivity).
    rewrite skipn_app, skipn_all, Nat.sub_diag. reflexivity.
Qed.

Lemma insert_keeps_content_witness :
  Lib.newContent (lit "#!" ++ lit "/usr/bin/env node" ++ nl :: lit "x") (lit "B") None
  = (lit "#!" ++ lit "/usr/bin/env node" ++ [nl]) ++ lit "B" ++ [nl; nl] ++ lit "x".
Proof.
  destruct (insert_keeps_content
              (lit "#!" ++ lit "/usr/bin/env node" ++ nl :: lit "x") (lit "B"))
    as [_ H].
  apply H; [vm_compute; reflexivity|reflexivity].
Defined.

(** With a carriage return before the line feed the first line is not taken
    for a shebang line, and the block goes before it. *)
Lemma shebang_with_carriage_return :
  Lib.newContent (lit "#!/bin/sh" ++ [13%N; nl] ++ lit "x") (lit "B") None
  = lit "B" ++ [nl; nl] ++ lit "#!/bin/sh" ++ [13%N; nl] ++ lit "x".
Proof. vm_compute. reflexivity. Qed.

(* ------------------------------------------------------------------ *)
(** * Removing the block                                               *)
(* ------------------------------------------------------------------ *)

Lemma feedsRe_shape :
  re "^\n+" = mkre (Cat Bol (Rep true 1 (CChar 10%N))) noflags.
Proof. vm_compute. reflexivity. Qed.

Lemma prefix_len_repeat f l :
  l = firstn (prefix_len f l) l ++ skipn (prefix_len f l) l
  /\ forallb f (firstn (prefix_len f l) l) = true
  /\ match skipn (prefix_len f l) l with
     | c :: _ => f c = false
     | [] => True
     end.
Proof.
  induction l as [|c t IH]; simpl; [auto|].
  destruct (f c) eqn:Hc; simpl.
  - destruct IH as (H1 & H2 & H3). rewrite Hc, H2. rewrite <- H1. auto.
  - rewrite Hc. auto.
Qed.

Lemma feeds_repeat l : forallb isFeed l = true -> l = repeat nl (length l).
Proof.
  induction l as [|c t IH]; cbn [forallb length repeat]; intros H; [reflexivity|].
  apply andb_prop in H. destruct H as [H1 H2].
  unfold isFeed in H1. apply N.eqb_eq in H1. subst c. f_equal. apply IH, H2.
Qed.

(** [replace(/^\n+/, '')] takes the line feeds off the start of a text. *)
Lemma replace_leading_feeds s :
  replace (re "^\n+") [] s = skipn (prefix_len isFeed s) s.
Proof.
  unfold replace. rewrite feedsRe_shape. unfold exec. cbn [re_body re_flags].
  rewrite search_unfold, run_bol_start by reflexivity.
  rewrite run_rep. cbv zeta. cbn [rest].
  change (cmatch noflags (CChar 10%N)) with isFeed.
  pose proof (prefix_len_le isFeed s) as Hle.
  destruct (prefix_len isFeed s) as [|k].
  - cbn [Nat.sub seq map rev].
    destruct s as [|c t]; [reflexivity|].
    rewrite search_anchored by reflexivity. reflexivity.
  - replace (S (S k) - 1) with (S k) by lia.
    rewrite seq_S, map_app, rev_app_distr. cbn [map rev app].
    cbn [index matched pos st_after]. rewrite Nat.sub_0_r.
    cbn [firstn app]. rewrite length_firstn.
    replace (Nat.min (0 + (1 + k)) (length s)) with (S k) by lia.
    reflexivity.
Qed.

Lemma leading_feeds s :
  exists k post,
    s = repeat nl k ++ post
    /\ hd_error post <> Some nl
    /\ replace (re "^\n+") [] s = post.
Proof.
  destruct (prefix_len_repeat isFeed s) as (H1 & H2 & H3).
  exists (length (firstn (prefix_len isFeed s) s)), (skipn (prefix_len isFeed s) s).
  split; [|split].
  - rewrite <- feeds_repeat by exact H2. exact H1.
  - destruct (skipn _ s) as [|c t]; [discriminate|].
    cbn [hd_error]. intros H. injection H as ->. discriminate.
  - apply replace_leading_feeds.
Qed.

(** X8.  [removeIndex] throws in two cases only: the file cannot be read,
    or it holds an index block and cannot be written.  Without an index
    block in the file it reports [removed: false] and writes nothing, also
    to a file that is read-only.  With one, in a file that can be written,
    it reports [removed: true] and writes the file without the first
    block and without the line feeds that follow the block directly: what
    stood before the block and what follows those line feeds is kept as it
    was, and no other file changes. *)
Theorem remove_keeps_content :
  forall (filePath : str) (fs : FS),
    match Cli.removeIndex filePath fs with
    | Throw _ =>
        fs filePath = None
        \/ (readOnly fs filePath = true
            /\ exists content existing,
                 fs filePath = Some content
                 /\ Cli.parseExistingIndex content = Some existing)
    | Return (false, fs') =>
        fs' = fs
        /\ exists content,
            fs filePath = Some content /\ Cli.parseExistingIndex content = None
    | Return (true, fs') =>
        readOnly fs filePath = false
        /\ exists existing text k others,
          fs filePath = Some (text ++ raw existing ++ repeat nl k ++ others)
          /\ Cli.parseExistingIndex (text ++ raw existing ++ repeat nl k ++ others)
             = Some existing
          /\ length text = startIndex existing
          /\ hd_error others <> Some nl
          /\ fs' filePath = Some (text ++ others)
          /\ forall p, p <> filePath -> fs' p = fs p
    end.
Proof.
  intros filePath fs. unfold Cli.removeIndex, readFile.
  destruct (fs filePath) as [content|] eqn:Hf; [|left; reflexivity].
  destruct (Cli.parseExistingIndex content) as [existing|] eqn:Hp.
  - unfold writeFile. destruct (readOnly fs filePath) eqn:Hro.
    { right. split; [reflexivity|]. exists content, existing. auto. }
    split; [reflexivity|].
    destruct (parseIndex_span _ _ Hp) as (H1 & H2 & H3).
    destruct (leading_feeds (sliceFrom (endIndex existing) content))
      as (k & post & H4 & H5 & H6).
    exists existing, (slice 0 (startIndex existing) content), k, post.
    rewrite <- H4, <- H1. repeat split; try assumption.
    + rewrite withFile_same, H6. reflexivity.
    + intros p Hne. apply withFile_other. exact Hne.
  - split; [reflexivity|]. exists content. auto.
Qed.

(** A file that holds a block and cannot be written: [removeIndex]
    throws, where the file without a block is reported as it is. *)
Lemma remove_read_only :
  let locked text :=
    mkFS (Sample.single (lit "a.ts") text) (fun _ => true) (fun _ => true)
         (fun _ => true) in
  Cli.removeIndex (lit "a.ts") (locked Sample.block_without_size)
  = Throw (lit "EACCES: permission denied, open 'a.ts'")
  /\ Cli.removeIndex (lit "a.ts") (locked (lit "x"))
     = Return (false, locked (lit "x")).
Proof. split; vm_compute; reflexivity. Qed.

(** The block and the blank line after it go; a second block stays. *)
Lemma remove_example :
  option_map
    (fun r : bool * FS => snd r (lit "a.ts"))
    (match Cli.removeIndex (lit "a.ts")
             (Sample.single (lit "a.ts")
                (lit "x" ++ Sample.block_without_size ++ [nl; nl] ++ lit "y"))
     with Return r => Some r | Throw _ => None end)
  = Some (Some (lit "xy")).
Proof. vm_compute. reflexivity. Qed.

(* ------------------------------------------------------------------ *)
(** * The block that was generated is the block that is found          *)
(* ------------------------------------------------------------------ *)

(** ** Texts without the terminator *)

Lemma close_lit : lit "*/" = [star; slash].
Proof. reflexivity. Qed.

Lemma scan_close_app a : forall b c,
  scan_close b (a ++ c)
  = match scan_close b a with
    | Some b' => scan_close b' c
    | None => None
    end.
Proof.
  induction a as [|x a IH]; intros b c; cbn [app scan_close]; [reflexivity|].
  destruct (b && (x =? slash)%N); [reflexivity|apply IH].
Qed.

Lemma scan_lit x r :
  scan_close false x = Some false ->
  scan_close false (x ++ r) = scan_close false r.
Proof. intros H. rewrite scan_close_app, H. reflexivity. Qed.

Lemma scan_plain x : forall r,
  forallb plain x = true -> scan_close false (x ++ r) = scan_close false r.
Proof.
  induction x as [|c t IH]; intros r H; [reflexivity|].
  cbn [forallb] in H. apply andb_prop in H. destruct H as [Hc Ht].
  cbn [app scan_close andb]. unfold plain in Hc.
  apply andb_prop in Hc. destruct Hc as [Hc _].
  apply negb_true_iff in Hc. rewrite Hc. apply IH, Ht.
Qed.

Lemma open_scan x : forall b,
  open_text x = true ->
  b && negb (starts_clear x) && negb (match x with [] => true | _ => false end)
  = false ->
  exists b', scan_close b x = Some b'.
Proof.
  unfold open_text. rewrite close_lit.
  induction x as [|c t IH]; intros b Hx Hb; [exists b; reflexivity|].
  cbn [includes startsWith] in Hx. apply negb_true_iff, orb_false_elim in Hx.
  destruct Hx as [Hs Ht]. cbn [scan_close].
  assert (Hbc : b && (c =? slash)%N = false).
  { cbn [starts_clear] in Hb. rewrite negb_involutive, andb_true_r in Hb.
    exact Hb. }
  rewrite Hbc. apply IH.
  - apply negb_true_iff. exact Ht.
  - destruct t as [|d t']; [apply andb_false_r|].
    cbn [starts_clear]. rewrite negb_involutive, andb_true_r.
    rewrite (N.eqb_sym c star), (N.eqb_sym d slash).
    rewrite andb_true_r in Hs. exact Hs.
Qed.

Lemma scan_var x y r :
  open_text x = true -> starts_clear y = true ->
  scan_close false (x ++ y ++ r) = scan_close false (y ++ r).
Proof.
  intros Hx Hy. rewrite scan_close_app.
  destruct (open_scan x false Hx eq_refl) as [b' Hb]. rewrite Hb.
  destruct y as [|c y']; [discriminate|].
  cbn [starts_clear] in Hy. apply negb_true_iff in Hy.
  cbn [app scan_close]. rewrite Hy, andb_false_r. reflexivity.
Qed.

Lemma spaces_plain k : forallb plain (spaces k) = true.
Proof. induction k as [|k IH]; [reflexivity|exact IH]. Qed.

Lemma scan_pad n x y r :
  open_text x = true -> starts_clear y = true ->
  scan_close false (padEnd n x ++ y ++ r) = scan_close false (y ++ r).
Proof.
  intros Hx Hy. unfold padEnd. rewrite <- app_assoc.
  destruct (n - length x) as [|k]; [apply (scan_var x y r); assumption|].
  rewrite scan_var by (assumption || reflexivity).
  apply scan_plain, spaces_plain.
Qed.

Lemma digit_plain c : isDigit c = true -> plain c = true.
Proof.
  unfold isDigit, plain, star, slash. intros H.
  apply andb_prop in H. destruct H as [H1 H2].
  apply N.leb_le in H1. apply N.leb_le in H2.
  apply andb_true_intro. split; apply negb_true_iff, N.eqb_neq; lia.
Qed.

Lemma forallb_impl (f g : char -> bool) l :
  (forall c, f c = true -> g c = true) -> forallb f l = true -> forallb g l = true.
Proof.
  intros H. induction l as [|c t IH]; [reflexivity|].
  cbn [forallb]. intros Hl. apply andb_prop in Hl. destruct Hl as [H1 H2].
  rewrite (H c H1), (IH H2). reflexivity.
Qed.

Lemma String_plain z : forallb plain (String_ z) = true.
Proof.
  unfold String_.
  assert (H : forall n, forallb plain (digits n) = true).
  { intros n. destruct (digits_spec n) as (_ & Hd & _).
    revert Hd. apply forallb_impl, digit_plain. }
  destruct (z <? 0)%Z; [cbn [forallb]; rewrite H; reflexivity|apply H].
Qed.

Lemma scan_num z r :
  scan_close false (padStart 4 (String_ z) ++ r) = scan_close false r.
Proof.
  apply scan_plain. unfold padStart. rewrite forallb_app, spaces_plain, String_plain.
  reflexivity.
Qed.

Lemma scan_dashes n r :
  scan_close false (repeat (ch "-") n ++ r) = scan_close false r.
Proof.
  apply scan_plain. induction n as [|n IH]; [reflexivity|exact IH].
Qed.

Lemma scan_row n m s r :
  open_section s = true ->
  scan_close false (Lib.row n m s ++ r) = scan_close false r.
Proof.
  unfold open_section, Lib.row. intros H. apply andb_prop in H.
  destruct H as [Hn Hd]. cbv zeta. rewrite <- !app_assoc.
  rewrite (scan_lit (lit " * | ")) by reflexivity.
  rewrite scan_pad by (assumption || reflexivity).
  rewrite (scan_lit (lit " | ")) by reflexivity. rewrite scan_num.
  rewrite (scan_lit (lit " | ")) by reflexivity. rewrite scan_num.
  rewrite (scan_lit (lit " | ")) by reflexivity. rewrite scan_num.
  rewrite (scan_lit (lit " | ")) by reflexivity.
  rewrite scan_pad by (assumption || reflexivity).
  rewrite (scan_lit (lit " |")) by reflexivity.
  apply (scan_lit [nl]). reflexivity.
Qed.

Lemma scan_rows n m sections : forall r,
  forallb open_section sections = true ->
  scan_close false (flat_map (Lib.row n m) sections ++ r) = scan_close false r.
Proof.
  induction sections as [|s t IH]; intros r H; [reflexivity|].
  cbn [forallb] in H. apply andb_prop in H. destruct H as [Hs Ht].
  cbn [flat_map]. rewrite <- app_assoc, scan_row by exact Hs. apply IH, Ht.
Qed.

(** ** The shape of a generated block *)

Lemma shape_step (a rest x : str) :
  rest = x ++ lit "*/" -> a ++ rest = (a ++ x) ++ lit "*/".
Proof. intros ->. apply app_assoc. Qed.

Lemma shape_head (a b c rest x : str) :
  rest = x ++ lit "*/" -> a ++ b ++ c ++ rest = (a ++ b ++ c) ++ x ++ lit "*/".
Proof. intros ->. rewrite <- !app_assoc. reflexivity. Qed.

(** A generated block is the head, a text, and the terminator; the text
    holds no terminator when the time stamp, the names and the descriptions
    hold none. *)
Lemma generateIndex_shape now sections totalLines :
  exists mid,
    Lib.generateIndex now sections totalLines = block_head ++ mid ++ lit "*/"
    /\ (open_text now = true -> forallb open_section sections = true ->
        exists b, scan_close false mid = Some b).
Proof.
  unfold Lib.generateIndex, block_head. cbv zeta.
  set (n := max_of 20 (map (fun s => length (name s)) sections)).
  set (m := max_of 20 (map (fun s => length (orEmpty (desc s))) sections)).
  eexists. split.
  - apply shape_head. do 10 apply shape_step.
    exact (eq_refl ([32%N] ++ lit "*/")).
  - intros Hnow Hall. rewrite <- !app_assoc.
    rewrite (scan_lit [nl]) by reflexivity.
    rewrite (scan_lit (lit " * @generated ")) by reflexivity.
    rewrite scan_var by (assumption || reflexivity).
    rewrite (scan_lit [nl]) by reflexivity.
    rewrite (scan_lit (lit " * @total-lines ")) by reflexivity.
    rewrite scan_plain by apply String_plain.
    rewrite (scan_lit [nl]) by reflexivity.
    rewrite (scan_var (lit " *")) by reflexivity.
    rewrite (scan_lit [nl]) by reflexivity.
    rewrite (scan_lit (lit " * | ")) by reflexivity.
    rewrite scan_pad by reflexivity.
    rewrite (scan_lit (lit " | Line | End  | Size | ")) by reflexivity.
    rewrite scan_pad by reflexivity.
    rewrite (scan_lit (lit " |")) by reflexivity.
    rewrite (scan_lit [nl]) by reflexivity.
    rewrite (scan_lit (lit " * | ")) by reflexivity.
    rewrite scan_dashes.
    rewrite (scan_lit (lit " | ---- | ---- | ---- | ")) by reflexivity.
    rewrite scan_dashes.
    rewrite (scan_lit (lit " |")) by reflexivity.
    rewrite (scan_lit [nl]) by reflexivity.
    rewrite scan_rows by exact Hall.
    exists false. reflexivity.
Qed.

(** ** The block pattern on a text that starts with the head *)

Lemma blockRe_shape : Lib.blockRe = mkre (block_head_re to_close) noflags.
Proof. vm_compute. reflexivity. Qed.

Lemma find_close_spec l : forall k,
  find_close l = Some k ->
  (exists t, skipn k l = star :: slash :: t)
  /\ (forall j t, j < k -> skipn j l <> star :: slash :: t).
Proof.
  induction l as [|a l IH]; intros k H; [discriminate|].
  cbn [find_close] in H. destruct l as [|b t']; [discriminate|].
  destruct ((a =? star) && (b =? slash))%N eqn:Hab.
  - injection H as <-. apply andb_prop in Hab. destruct Hab as [Ha Hb].
    apply N.eqb_eq in Ha. apply N.eqb_eq in Hb. subst a b.
    split; [exists t'; reflexivity|]. intros j t Hj. lia.
  - destruct (find_close (b :: t')) as [k'|] eqn:Hk; [|discriminate].
    injection H as <-. destruct (IH k' eq_refl) as [H1 H2].
    split; [exact H1|]. intros j t Hj.
    destruct j as [|j].
    + cbn [skipn]. intros Heq. injection Heq as Ha Hb _. subst a b.
      rewrite !N.eqb_refl in Hab. discriminate.
    + cbn [skipn]. apply H2. lia.
Qed.

Lemma find_close_exists a : forall b,
  exists k, find_close (a ++ star :: slash :: b) = Some k /\ k <= length a.
Proof.
  induction a as [|c a IH]; intros b.
  - exists 0. split; [reflexivity|lia].
  - destruct (IH b) as (k & Hk & Hle). cbn [app find_close].
    destruct (a ++ star :: slash :: b) as [|d t] eqn:Ha.
    + destruct a; discriminate.
    + destruct ((c =? star) && (d =? slash))%N.
      * exists 0. split; [reflexivity|lia].
      * rewrite Hk. exists (S k). split; [reflexivity|cbn [length]; lia].
Qed.

(** The first terminator of a text without terminator, followed by one,
    is the one that follows. *)
Lemma find_close_scan mid tail : forall b b',
  scan_close b mid = Some b' ->
  find_close (mid ++ star :: slash :: tail) = Some (length mid).
Proof.
  induction mid as [|c t IH]; intros b b' H.
  - cbn [app find_close]. unfold star, slash. rewrite !N.eqb_refl. reflexivity.
  - cbn [scan_close] in H. destruct (b && (c =? slash)%N); [discriminate|].
    cbn [app find_close length]. rewrite (IH _ _ H).
    destruct (t ++ star :: slash :: tail) as [|d t'] eqn:Ht.
    + destruct t; discriminate.
    + destruct ((c =? star) && (d =? slash))%N eqn:Hcd; [|reflexivity].
      apply andb_prop in Hcd. destruct Hcd as [Hc Hd].
      rewrite Hc in H. destruct t as [|e t2].
      * cbn [app] in Ht. injection Ht as <- _. discriminate.
      * cbn [app] in Ht. injection Ht as <- _.
        cbn [scan_close] in H. rewrite Hd in H. discriminate.
Qed.

Lemma any_unit_all c : cmatch noflags any_unit c = true.
Proof. cbn [cmatch any_unit]. destruct (isSpace c); reflexivity. Qed.

Lemma prefix_len_all f l : (forall c, f c = true) -> prefix_len f l = length l.
Proof.
  intros H. induction l as [|c t IH]; [reflexivity|].
  cbn [prefix_len length]. rewrite H, IH. reflexivity.
Qed.

Lemma run_closing p pv l cs :
  run noflags closing (mkst p pv l cs)
  = match l with
    | a :: b :: t =>
        if ((a =? star) && (b =? slash))%N
        then [mkst (S (S p)) (Some b) t cs] else []
    | _ => []
    end.
Proof.
  unfold closing. cbn [run rest cmatch icase noflags].
  destruct l as [|a [|b t]]; [reflexivity| |].
  - rewrite (N.eqb_sym star a). destruct (a =? star)%N; reflexivity.
  - rewrite (N.eqb_sym star a). destruct (a =? star)%N; [|reflexivity].
    cbn [flat_map advance run rest cmatch icase noflags pos caps app andb].
    rewrite (N.eqb_sym slash b). destruct (b =? slash)%N; reflexivity.
Qed.

(** The lazy end of the block pattern stops at the first terminator. *)
Lemma run_to_close l k p pv cs :
  find_close l = Some k ->
  hd_error (run noflags to_close (mkst p pv l cs))
  = Some (mkst (p + k + 2) (Some slash) (skipn (k + 2) l) cs).
Proof.
  intros Hk. destruct (find_close_spec l k Hk) as [[t Ht] Hbefore].
  assert (Hlen : k + 2 <= length l).
  { assert (H : length (skipn k l) = S (S (length t))) by (rewrite Ht; reflexivity).
    rewrite length_skipn in H. lia. }
  unfold to_close. rewrite run_cat.
  destruct (rep_first noflags false 0 any_unit (mkst p pv l cs)
              (run noflags closing) k) as [more Hmore].
  - cbn [rest]. rewrite prefix_len_all by apply any_unit_all. lia.
  - intros j _ Hj. unfold st_after. cbn [rest pos caps prev].
    rewrite run_closing.
    destruct (skipn j l) as [|a [|b t']] eqn:Hs; try reflexivity.
    destruct ((a =? star) && (b =? slash))%N eqn:Hab; [|reflexivity].
    apply andb_prop in Hab. destruct Hab as [Ha Hb].
    apply N.eqb_eq in Ha. apply N.eqb_eq in Hb. subst a b.
    exfalso. exact (Hbefore j t' Hj Hs).
  - rewrite Hmore. unfold st_after. cbn [rest pos caps prev].
    rewrite run_closing, Ht. unfold star, slash. rewrite !N.eqb_refl.
    cbn [andb app hd_error]. f_equal. f_equal; [lia|].
    replace (k + 2) with (2 + k) by lia. rewrite <- skipn_skipn.
    fold star slash in Ht. rewrite Ht. reflexivity.
Qed.

Lemma hd_app (A : Type) (x : A) l more :
  hd_error l = Some x -> hd_error (l ++ more) = Some x.
Proof. destruct l; [discriminate|exact (fun H => H)]. Qed.

(** The first match of a repetition followed by [K] goes through the first
    candidate that [K] accepts. *)
Lemma hd_rep fl (g : bool) n cs K st j0 x :
  let m := prefix_len (cmatch fl cs) (rest st) in
  n <= j0 <= m ->
  (forall j, n <= j <= m -> (if g then j0 < j else j < j0) ->
             run fl K (st_after st j) = []) ->
  hd_error (run fl K (st_after st j0)) = Some x ->
  hd_error (run fl (Cat (Rep g n cs) K) st) = Some x.
Proof.
  intros m H1 H2 H3. rewrite run_cat.
  destruct (rep_first fl g n cs st (run fl K) j0 H1 H2) as [more Hm].
  rewrite Hm. apply hd_app, H3.
Qed.

Lemma run_literally fl s : forall K p pv r cs,
  icase fl = false ->
  exists pv',
    run fl (literally s K) (mkst p pv (s ++ r) cs)
    = run fl K (mkst (p + length s) pv' r cs).
Proof.
  induction s as [|a s IH]; intros K p pv r cs Hfl.
  - exists pv. cbn [literally fold_right app length]. rewrite Nat.add_0_r.
    reflexivity.
  - cbn [literally fold_right app]. fold (literally s K).
    rewrite run_chr_step by (cbn [cmatch]; rewrite Hfl; apply N.eqb_refl).
    destruct (IH K (S p) (Some a) r cs Hfl) as [pv' E]. exists pv'.
    rewrite E. cbn [length]. do 2 f_equal. lia.
Qed.

(** The head of the pattern reads the head of the block. *)
Lemma run_block_head K p pv r cs x :
  (forall pv', hd_error (run noflags K (mkst (p + 16) pv' r cs)) = Some x) ->
  hd_error (run noflags (block_head_re K) (mkst p pv (block_head ++ r) cs))
  = Some x.
Proof.
  intros HK. unfold block_head_re, block_head. rewrite <- !app_assoc.
  match goal with
  | |- context [literally (lit "/**") ?K1] =>
      destruct (run_literally noflags (lit "/**") K1 p pv
                  ([nl] ++ lit " * @ai-index" ++ r) cs eq_refl) as [pv1 E1]
  end.
  rewrite E1. clear E1.
  change (lit " * @ai-index") with (32%N :: star :: 32%N :: lit "@ai-index").
  cbn [app]. unfold spc.
  (* no white space before the line feed *)
  apply hd_rep with (j0 := 0); cbv zeta; cbn [rest].
  { lia. }
  { change (prefix_len (cmatch noflags CSpace)
              (nl :: 32%N :: star :: 32%N :: lit "@ai-index" ++ r)) with 2.
    intros j Hj1 Hj2. destruct j as [|[|[|j]]]; try lia; reflexivity. }
  unfold st_after. cbn [pos prev rest caps skipn].
  rewrite run_chr_step by reflexivity.
  (* the blank before the star *)
  apply hd_rep with (j0 := 1); cbv zeta; cbn [rest].
  { change (prefix_len (cmatch noflags CSpace)
              (32%N :: star :: 32%N :: lit "@ai-index" ++ r)) with 1. lia. }
  { change (prefix_len (cmatch noflags CSpace)
              (32%N :: star :: 32%N :: lit "@ai-index" ++ r)) with 1.
    intros j Hj1 Hj2. lia. }
  unfold st_after. cbn [pos prev rest caps skipn nth].
  rewrite run_chr_step by reflexivity.
  (* the blank after the star *)
  apply hd_rep with (j0 := 1); cbv zeta; cbn [rest].
  { change (prefix_len (cmatch noflags CSpace) (32%N :: lit "@ai-index" ++ r))
      with 1. lia. }
  { change (prefix_len (cmatch noflags CSpace) (32%N :: lit "@ai-index" ++ r))
      with 1.
    intros j Hj1 Hj2. lia. }
  unfold st_after. cbn [pos prev rest caps skipn nth].
  match goal with
  | |- context [run noflags (literally _ K) (mkst ?q ?v _ _)] =>
      destruct (run_literally noflags (lit "@ai-index") K q v r cs eq_refl)
        as [pv2 E2]
  end.
  rewrite E2. clear E2.
  match goal with
  | |- context [mkst ?q pv2 r cs] => replace q with (p + 16)
  end.
  - apply HK.
  - change (length (lit "/**")) with 3. change (length (lit "@ai-index")) with 9.
    lia.
Qed.

Lemma blockRe_run r k p pv cs :
  find_close r = Some k ->
  hd_error (run noflags (re_body Lib.blockRe) (mkst p pv (block_head ++ r) cs))
  = Some (mkst (p + 18 + k) (Some slash) (skipn (k + 2) r) cs).
Proof.
  intros Hk. rewrite blockRe_shape. cbn [re_body].
  apply run_block_head. intros pv'.
  rewrite (run_to_close r k _ pv' cs Hk). do 2 f_equal. lia.
Qed.

(** A match somewhere in the subject is found, or an earlier one. *)
Lemma search_some fl r pre : forall l p pv,
  (forall p' pv', run fl r (mkst p' pv' l []) <> []) ->
  search fl r p pv (pre ++ l) <> None.
Proof.
  induction pre as [|c pre IH]; intros l p pv H; rewrite search_unfold.
  - cbn [app]. destruct (run fl r _) eqn:Hr; [|discriminate].
    exfalso. exact (H _ _ Hr).
  - cbn [app]. destruct (run fl r _); [|discriminate]. apply IH, H.
Qed.

Lemma block_head_length : length block_head = 16.
Proof. reflexivity. Qed.

(** A text that starts with the head of a block and goes on to a
    terminator is parsed as a block that ends with the first terminator. *)
Lemma parseIndex_head r k :
  find_close r = Some k ->
  exists parsed,
    Lib.parseIndex (block_head ++ r) = Some parsed
    /\ startIndex parsed = 0
    /\ raw parsed = block_head ++ firstn (k + 2) r
    /\ endIndex parsed = 18 + k.
Proof.
  intros Hk. unfold Lib.parseIndex, exec. rewrite search_unfold.
  pose proof (blockRe_run r k 0 None [] Hk) as Hrun.
  assert (Hlen : k + 2 <= length r).
  { destruct (find_close_spec r k Hk) as [[t Ht] _].
    assert (H : length (skipn k r) = S (S (length t))) by (rewrite Ht; reflexivity).
    rewrite length_skipn in H. lia. }
  change (re_flags Lib.blockRe) with noflags.
  destruct (run noflags (re_body Lib.blockRe) _) as [|st' more];
    [discriminate|].
  cbn [hd_error] in Hrun. injection Hrun as ->.
  eexists. split; [reflexivity|]. cbn [startIndex raw endIndex index matched pos].
  assert (Hm : forall q, q = 18 + k ->
                 firstn q (block_head ++ r) = block_head ++ firstn (k + 2) r).
  { intros q ->. rewrite firstn_app, block_head_length.
    rewrite firstn_all2 by (rewrite block_head_length; lia).
    do 2 f_equal. lia. }
  rewrite !Hm by lia. split; [reflexivity|]. split; [reflexivity|].
  rewrite length_app, block_head_length, length_firstn. lia.
Qed.

(** A text that holds the head of a block and a terminator after it has a
    block. *)
Lemma parseIndex_some pre r k :
  find_close r = Some k -> Lib.parseIndex (pre ++ block_head ++ r) <> None.
Proof.
  intros Hk. unfold Lib.parseIndex, exec.
  destruct (search _ _ 0 None (pre ++ block_head ++ r)) eqn:Hs; [discriminate|].
  exfalso. revert Hs. apply search_some. intros p' pv' Hr.
  pose proof (blockRe_run r k p' pv' [] Hk) as Hrun.
  change (re_flags Lib.blockRe) with noflags in Hr.
  rewrite Hr in Hrun. discriminate.
Qed.

(** ** No block starts inside a shebang line *)

Lemma run_chr_fail fl cs K c t p pv caps0 :
  cmatch fl cs c = false ->
  run fl (Cat (Chr cs) K) (mkst p pv (c :: t) caps0) = [].
Proof. intros H. cbn [run rest]. rewrite H. reflexivity. Qed.

Lemma run_chr_end fl cs K p pv caps0 :
  run fl (Cat (Chr cs) K) (mkst p pv [] caps0) = [].
Proof. reflexivity. Qed.

Lemma one_line_not_feed c : negb (isLineTerminator c) = true -> (10 =? c)%N = false.
Proof.
  intros H. apply negb_true_iff in H. unfold isLineTerminator in H.
  destruct (N.eqb_spec 10 c) as [<-|]; [discriminate|reflexivity].
Qed.

(** What follows the line feed of a line is no star and no white space:
    the block pattern does not match from inside the line. *)
Lemma no_block_in_line K u c t : forall p pv cs,
  one_line u = true -> isSpace c = false -> (star =? c)%N = false ->
  run noflags (block_head_re K) (mkst p pv (u ++ nl :: c :: t) cs) = [].
Proof.
  intros p pv cs Hu Hc Hs.
  change (block_head_re K)
    with (Cat (Chr (CChar 47%N)) (Cat (Chr (CChar 42%N)) (Cat (Chr (CChar 42%N))
            (Cat spc (Cat (Chr (CChar nl)) (Cat spc (Cat (Chr (CChar star))
               (Cat spc (literally (lit "@ai-index") K))))))))).
  destruct u as [|c1 u]; [reflexivity|].
  cbn [app]. destruct (cmatch noflags (CChar 47%N) c1) eqn:H1;
    [|apply run_chr_fail; exact H1].
  rewrite run_chr_step by exact H1.
  cbn [one_line forallb] in Hu. apply andb_prop in Hu. destruct Hu as [_ Hu].
  destruct u as [|c2 u]; [reflexivity|].
  cbn [app]. destruct (cmatch noflags (CChar 42%N) c2) eqn:H2;
    [|apply run_chr_fail; exact H2].
  rewrite run_chr_step by exact H2.
  cbn [forallb] in Hu. apply andb_prop in Hu. destruct Hu as [_ Hu].
  destruct u as [|c3 u]; [reflexivity|].
  cbn [app]. destruct (cmatch noflags (CChar 42%N) c3) eqn:H3;
    [|apply run_chr_fail; exact H3].
  rewrite run_chr_step by exact H3.
  cbn [forallb] in Hu. apply andb_prop in Hu. destruct Hu as [_ Hu].
  (* the white space and the line feed *)
  rewrite run_cat. apply flat_map_nil. intros x Hx.
  apply in_run_rep in Hx. destruct Hx as (j & -> & _ & Hj).
  unfold st_after. cbn [rest pos caps prev] in *.
  set (q := S (S (S p)) + j). clearbody q.
  set (v := match j with 0 => Some c3 | S j' => Some (nth j' (u ++ nl :: c :: t) 0%N) end).
  clearbody v.
  assert (Hcases : j < length u \/ j = length u \/ j = S (length u) \/ S (length u) < j)
    by lia.
  destruct Hcases as [Hlt|[->|[->|Hgt]]].
  - rewrite skipn_app. replace (j - length u) with 0 by lia. cbn [skipn].
    destruct (skipn j u) as [|d u'] eqn:Hd.
    + assert (H : length (skipn j u) = 0) by (rewrite Hd; reflexivity).
      rewrite length_skipn in H. lia.
    + cbn [app]. apply run_chr_fail. cbn [cmatch icase noflags].
      apply one_line_not_feed.
      assert (Hin : In d u).
      { rewrite <- (firstn_skipn j u), Hd. apply in_or_app. right. left.
        reflexivity. }
      unfold one_line in Hu. rewrite forallb_forall in Hu. apply Hu, Hin.
  - rewrite skipn_app, skipn_all, Nat.sub_diag. cbn [skipn app].
    rewrite run_chr_step by reflexivity.
    unfold spc. rewrite run_cat, run_rep. cbv zeta. cbn [rest].
    rewrite prefix_len_head by exact Hc. cbn [Nat.sub seq map rev app flat_map].
    rewrite st_after_0. rewrite app_nil_r. apply run_chr_fail. exact Hs.
  - rewrite skipn_app, skipn_all2 by lia.
    replace (S (length u) - length u) with 1 by lia. cbn [skipn app].
    apply run_chr_fail. cbn [cmatch icase noflags].
    destruct (N.eqb_spec nl c) as [<-|]; [discriminate|reflexivity].
  - exfalso. pose proof (prefix_len_le (cmatch noflags CSpace) u) as Hle.
    assert (Hm : prefix_len (cmatch noflags CSpace) (u ++ nl :: c :: t)
                 <= S (length u)).
    { clear -Hc. induction u as [|d u IH]; cbn [app prefix_len length].
      - change (cmatch noflags CSpace c) with (isSpace c). rewrite Hc.
        destruct (cmatch noflags CSpace nl); lia.
      - destruct (cmatch noflags CSpace d); lia. }
    lia.
Qed.

(** Positions at which the pattern does not match are passed over. *)
Lemma search_skip fl r l : forall pre p pv,
  (forall a b, pre = a ++ b -> b <> [] ->
               forall q v, run fl r (mkst q v (b ++ l) []) = []) ->
  exists v, search fl r p pv (pre ++ l) = search fl r (p + length pre) v l.
Proof.
  induction pre as [|c pre IH]; intros p pv H.
  - exists pv. cbn [app length]. rewrite Nat.add_0_r. reflexivity.
  - rewrite search_unfold.
    rewrite (H [] (c :: pre) eq_refl) by discriminate.
    cbn [app]. destruct (IH (S p) (Some c)) as [v Hv].
    + intros a b -> Hb q v. apply (H (c :: a) b); [reflexivity|exact Hb].
    + exists v. rewrite Hv. cbn [length]. f_equal. lia.
Qed.

Lemma one_line_app a b : one_line (a ++ b) = true -> one_line b = true.
Proof. unfold one_line. rewrite forallb_app. intros H. apply andb_prop in H. tauto. Qed.

(** A block right after a shebang line is the block that is found. *)
Lemma parseIndex_after_line l r k :
  one_line l = true -> find_close r = Some k ->
  exists parsed,
    Lib.parseIndex ((lit "#!" ++ l ++ [nl]) ++ block_head ++ r) = Some parsed
    /\ startIndex parsed = length (lit "#!" ++ l ++ [nl])
    /\ raw parsed = block_head ++ firstn (k + 2) r
    /\ endIndex parsed = length (lit "#!" ++ l ++ [nl]) + (18 + k).
Proof.
  intros Hl Hk. set (line := lit "#!" ++ l ++ [nl]).
  assert (Hline : one_line (lit "#!" ++ l) = true).
  { unfold one_line. rewrite forallb_app. apply andb_true_intro. split;
      [reflexivity|exact Hl]. }
  unfold Lib.parseIndex, exec.
  destruct (search_skip (re_flags Lib.blockRe) (re_body Lib.blockRe)
              (block_head ++ r) line 0 None) as [v Hv].
  { intros a b Hab Hb q v. rewrite blockRe_shape. cbn [re_body re_flags].
    assert (Hu : exists u, b = u ++ [nl] /\ one_line u = true).
    { destruct (exists_last Hb) as (u & d & ->).
      unfold line in Hab. rewrite !app_assoc in Hab.
      apply app_inj_tail in Hab. destruct Hab as [Hab <-].
      exists u. split; [reflexivity|].
      rewrite Hab in Hline.
      apply (one_line_app a u Hline). }
    destruct Hu as (u & -> & Hu). rewrite <- app_assoc.
    change ([nl] ++ block_head ++ r)
      with (nl :: 47%N :: (lit "**" ++ [nl] ++ lit " * @ai-index") ++ r).
    apply no_block_in_line; [exact Hu|reflexivity|reflexivity]. }
  rewrite Hv. clear Hv. clearbody line. rewrite search_unfold.
  pose proof (blockRe_run r k (0 + length line) v [] Hk) as Hrun.
  assert (Hlen : k + 2 <= length r).
  { destruct (find_close_spec r k Hk) as [[t Ht] _].
    assert (H : length (skipn k r) = S (S (length t))) by (rewrite Ht; reflexivity).
    rewrite length_skipn in H. lia. }
  change (re_flags Lib.blockRe) with noflags.
  destruct (run noflags (re_body Lib.blockRe) _) as [|st' more];
    [discriminate|].
  cbn [hd_error] in Hrun. injection Hrun as ->.
  eexists. split; [reflexivity|]. cbn [startIndex raw endIndex index matched pos].
  assert (Hm : forall q, q = 18 + k ->
                 firstn q (block_head ++ r) = block_head ++ firstn (k + 2) r).
  { intros q ->. rewrite firstn_app, block_head_length.
    rewrite firstn_all2 by (rewrite block_head_length; lia).
    do 2 f_equal. lia. }
  rewrite !Hm by lia. split; [reflexivity|]. split; [reflexivity|].
  rewrite length_app, block_head_length, length_firstn. lia.
Qed.

Lemma run_chr_none fl cs c t p pv caps0 :
  cmatch fl cs c = false -> run fl (Chr cs) (mkst p pv (c :: t) caps0) = [].
Proof. intros H. cbn [run rest]. rewrite H. reflexivity. Qed.

(** What the shebang pattern matches is a first line [#!...] with its
    line feed. *)
Lemma shebang_shape content m :
  exec Lib.shebangRe content = Some m ->
  exists l others,
    content = lit "#!" ++ l ++ nl :: others
    /\ one_line l = true
    /\ matched m = lit "#!" ++ l ++ [nl].
Proof.
  rewrite shebangRe_shape. unfold exec. cbn [re_body re_flags].
  rewrite search_unfold, run_bol_start by reflexivity. intros H.
  destruct content as [|c1 content]; [discriminate|].
  destruct (cmatch noflags (CChar 35%N) c1) eqn:H1.
  2:{ rewrite run_chr_fail in H by exact H1.
      rewrite search_anchored in H by reflexivity. discriminate. }
  rewrite run_chr_step in H by exact H1.
  destruct content as [|c2 text].
  { rewrite run_chr_end in H. discriminate. }
  destruct (cmatch noflags (CChar 33%N) c2) eqn:H2.
  2:{ rewrite run_chr_fail in H by exact H2.
      rewrite search_anchored in H by reflexivity. discriminate. }
  rewrite run_chr_step in H by exact H2.
  rewrite run_cat, rep_greedy_max in H.
  2:{ intros j Hj. cbv zeta in Hj.
      destruct (prefix_len_next _ _ _ (proj2 Hj)) as (c & t & Hs & Hc).
      unfold st_after. cbn [rest pos caps prev] in *. rewrite Hs.
      apply run_chr_none. apply one_line_not_feed. exact Hc. }
  cbv zeta in H. cbn [Nat.leb rest] in H.
  destruct (prefix_len_repeat (cmatch noflags CAny) text) as (E1 & E2 & _).
  pose proof (prefix_len_le (cmatch noflags CAny) text) as Hle.
  set (k := prefix_len (cmatch noflags CAny) text) in *. clearbody k.
  unfold st_after in H. cbn [rest pos caps prev] in H.
  destruct (skipn k text) as [|c t] eqn:Hs.
  { cbn [run rest] in H. rewrite search_anchored in H by reflexivity.
    discriminate. }
  destruct (cmatch noflags (CChar 10%N) c) eqn:Hc.
  2:{ rewrite run_chr_none in H by exact Hc.
      rewrite search_anchored in H by reflexivity. discriminate. }
  rewrite run_chr_last in H by exact Hc. injection H as <-.
  cbn [matched pos]. cbn [cmatch icase noflags] in H1, H2, Hc.
  apply N.eqb_eq in H1. apply N.eqb_eq in H2. apply N.eqb_eq in Hc.
  subst c1 c2 c. exists (firstn k text), t.
  change (lit "#!") with [35%N; 33%N]. cbn [app].
  split; [|split].
  - do 2 f_equal. exact E1.
  - exact E2.
  - do 2 f_equal. change (firstn (S k) text = firstn k text ++ [nl]).
    rewrite E1 at 1.
    rewrite firstn_app, length_firstn.
    replace (S k - Nat.min k (length text)) with 1 by lia.
    rewrite firstn_all2 by (rewrite length_firstn; lia).
    reflexivity.
Qed.

(** ** What was written is what is found *)

(** The block in a text [text ++ block ++ others]: some block is found;
    with nothing before it, or a shebang line, the block found starts where
    the generated one does and ends in it; it is the generated block when no
    name, description or time stamp holds the terminator. *)
Lemma generated_block_some now sections totalLines text others :
  Lib.parseIndex (text ++ Lib.generateIndex now sections totalLines ++ others)
  <> None.
Proof.
  destruct (generateIndex_shape now sections totalLines) as (mid & E & _).
  rewrite E, close_lit, <- !app_assoc.
  destruct (find_close_exists mid others) as (k & Hk & _).
  exact (parseIndex_some text _ k Hk).
Qed.

Lemma generated_block_found now sections totalLines first others :
  first = [] \/ (exists l, one_line l = true /\ first = lit "#!" ++ l ++ [nl]) ->
  let block := Lib.generateIndex now sections totalLines in
  exists parsed,
    Lib.parseIndex (first ++ block ++ others) = Some parsed
    /\ startIndex parsed = length first
    /\ endIndex parsed <= length first + length block
    /\ (open_text now = true -> forallb open_section sections = true ->
        raw parsed = block /\ endIndex parsed = length first + length block).
Proof.
  intros Hfirst block. unfold block.
  destruct (generateIndex_shape now sections totalLines) as (mid & E & Hopen).
  rewrite E, close_lit. clear E.
  destruct (find_close_exists mid others) as (k & Hk & Hle).
  assert (Hex : exists parsed,
             Lib.parseIndex (first ++ block_head ++ mid ++ star :: slash :: others)
             = Some parsed
             /\ startIndex parsed = length first
             /\ raw parsed
                = block_head ++ firstn (k + 2) (mid ++ star :: slash :: others)
             /\ endIndex parsed = length first + (18 + k)).
  { destruct Hfirst as [->|(l & Hl & ->)].
    - destruct (parseIndex_head _ k Hk) as (parsed & H1 & H2 & H3 & H4).
      exists parsed. cbn [app length]. auto.
    - exact (parseIndex_after_line l _ k Hl Hk). }
  destruct Hex as (parsed & H1 & H2 & H3 & H4). exists parsed.
  rewrite <- !app_assoc. cbn [app]. rewrite !length_app, block_head_length.
  cbn [length]. split; [exact H1|]. split; [exact H2|]. split; [lia|].
  intros Hnow Hall. destruct (Hopen Hnow Hall) as [b Hb].
  rewrite (find_close_scan mid others false b Hb) in Hk. injection Hk as <-.
  split; [|lia]. rewrite H3. f_equal.
  change (mid ++ star :: slash :: others) with (mid ++ [star; slash] ++ others).
  rewrite app_assoc, firstn_app, firstn_all2 by (rewrite length_app; cbn [length]; lia).
  rewrite length_app. cbn [length].
  replace (length mid + 2 - (length mid + 2)) with 0 by lia.
  cbn [firstn]. rewrite app_nil_r. reflexivity.
Qed.

(** Where [insertIndex] puts the block into a content without one *)
Lemma newContent_shape content :
  let first := shebang_line content in
  let others := skipn (length first) content in
  content = first ++ others
  /\ (forall block,
        Lib.newContent content block None = first ++ block ++ [nl; nl] ++ others)
  /\ (first = [] \/ exists l, one_line l = true /\ first = lit "#!" ++ l ++ [nl]).
Proof.
  unfold shebang_line, Lib.newContent, sliceFrom.
  destruct (exec Lib.shebangRe content) as [m|] eqn:He; cbv zeta.
  - destruct (shebang_shape _ _ He) as (l & others & Hc & Hl & Hm).
    assert (Hs : content = matched m ++ skipn (length (matched m)) content).
    { rewrite Hm. rewrite Hc at 1 2.
      replace (lit "#!" ++ l ++ nl :: others)
        with ((lit "#!" ++ l ++ [nl]) ++ others)
        by (rewrite <- !app_assoc; reflexivity).
      rewrite skipn_app, skipn_all, Nat.sub_diag. reflexivity. }
    split; [exact Hs|]. split; [reflexivity|].
    right. exists l. auto.
  - cbn [length skipn app]. auto.
Qed.

Lemma splice_parts (first block others : str) :
  slice 0 (length first) (first ++ block ++ others) = first
  /\ sliceFrom (length first + length block) (first ++ block ++ others) = others.
Proof.
  unfold slice, sliceFrom. cbn [skipn]. rewrite Nat.sub_0_r. split.
  - rewrite firstn_app, firstn_all, Nat.sub_diag. cbn [firstn]. apply app_nil_r.
  - rewrite app_assoc, skipn_app, skipn_all2 by (rewrite length_app; lia).
    rewrite length_app, Nat.sub_diag. reflexivity.
Qed.

(** X9.  In any text that holds a generated block, [parseIndex] finds a
    block.  When the text starts with the generated block, the block found
    starts at offset 0 and ends inside the generated block; it is the
    generated block, whole, when neither the time stamp nor a name or a
    description holds the terminator [*/]. *)
Theorem generated_block_parsed :
  forall (now : str) (sections : list Section) (totalLines : Z)
         (text others : str),
    let block := Lib.generateIndex now sections totalLines in
    Lib.parseIndex (text ++ block ++ others) <> None
    /\ exists parsed,
         Lib.parseIndex (block ++ others) = Some parsed
         /\ startIndex parsed = 0
         /\ endIndex parsed <= length block
         /\ (open_text now = true -> forallb open_section sections = true ->
             raw parsed = block /\ endIndex parsed = length block).
Proof.
  intros now sections totalLines text others block.
  split; [apply generated_block_some|].
  destruct (generated_block_found now sections totalLines [] others)
    as (parsed & H1 & H2 & H3 & H4); [left; reflexivity|].
  exists parsed. auto.
Qed.

Lemma generated_block_parsed_witness :
  exists parsed,
    Lib.parseIndex
      (Lib.generateIndex Sample.now
         [mkSection (lit "imports") 1 3 (Some (lit "a / b * c"))] 10
       ++ lit "code")
    = Some parsed
    /\ raw parsed
       = Lib.generateIndex Sample.now
           [mkSection (lit "imports") 1 3 (Some (lit "a / b * c"))] 10.
Proof.
  destruct (generated_block_parsed Sample.now
              [mkSection (lit "imports") 1 3 (Some (lit "a / b * c"))] 10
              [] (lit "code")) as (_ & parsed & H1 & _ & _ & H2).
  exists parsed. split; [exact H1|].
  apply H2; vm_compute; reflexivity.
Defined.

(** A name that holds the terminator cuts the block short: what is found
    is shorter than what was generated. *)
Lemma terminator_in_name_cuts_block :
  let block := Lib.generateIndex Sample.now
                 [mkSection (lit "a*/b") 1 3 (Some [])] 10 in
  option_map (fun p => (startIndex p, endIndex p <? length block))
             (Lib.parseIndex block)
  = Some (0, true).
Proof. vm_compute. reflexivity. Qed.

(** X10.  A file that [indexFile] has written holds an index block: the
    library's next run on it reports [updated]; the tool's [verifyIndex]
    does not report a missing index, its [removeIndex] removes a block, and
    its next successful run reports [Updated]. *)
Theorem indexed_file_has_block :
  forall (now filePath : str) (fs fs' : FS),
    (forall r,
        Lib.indexFile now filePath fs = Return (r, fs') ->
        forall now', exists r' fs'',
          Lib.indexFile now' filePath fs' = Return (r', fs'')
          /\ Lib.r_action r' = lit "updated")
    /\ (forall options n total action,
           Cli.indexFile now filePath options fs
           = Return (Cli.Success n total action, fs') ->
           Cli.verifyIndex filePath fs' <> Return Cli.NoIndex
           /\ (exists fs'', Cli.removeIndex filePath fs' = Return (true, fs''))
           /\ forall now' options' n' total' action' fs'',
               Cli.indexFile now' filePath options' fs'
               = Return (Cli.Success n' total' action', fs'') ->
               action' = lit "Updated").
Proof.
  intros now filePath fs fs'.
  assert (Hnew : forall content block sections total,
             block = Lib.generateIndex now sections total ->
             Lib.parseIndex
               (Lib.newContent content block (Lib.parseIndex content))
             <> None).
  { intros content block sections total ->. unfold Lib.newContent.
    destruct (Lib.parseIndex content) as [existing|].
    - apply generated_block_some.
    - destruct (exec Lib.shebangRe content) as [m|].
      + apply generated_block_some.
      + apply (generated_block_some now sections total []). }
  split.
  - intros r Hrun now'. unfold Lib.indexFile, readFile in Hrun.
    destruct (fs filePath) as [content|]; [|discriminate].
    destruct (Lib.getLanguagePlugin filePath) as [plugin|] eqn:Hplugin;
      [|discriminate].
    destruct (writeFile filePath _ fs) as [fs1|] eqn:Hw; [|discriminate].
    injection Hrun as _ <-. apply writeFile_inv in Hw. destruct Hw as [Hro ->].
    unfold Lib.indexFile, readFile. rewrite withFile_same, Hplugin.
    unfold writeFile at 1. cbn [readOnly withFile]. rewrite Hro.
    eexists. eexists. split; [reflexivity|]. cbn [Lib.r_action].
    destruct (Lib.parseIndex (Lib.newContent _ _ _)) eqn:Hp; [reflexivity|].
    exfalso. revert Hp. eapply Hnew. reflexivity.
  - intros options n total action Hrun.
    unfold Cli.indexFile, readFile in Hrun.
    destruct (fs filePath) as [content|]; [|discriminate].
    destruct (match Cli.minLines options with Some _ => _ | None => _ end);
      [discriminate|].
    destruct (Cli.getLanguagePlugin filePath) as [plugin|]; [|discriminate].
    destruct (Cli.describeAll _) as [sections|]; [|discriminate].
    destruct (writeFile filePath _ fs) as [fs1|] eqn:Hw; [|discriminate].
    injection Hrun as _ _ _ <-. apply writeFile_inv in Hw.
    destruct Hw as [Hro ->]. revert Hro.
    unfold Cli.insertIndex, Cli.generateIndexBlock, Cli.parseExistingIndex.
    pose proof (Hnew content _ sections (Z.of_nat (length (split_nl content)))
                     eq_refl) as Hp.
    set (written := Lib.newContent content _ _) in *. clearbody written.
    intros Hro. split; [|split].
    + unfold Cli.verifyIndex, readFile, Cli.parseExistingIndex.
      rewrite withFile_same.
      destruct (Lib.parseIndex written); [|contradiction].
      destruct (Cli.issues _ _ _); discriminate.
    + unfold Cli.removeIndex, readFile, Cli.parseExistingIndex.
      rewrite withFile_same.
      destruct (Lib.parseIndex written); [|contradiction].
      unfold writeFile. cbn [readOnly withFile]. rewrite Hro.
      eexists. reflexivity.
    + intros now' options' n' total' action' fs'' Hrun.
      unfold Cli.indexFile, readFile, Cli.parseExistingIndex in Hrun.
      rewrite withFile_same in Hrun.
      destruct (match Cli.minLines options' with Some _ => _ | None => _ end);
        [discriminate|].
      destruct (Cli.getLanguagePlugin filePath); [|discriminate].
      destruct (Cli.describeAll _); [|discriminate].
      destruct (Lib.parseIndex written); [|contradiction].
      destruct (writeFile filePath _ _); [|discriminate].
      injection Hrun as _ _ <- _. reflexivity.
Qed.

Lemma indexed_file_has_block_witness :
  exists r fs' r' fs'',
    Lib.indexFile Sample.now (lit "a.ts")
                  (Sample.single (lit "a.ts") Sample.imports_ts)
    = Return (r, fs')
    /\ Lib.indexFile Sample.now (lit "a.ts") fs' = Return (r', fs'')
    /\ Lib.r_action r' = lit "updated".
Proof.
  destruct (Lib.indexFile Sample.now (lit "a.ts")
              (Sample.single (lit "a.ts") Sample.imports_ts))
    as [[r fs']|] eqn:E; [|vm_compute in E; discriminate].
  destruct (indexed_file_has_block Sample.now (lit "a.ts")
              (Sample.single (lit "a.ts") Sample.imports_ts) fs') as [H _].
  destruct (H r E Sample.now) as (r' & fs'' & H1 & H2).
  exists r, fs', r', fs''. auto.
Defined.

(** X11.  Indexing again replaces exactly the block that was put in: when
    a block generated from texts without the terminator [*/] was inserted
    into a content without a block, putting a new block in place of the one
    [parseIndex] finds gives the content with the new block inserted;
    nothing of the old block stays and nothing of the content goes. *)
Theorem reindex_replaces_block :
  forall (now : str) (sections : list Section) (totalLines : Z)
         (content block' : str),
    open_text now = true -> forallb open_section sections = true ->
    let written :=
      Lib.newContent content (Lib.generateIndex now sections totalLines) None in
    Lib.newContent written block' (Lib.parseIndex written)
    = Lib.newContent content block' None.
Proof.
  intros now sections totalLines content block' Hnow Hall written.
  destruct (newContent_shape content) as (Hc & Hnew & Hfirst).
  unfold written. rewrite !Hnew.
  set (first := shebang_line content) in *. clearbody first.
  set (others := skipn (length first) content) in *. clearbody others.
  destruct (generated_block_found now sections totalLines first
              ([nl; nl] ++ others) Hfirst)
    as (parsed & H1 & H2 & _ & H4).
  destruct (H4 Hnow Hall) as [_ H5].
  rewrite H1. unfold Lib.newContent. rewrite H2, H5.
  destruct (splice_parts first (Lib.generateIndex now sections totalLines)
              ([nl; nl] ++ others)) as [-> ->].
  reflexivity.
Qed.

Lemma reindex_replaces_block_witness :
  let written :=
    Lib.newContent (lit "#!/bin/sh" ++ [nl] ++ lit "x")
      (Lib.generateIndex Sample.now
         [mkSection (lit "main") 1 2 (Some (lit "Main content"))] 2) None in
  Lib.newContent written (lit "B") (Lib.parseIndex written)
  = lit "#!/bin/sh" ++ [nl] ++ lit "B" ++ [nl; nl] ++ lit "x".
Proof.
  cbv zeta.
  rewrite (reindex_replaces_block Sample.now
             [mkSection (lit "main") 1 2 (Some (lit "Main content"))] 2
             (lit "#!/bin/sh" ++ [nl] ++ lit "x") (lit "B"));
    vm_compute; reflexivity.
Defined.

(** With a terminator in a name, the end of the old block stays in the
    file when the block is replaced. *)
Lemma terminator_in_name_leaves_rest :
  let written :=
    Lib.newContent (lit "x")
      (Lib.generateIndex Sample.now [mkSection (lit "a*/b") 1 1 (Some [])] 1)
      None in
  let again := Lib.newContent written (lit "B") (Lib.parseIndex written) in
  (startsWith (lit "Bb ") again, eqs again (lit "B" ++ [nl; nl] ++ lit "x"))
  = (true, false).
Proof. vm_compute. reflexivity. Qed.

(** X12.  [removeIndex] undoes [insertIndex]: from a file that holds a
    content into which a block generated from texts without the terminator
    [*/] was inserted, it removes that block and the line feeds around it,
    and leaves the content, less the line feeds at its start (after the
    shebang line, when there is one).  A content that does not start there
    with a line feed is restored as it was.  (The file is one that can be
    written; [removeIndex] throws on a block in a read-only file.) *)
Theorem remove_undoes_insert :
  forall (now : str) (sections : list Section) (totalLines : Z)
         (content filePath : str) (fs : FS),
    open_text now = true -> forallb open_section sections = true ->
    fs filePath
    = Some (Cli.insertIndex content
              (Cli.generateIndexBlock now sections totalLines) None) ->
    readOnly fs filePath = false ->
    exists fs' k others,
      Cli.removeIndex filePath fs = Return (true, fs')
      /\ content = shebang_line content ++ repeat nl k ++ others
      /\ hd_error others <> Some nl
      /\ fs' filePath = Some (shebang_line content ++ others)
      /\ (k = 0 -> fs' filePath = Some content).
Proof.
  intros now sections totalLines content filePath fs Hnow Hall Hfs Hro.
  unfold Cli.insertIndex, Cli.generateIndexBlock in Hfs.
  destruct (newContent_shape content) as (Hc & Hnew & Hfirst).
  rewrite Hnew in Hfs.
  set (first := shebang_line content) in *. clearbody first.
  set (rest0 := skipn (length first) content) in *. clearbody rest0.
  destruct (generated_block_found now sections totalLines first
              ([nl; nl] ++ rest0) Hfirst)
    as (parsed & H1 & H2 & _ & H4).
  destruct (H4 Hnow Hall) as [_ H5].
  unfold Cli.removeIndex, readFile, Cli.parseExistingIndex.
  rewrite Hfs, H1, H2, H5.
  destruct (splice_parts first (Lib.generateIndex now sections totalLines)
              ([nl; nl] ++ rest0)) as [-> ->].
  destruct (leading_feeds ([nl; nl] ++ rest0)) as (k' & post & H6 & H7 & H8).
  rewrite H8. unfold writeFile. rewrite Hro.
  assert (Hk : exists k, rest0 = repeat nl k ++ post).
  { destruct k' as [|[|k]].
    - cbn [repeat app] in H6. subst post. exfalso. apply H7. reflexivity.
    - cbn [repeat app] in H6. injection H6 as H6. subst post.
      exfalso. apply H7. reflexivity.
    - cbn [repeat app] in H6. injection H6 as H6. exists k. exact H6. }
  destruct Hk as [k Hk].
  eexists. exists k, post. split; [reflexivity|].
  rewrite withFile_same, Hc, Hk. repeat split; auto.
  intros ->. reflexivity.
Qed.

Lemma remove_undoes_insert_witness :
  exists fs',
    Cli.removeIndex (lit "a.sh")
      (Sample.single (lit "a.sh")
         (Cli.insertIndex (lit "#!/bin/sh" ++ [nl] ++ lit "x")
            (Cli.generateIndexBlock Sample.now
               [mkSection (lit "main") 1 2 (Some (lit "Main content"))] 2)
            None))
    = Return (true, fs')
    /\ fs' (lit "a.sh") = Some (lit "#!/bin/sh" ++ [nl] ++ lit "x").
Proof.
  destruct (remove_undoes_insert Sample.now
              [mkSection (lit "main") 1 2 (Some (lit "Main content"))] 2
              (lit "#!/bin/sh" ++ [nl] ++ lit "x") (lit "a.sh")
              (Sample.single (lit "a.sh")
                 (Cli.insertIndex (lit "#!/bin/sh" ++ [nl] ++ lit "x")
                    (Cli.generateIndexBlock Sample.now
                       [mkSection (lit "main") 1 2 (Some (lit "Main content"))] 2)
                    None)))
    as (fs' & k & others & H1 & H2 & H3 & H4 & H5);
    [vm_compute; reflexivity|vm_compute; reflexivity|vm_compute; reflexivity
    |reflexivity|].
  exists fs'. split; [exact H1|]. apply H5.
  destruct k as [|k]; [reflexivity|].
  exfalso. vm_compute in H2. discriminate.
Defined.

(* ------------------------------------------------------------------ *)
(** * The descriptions the tool adds                                   *)
(* ------------------------------------------------------------------ *)

Lemma inherited_not_described k :
  Cli.inherited k = true -> find_own k Cli.descMap = None.
Proof.
  unfold Cli.inherited. intros H. apply orb_prop in H.
  destruct H as [H|H].
  - apply eqs_true in H. subst k. vm_compute. reflexivity.
  - apply existsb_exists in H. destruct H as (x & Hx & Hk).
    apply eqs_true in Hk. subst x.
    unfold object_prototype_keys in Hx. cbn [map In] in Hx.
    repeat (destruct Hx as [<-|Hx]; [vm_compute; reflexivity|]).
    contradiction.
Qed.

Lemma describe_none s :
  Cli.describe s = None
  <-> truthy (desc s) = false /\ Cli.inherited (name s) = true.
Proof.
  unfold Cli.describe. split.
  - destruct (truthy (desc s)); [discriminate|].
    destruct (find_own (name s) Cli.descMap); [discriminate|].
    destruct (Cli.inherited (name s)); [auto|discriminate].
  - intros [-> Hi]. rewrite (inherited_not_described _ Hi), Hi. reflexivity.
Qed.

Lemma describeAll_none sections :
  Cli.describeAll sections = None
  <-> exists s, In s sections /\ Cli.describe s = None.
Proof.
  induction sections as [|s t IH]; cbn [Cli.describeAll].
  - split; [discriminate|]. intros (s & [] & _).
  - destruct (Cli.describe s) as [s'|] eqn:Hd.
    + destruct (Cli.describeAll t) as [t'|].
      * split; [discriminate|]. intros (x & [<-|Hx] & Hn); [congruence|].
        destruct IH as [_ IH]. discriminate IH. exists x. auto.
      * split; [|reflexivity]. intros _. destruct IH as [IH _].
        destruct (IH eq_refl) as (x & Hx & Hn). exists x. split; [right|]; auto.
    + split; [|reflexivity]. intros _. exists s. split; [left|]; auto.
Qed.

Lemma describeAll_some sections : forall described,
  Cli.describeAll sections = Some described ->
  Forall2 (fun s s' =>
             name s' = name s /\ span_of s' = span_of s
             /\ (exists d, desc s' = Some d)
             /\ (truthy (desc s) = true -> s' = s))
          sections described.
Proof.
  induction sections as [|s t IH]; intros described H; cbn [Cli.describeAll] in H.
  - injection H as <-. constructor.
  - destruct (Cli.describe s) as [s'|] eqn:Hd; [|discriminate].
    destruct (Cli.describeAll t) as [t'|]; [|discriminate].
    injection H as <-. constructor; [|apply IH; reflexivity].
    unfold Cli.describe in Hd. destruct (truthy (desc s)) eqn:Ht.
    + injection Hd as <-. repeat split; auto.
      destruct (desc s) as [d|]; [exists d; reflexivity|discriminate].
    + destruct (find_own (name s) Cli.descMap) as [d|].
      * injection Hd as <-. repeat split; [exists d; reflexivity|discriminate].
      * destruct (Cli.inherited (name s)); [discriminate|].
        injection Hd as <-. repeat split; [exists []; reflexivity|discriminate].
Qed.

(** X13.  On a file of moderate size (at most 10000 code units, far from
    the engine's limits on the length of a string and on the number of
    values spread into [Math.max]) the tool's [indexFile] throws in three
    cases only: the file cannot be read; or the file passes the line
    threshold, its type is supported, and one of the sections found has no
    description and a name that [descMap] inherits from [Object.prototype]
    (such as [constructor]): the description then becomes a value that is
    no string; or the file passes the threshold, its type is supported
    and the file cannot be written.  When the descriptions can be added,
    the sections keep their names and ranges, every section gets a
    description, and a section that had one keeps it. *)
Theorem cli_indexFile_throws :
  forall (now filePath : str) (options : Cli.Options) (fs : FS),
    (forall content,
        fs filePath = Some content -> (Z.of_nat (length content) <= 10000)%Z) ->
    ((exists message, Cli.indexFile now filePath options fs = Throw message)
     <-> fs filePath = None
         \/ exists content plugin,
              fs filePath = Some content
              /\ match Cli.minLines options with
                 | Some m => (m = 0 \/ m <= Z.of_nat (length (split_nl content)))%Z
                 | None => True
                 end
              /\ Cli.getLanguagePlugin filePath = Some plugin
              /\ ((exists s,
                      In s (Cli.resolve content plugin)
                      /\ truthy (desc s) = false
                      /\ Cli.inherited (name s) = true)
                  \/ readOnly fs filePath = true))
    /\ (forall sections described,
           Cli.describeAll sections = Some described ->
           Forall2 (fun s s' =>
                      name s' = name s /\ span_of s' = span_of s
                      /\ (exists d, desc s' = Some d)
                      /\ (truthy (desc s) = true -> s' = s))
                   sections described).
Proof.
  intros now filePath options fs _. split; [|apply describeAll_some].
  unfold Cli.indexFile, readFile.
  destruct (fs filePath) as [content|].
  2:{ split; [auto|]. intros _. eexists. reflexivity. }
  set (n := Z.of_nat (length (split_nl content))).
  assert (Hguard : match Cli.minLines options with
                   | Some m => negb (m =? 0)%Z && (n <? m)%Z
                   | None => false
                   end = false
                   <-> match Cli.minLines options with
                       | Some m => (m = 0 \/ m <= n)%Z
                       | None => True
                       end).
  { destruct (Cli.minLines options) as [m|]; [|tauto].
    destruct (Z.eqb_spec m 0); destruct (Z.ltb_spec n m); cbn [negb andb];
      split; auto; try lia; intros [?|?]; lia. }
  destruct (match Cli.minLines options with Some _ => _ | None => _ end).
  { split; [intros [? H]; discriminate|].
    intros [H|(c & p & Hc & Hm & _)]; [discriminate|].
    injection Hc as <-. apply Hguard in Hm. discriminate. }
  destruct (Cli.getLanguagePlugin filePath) as [plugin|].
  2:{ split; [intros [? H]; discriminate|].
      intros [H|(c & p & _ & _ & Hp & _)]; discriminate. }
  destruct (Cli.describeAll (Cli.resolve content plugin)) as [described|] eqn:Hd.
  - unfold writeFile. destruct (readOnly fs filePath).
    + split; [|intros _; eexists; reflexivity].
      intros _. right. exists content, plugin. repeat split; try tauto.
    + split; [intros [? H]; discriminate|].
      intros [H|(c & p & Hc & _ & Hp & [(s & Hin & Ht & Hi)|Hro])];
        [discriminate| |discriminate].
      injection Hc as <-. injection Hp as <-.
      assert (Hn : Cli.describeAll (Cli.resolve content plugin) = None).
      { apply describeAll_none. exists s. split; [exact Hin|].
        apply describe_none. auto. }
      congruence.
  - split; [|intros _; eexists; reflexivity].
    intros _. right. apply describeAll_none in Hd.
    destruct Hd as (s & Hin & Hn). apply describe_none in Hn.
    exists content, plugin. repeat split; try tauto.
    left. exists s. tauto.
Qed.

(** A marker that names a section [constructor] makes the tool throw; the
    library, which adds no descriptions, indexes the file. *)
Lemma section_named_constructor :
  let fs := Sample.single (lit "a.ts") (lit "// SECTION: constructor" ++ [nl] ++ lit "x") in
  (match Cli.indexFile Sample.now (lit "a.ts") (Cli.mkOptions None) fs with
   | Throw _ => true
   | Return _ => false
   end,
   match Lib.indexFile Sample.now (lit "a.ts") fs with
   | Throw _ => true
   | Return _ => false
   end)
  = (true, false).
Proof. vm_compute. reflexivity. Qed.

(** A read-only file: the tool throws at the write, after it has found
    the sections. *)
Lemma cli_indexFile_throws_witness :
  let fs := mkFS (Sample.single (lit "a.ts") Sample.imports_ts)
                 (fun _ => true) (fun _ => true) (fun _ => true) in
  (forall content,
      fs (lit "a.ts") = Some content -> (Z.of_nat (length content) <= 10000)%Z)
  /\ exists message,
       Cli.indexFile Sample.now (lit "a.ts") (Cli.mkOptions None) fs
       = Throw message.
Proof.
  cbv zeta.
  assert (Hsmall : forall content,
             mkFS (Sample.single (lit "a.ts") Sample.imports_ts)
                  (fun _ => true) (fun _ => true) (fun _ => true) (lit "a.ts")
             = Some content ->
             (Z.of_nat (length content) <= 10000)%Z).
  { intros content H. vm_compute in H. injection H as <-.
    vm_compute. discriminate. }
  split; [exact Hsmall|].
  destruct (cli_indexFile_throws Sample.now (lit "a.ts") (Cli.mkOptions None)
              _ Hsmall) as [[_ H] _].
  apply H. right. exists Sample.imports_ts.
  destruct (Cli.getLanguagePlugin (lit "a.ts")) as [plugin|] eqn:Hp;
    [|vm_compute in Hp; discriminate].
  exists plugin. repeat split. right. reflexivity.
Defined.

(* ------------------------------------------------------------------ *)
(** * Files of a type the server does not know                         *)
(* ------------------------------------------------------------------ *)

(** Joining the lines of a text gives the text back. *)
Lemma join_split s : join_nl (split_nl s) = s.
Proof.
  induction s as [|c t IH]; [reflexivity|].
  cbn [split_nl]. pose proof (split_nl_nonempty t) as Hne.
  destruct (c =? nl)%N eqn:Hc.
  - apply N.eqb_eq in Hc. subst c.
    destruct (split_nl t) as [|l ls]; [contradiction|].
    cbn [join_nl app]. cbn [join_nl] in IH. rewrite IH. reflexivity.
  - destruct (split_nl t) as [|l ls]; [contradiction|].
    cbn [join_nl] in *. destruct ls as [|l' ls'].
    + rewrite IH. reflexivity.
    + cbn [app]. rewrite IH. reflexivity.
Qed.

Lemma explicitLoop_no_config lines : forall lineNum st,
  Server.explicitLoop None lines lineNum st = st.
Proof.
  induction lines as [|l t IH]; intros lineNum st; [reflexivity|].
  cbn [Server.explicitLoop]. rewrite IH. destruct st. reflexivity.
Qed.

Lemma autoLoop_no_rules lines : forall i st,
  Server.autoLoop [] lines i st = st.
Proof.
  induction lines as [|l t IH]; intros i st; [reflexivity|].
  cbn [Server.autoLoop]. rewrite IH. destruct st. reflexivity.
Qed.

Lemma slice_array_all (A : Type) (l : list A) :
  Server.slice_array (1 - 1) (Z.of_nat (length l)) l = l.
Proof.
  unfold Server.slice_array. cbn [Z.sub Z.add Z.opp Z.pos_sub Z.ltb Z.compare].
  replace (Z.of_nat (length l) <? 0)%Z with false by (symmetry; apply Z.ltb_ge; lia).
  rewrite Z.min_id.
  replace (Z.min 0 (Z.of_nat (length l))) with 0%Z by lia.
  rewrite Z.sub_0_r, Nat2Z.id. cbn [Z.to_nat skipn]. apply firstn_all.
Qed.

(** X14.  For a file whose extension the server does not know, the index
    is the single section [main] over all the lines, with language
    [unknown]; reading [main] returns the whole text of the file, and any
    other name is answered with the error and the one name [main]. *)
Theorem server_unknown_type :
  forall (filePath content : str) (fs : FS),
    fs filePath = Some content ->
    Server.detectLanguage filePath = None ->
    let n := Z.of_nat (length (split_nl content)) in
    Server.generateIndex filePath fs
    = Return (Server.mkIndex filePath (lit "unknown") n
                [Server.mkSection (lit "main") (lit "Main content") 1 n n])
    /\ Server.readSection filePath (lit "main") fs
       = Return (Server.Found (lit "main") 1 n content)
    /\ forall sectionName,
         sectionName <> lit "main" ->
         Server.readSection filePath sectionName fs
         = Return (Server.NotFound
                     (lit "Section " ++ dq ++ sectionName ++ dq ++ lit " not found")
                     [lit "main"]).
Proof.
  intros filePath content fs Hread Hlang n.
  assert (Hgen : Server.generateIndex filePath fs
                 = Return (Server.mkIndex filePath (lit "unknown") n
                             [Server.mkSection (lit "main") (lit "Main content")
                                               1 n n])).
  { unfold Server.generateIndex, readFile. rewrite Hread, Hlang.
    unfold Server.resolve, Server.detectSectionsExplicit,
      Server.detectSectionsAuto, Server.langPatterns.
    rewrite explicitLoop_no_config, autoLoop_no_rules. reflexivity. }
  split; [exact Hgen|].
  unfold Server.readSection, readFile. rewrite Hgen, Hread.
  cbn [Server.sections find Server.name]. split.
  - rewrite eqs_refl. cbn [Server.name Server.line Server.end_].
    unfold n. rewrite slice_array_all, join_split. reflexivity.
  - intros sectionName Hne.
    destruct (eqs (lit "main") sectionName) eqn:He; [|reflexivity].
    apply eqs_true in He. congruence.
Qed.

Lemma server_unknown_type_witness :
  Server.readSection (lit "notes.txt") (lit "main") Sample.notes
  = Return (Server.Found (lit "main") 1 1 (lit "hello")).
Proof.
  destruct (server_unknown_type (lit "notes.txt") (lit "hello") Sample.notes)
    as (_ & H & _); [reflexivity|vm_compute; reflexivity|].
  exact H.
Defined.
(* ------------------------------------------------------------------ *)
(** * The languages the three programs know                            *)
(* ------------------------------------------------------------------ *)

(** The name a registry gives to an extension: the registry as a list of
    extension lists with names. *)
Lemma find_name (A : Type) (exts : A -> list str) (nm : A -> str) ext (l : list A) :
  option_map nm (find (fun x => existsb (eqs ext) (exts x)) l)
  = option_map snd
      (find (fun x => existsb (eqs ext) (fst x)) (map (fun x => (exts x, nm x)) l)).
Proof.
  induction l as [|a t IH]; [reflexivity|].
  cbn [find map fst]. destruct (existsb (eqs ext) (exts a)); [reflexivity|exact IH].
Qed.

Ltac by_extension ext :=
  repeat match goal with
         | |- context [eqs ext ?e] =>
             let H := fresh "H" in
             destruct (eqs ext e) eqn:H;
             [apply eqs_true in H; subst ext; vm_compute; reflexivity|]
         end.

(** X15.  The library and the tool give every path the same language.
    The server gives it the same language too, with two differences: it
    does not know the JSON extensions, and it takes [.kt] and [.scala] for
    Java. *)
Theorem languages_of_a_path :
  forall filePath : str,
    option_map p_name (Cli.getLanguagePlugin filePath)
    = option_map p_name (Lib.getLanguagePlugin filePath)
    /\ option_map Server.lang (Server.detectLanguage filePath)
       = match option_map p_name (Lib.getLanguagePlugin filePath) with
         | Some n => if eqs n (lit "json") then None else Some n
         | None =>
             if existsb (eqs (toLowerCase (extname filePath)))
                        [lit ".kt"; lit ".scala"]
             then Some (lit "java") else None
         end.
Proof.
  intros filePath.
  unfold Cli.getLanguagePlugin, Lib.getLanguagePlugin, Server.detectLanguage.
  cbv zeta. generalize (toLowerCase (extname filePath)). intros ext.
  rewrite (find_name Plugin extensions p_name ext Cli.LANGUAGE_PLUGINS).
  rewrite (find_name Plugin extensions p_name ext Lib.LANGUAGE_PLUGINS).
  rewrite (find_name Server.LangConfig Server.extensions Server.lang ext
                     Server.LANGUAGE_CONFIG).
  split.
  - replace (map (fun x => (extensions x, p_name x)) Cli.LANGUAGE_PLUGINS)
      with (map (fun x => (extensions x, p_name x)) Lib.LANGUAGE_PLUGINS)
      by (vm_compute; reflexivity).
    reflexivity.
  - set (lib := map (fun x => (extensions x, p_name x)) Lib.LANGUAGE_PLUGINS).
    set (server := map (fun x => (Server.extensions x, Server.lang x))
                       Server.LANGUAGE_CONFIG).
    set (others := [lit ".kt"; lit ".scala"]).
    vm_compute in lib. vm_compute in server. vm_compute in others.
    subst lib server others.
    cbn [find existsb fst].
    by_extension ext.
    reflexivity.
Qed.
(* ------------------------------------------------------------------ *)
(** * What the writers change and report                               *)
(* ------------------------------------------------------------------ *)

Lemma writeFile_frame path content fs fs' :
  writeFile path content fs = Return fs' ->
  fs' path = Some content /\ forall p, p <> path -> fs' p = fs p.
Proof.
  intros H. apply writeFile_inv in H. destruct H as [_ ->].
  split; [apply withFile_same|]. intros p. apply withFile_other.
Qed.

Lemma lib_resolve_count content plugin :
  (1 <= Z.of_nat (length (Lib.resolve content plugin))
   <= Z.of_nat (length (split_nl content)))%Z.
Proof.
  pose proof (chain_length _ _ _ (lib_resolve_chain content plugin)) as H.
  rewrite length_map in H. split; [|lia].
  unfold Lib.resolve. destruct (Lib.findSections content (Some plugin));
    cbn [length]; lia.
Qed.

Lemma cli_resolve_count content plugin :
  (1 <= Z.of_nat (length (Cli.resolve content plugin))
   <= Z.of_nat (length (split_nl content)))%Z.
Proof.
  pose proof (chain_length _ _ _ (cli_resolve_chain content plugin)) as H.
  rewrite length_map in H. split; [|lia].
  unfold Cli.resolve. destruct (Cli.findExplicitSections content (Some plugin));
    [|cbn [length]; lia].
  destruct (Cli.detectSectionsAuto content (Some plugin)); cbn [length]; lia.
Qed.

Lemma describeAll_length sections : forall described,
  Cli.describeAll sections = Some described -> length described = length sections.
Proof.
  induction sections as [|s t IH]; intros described H; cbn [Cli.describeAll] in H.
  - injection H as <-. reflexivity.
  - destruct (Cli.describe s); [|discriminate].
    destruct (Cli.describeAll t) as [t'|]; [|discriminate].
    injection H as <-. cbn [length]. rewrite (IH t' eq_refl). reflexivity.
Qed.

(** X16.  A run of [indexFile] or [removeIndex] changes no file but the
    one it is given, and a run that skips the file or finds no block
    changes nothing.  A run of [indexFile] that writes reports the number
    of lines the file had before, and a number of sections between 1 and
    that number of lines. *)
Theorem writers_frame :
  forall (now filePath : str) (fs fs' : FS),
    (forall r,
        Lib.indexFile now filePath fs = Return (r, fs') ->
        (forall p, p <> filePath -> fs' p = fs p)
        /\ exists content content',
             fs filePath = Some content /\ fs' filePath = Some content'
             /\ Lib.r_totalLines r = Z.of_nat (length (split_nl content))
             /\ (1 <= Z.of_nat (Lib.r_sections r) <= Lib.r_totalLines r)%Z)
    /\ (forall options res,
           Cli.indexFile now filePath options fs = Return (res, fs') ->
           (forall p, p <> filePath -> fs' p = fs p)
           /\ exists content,
                fs filePath = Some content
                /\ match res with
                   | Cli.Skipped _ => fs' = fs
                   | Cli.Success n total _ =>
                       fs' filePath <> None
                       /\ total = Z.of_nat (length (split_nl content))
                       /\ (1 <= Z.of_nat n <= total)%Z
                   end)
    /\ (forall removed,
           Cli.removeIndex filePath fs = Return (removed, fs') ->
           (forall p, p <> filePath -> fs' p = fs p)
           /\ (removed = false -> fs' = fs)).
Proof.
  intros now filePath fs fs'. split; [|split].
  - intros r H. unfold Lib.indexFile, readFile in H.
    destruct (fs filePath) as [content|] eqn:Hread; [|discriminate].
    destruct (Lib.getLanguagePlugin filePath) as [plugin|]; [|discriminate].
    destruct (writeFile filePath _ fs) as [fs1|] eqn:Hwr; [|discriminate].
    injection H as <- <-.
    destruct (writeFile_frame _ _ _ _ Hwr) as [Hw Hframe].
    split; [exact Hframe|]. eexists. eexists.
    split; [reflexivity|]. split; [exact Hw|]. split; [reflexivity|].
    apply lib_resolve_count.
  - intros options res H. unfold Cli.indexFile, readFile in H.
    destruct (fs filePath) as [content|] eqn:Hread; [|discriminate].
    destruct (match Cli.minLines options with Some _ => _ | None => _ end).
    { injection H as <- <-. split; [reflexivity|]. exists content. auto. }
    destruct (Cli.getLanguagePlugin filePath) as [plugin|].
    2:{ injection H as <- <-. split; [reflexivity|]. exists content. auto. }
    destruct (Cli.describeAll (Cli.resolve content plugin)) as [described|] eqn:Hd;
      [|discriminate].
    destruct (writeFile filePath _ fs) as [fs1|] eqn:Hwr; [|discriminate].
    injection H as <- <-.
    destruct (writeFile_frame _ _ _ _ Hwr) as [Hw Hframe].
    split; [exact Hframe|]. exists content. split; [reflexivity|].
    split; [rewrite Hw; discriminate|]. split; [reflexivity|].
    rewrite (describeAll_length _ _ Hd). apply cli_resolve_count.
  - intros removed H. unfold Cli.removeIndex, readFile in H.
    destruct (fs filePath) as [content|]; [|discriminate].
    destruct (Cli.parseExistingIndex content) as [existing|].
    + destruct (writeFile filePath _ fs) as [fs1|] eqn:Hwr; [|discriminate].
      injection H as <- <-.
      split; [apply (writeFile_frame _ _ _ _ Hwr)|discriminate].
    + injection H as <- <-. auto.
Qed.

Lemma writers_frame_witness :
  exists fs',
    Cli.indexFile Sample.now (lit "notes.txt") (Cli.mkOptions None) Sample.notes
    = Return (Cli.Skipped (lit "unsupported"), fs')
    /\ fs' = Sample.notes.
Proof.
  exists Sample.notes. split; [vm_compute; reflexivity|].
  destruct (writers_frame Sample.now (lit "notes.txt") Sample.notes Sample.notes)
    as (_ & H & _).
  destruct (H (Cli.mkOptions None) (Cli.Skipped (lit "unsupported")))
    as (_ & content & _ & Heq); [vm_compute; reflexivity|exact Heq].
Defined.
(* ------------------------------------------------------------------ *)
(** * When an index is valid                                           *)
(* ------------------------------------------------------------------ *)

Lemma flat_map_nil_iff (A B : Type) (f : A -> list B) (l : list A) :
  flat_map f l = [] <-> forall x, In x l -> f x = [].
Proof.
  split; [|apply flat_map_nil].
  induction l as [|a t IH]; cbn [flat_map]; intros H x Hx; [contradiction|].
  apply app_eq_nil in H. destruct H as [Ha Ht].
  destruct Hx as [<-|Hx]; [exact Ha|exact (IH Ht x Hx)].
Qed.

(** X17.  [verifyIndex] answers [valid: true] exactly when the file has
    an index block, no stored section has a line or an end beyond the last
    line of the file, and every explicit section of the file has a stored
    entry under its name whose line is within five lines of the section's
    (a name that the stored object inherits from [Object.prototype] passes
    for an entry).  It answers [no-index] exactly when the file has no
    block, and the list of errors it returns is never empty. *)
Theorem verify_valid_iff :
  forall (filePath : str) (fs : FS),
    (Cli.verifyIndex filePath fs = Return Cli.Valid
     <-> exists content existing,
           fs filePath = Some content
           /\ Cli.parseExistingIndex content = Some existing
           /\ (forall k e,
                  In (k, e) (entries (sections existing)) ->
                  (e_line e <= Z.of_nat (length (split_nl content))
                   /\ e_end e <= Z.of_nat (length (split_nl content)))%Z)
           /\ (forall s,
                  In s (Cli.findExplicitSections content
                          (Cli.getLanguagePlugin filePath)) ->
                  match lookup (name s) (sections existing) with
                  | Stored e => (Z.abs (e_line e - line s) <= 5)%Z
                  | Other inherited => inherited = true
                  | Undefined => False
                  end))
    /\ (Cli.verifyIndex filePath fs = Return Cli.NoIndex
        <-> exists content,
              fs filePath = Some content
              /\ Cli.parseExistingIndex content = None)
    /\ Cli.verifyIndex filePath fs <> Return (Cli.Invalid []).
Proof.
  intros filePath fs. unfold Cli.verifyIndex, readFile.
  destruct (fs filePath) as [content|].
  2:{ split; [|split]; try discriminate.
      - split; [discriminate|]. intros (c & e & H & _). discriminate.
      - split; [discriminate|]. intros (c & H & _). discriminate. }
  destruct (Cli.parseExistingIndex content) as [existing|] eqn:Hp.
  2:{ split; [|split]; try discriminate.
      - split; [discriminate|]. intros (c & e & H1 & H2 & _).
        injection H1 as <-. congruence.
      - split; [|reflexivity]. intros _. exists content. auto. }
  assert (Hiss : Cli.issues content (Cli.getLanguagePlugin filePath) existing = []
                 <-> (forall k e,
                         In (k, e) (entries (sections existing)) ->
                         (e_line e <= Z.of_nat (length (split_nl content))
                          /\ e_end e <= Z.of_nat (length (split_nl content)))%Z)
                     /\ (forall s,
                            In s (Cli.findExplicitSections content
                                    (Cli.getLanguagePlugin filePath)) ->
                            match lookup (name s) (sections existing) with
                            | Stored e => (Z.abs (e_line e - line s) <= 5)%Z
                            | Other inherited => inherited = true
                            | Undefined => False
                            end)).
  { unfold Cli.issues. cbv zeta. split.
    - intros H. apply app_eq_nil in H. destruct H as [Hr Hd]. split.
      + intros k e Hin. unfold Cli.rangeIssues in Hr.
        rewrite flat_map_nil_iff in Hr. specialize (Hr (k, e) Hin).
        cbn [fst snd] in Hr.
        destruct (_ || _)%bool eqn:Hb in Hr; [discriminate|].
        apply orb_false_elim in Hb. destruct Hb as [H1 H2].
        rewrite Z.gtb_ltb in H1, H2.
        apply Z.ltb_ge in H1. apply Z.ltb_ge in H2. lia.
      + intros s Hin. rewrite flat_map_nil_iff in Hd. specialize (Hd s Hin).
        unfold Cli.driftIssues in Hd.
        destruct (lookup (name s) (sections existing)) as [e|[|]|];
          try discriminate; [|reflexivity].
        destruct (_ >? 5)%Z eqn:Hb in Hd; [discriminate|].
        rewrite Z.gtb_ltb in Hb. apply Z.ltb_ge in Hb. exact Hb.
    - intros [Hr Hd].
      assert (Hnil : forall a b : list Cli.Issue, a = [] -> b = [] -> a ++ b = [])
        by (intros a b -> ->; reflexivity).
      apply Hnil.
      + unfold Cli.rangeIssues. apply flat_map_nil. intros [k e] Hin.
        cbn [fst snd]. destruct (Hr k e Hin) as [H1 H2].
        replace (e_line e >? _)%Z with false
          by (symmetry; rewrite Z.gtb_ltb; apply Z.ltb_ge; lia).
        replace (e_end e >? _)%Z with false
          by (symmetry; rewrite Z.gtb_ltb; apply Z.ltb_ge; lia).
        reflexivity.
      + apply flat_map_nil. intros s Hin. specialize (Hd s Hin).
        unfold Cli.driftIssues.
        destruct (lookup (name s) (sections existing)) as [e|[|]|];
          try discriminate; try contradiction; [|reflexivity].
        replace (_ >? 5)%Z with false
          by (symmetry; rewrite Z.gtb_ltb; apply Z.ltb_ge; lia).
        reflexivity. }
  split; [|split].
  - split.
    + intros H. exists content, existing. split; [reflexivity|].
      split; [exact Hp|]. apply Hiss.
      destruct (Cli.issues _ _ _); [reflexivity|discriminate].
    + intros (c & e & H1 & H2 & H3 & H4).
      injection H1 as <-. rewrite Hp in H2. injection H2 as <-.
      destruct Hiss as [_ Hiss]. rewrite (Hiss (conj H3 H4)). reflexivity.
  - split.
    + destruct (Cli.issues _ _ _); discriminate.
    + intros (c & H1 & H2). injection H1 as <-. congruence.
  - destruct (Cli.issues _ _ _); discriminate.
Qed.

(** A region named [constructor] that the index does not list is not
    reported as missing; a region named [other] is. *)
Lemma inherited_name_passes_for_an_entry :
  let file name :=
    Sample.single (lit "a.ts")
      (lit "/**" ++ [nl] ++ lit " * @ai-index" ++ [nl]
       ++ lit " * | main | 1 | 7 |" ++ [nl] ++ lit " */" ++ [nl]
       ++ lit "//#region " ++ name ++ [nl] ++ lit "x" ++ [nl]
       ++ lit "//#endregion") in
  Cli.verifyIndex (lit "a.ts") (file (lit "constructor")) = Return Cli.Valid
  /\ Cli.verifyIndex (lit "a.ts") (file (lit "other"))
     = Return (Cli.Invalid [Cli.MissingFromIndex (lit "other")]).
Proof. split; vm_compute; reflexivity. Qed.

(* ------------------------------------------------------------------ *)
(** * The run of the tool over its arguments                           *)
(* ------------------------------------------------------------------ *)

Lemma cli_indexFile_other now file options fs res fs' :
  Cli.indexFile now file options fs = Return (res, fs') ->
  forall p, p <> file -> fs' p = fs p.
Proof.
  unfold Cli.indexFile, readFile. intros H.
  destruct (fs file) as [content|]; [|discriminate].
  destruct (match Cli.minLines options with Some _ => _ | None => _ end);
    [injection H as _ <-; reflexivity|].
  destruct (Cli.getLanguagePlugin file); [|injection H as _ <-; reflexivity].
  destruct (Cli.describeAll _); [|discriminate].
  destruct (writeFile file _ fs) as [fs1|] eqn:Hwr; [|discriminate].
  injection H as _ <-. apply (writeFile_frame _ _ _ _ Hwr).
Qed.

Lemma cli_removeIndex_other file fs removed fs' :
  Cli.removeIndex file fs = Return (removed, fs') ->
  forall p, p <> file -> fs' p = fs p.
Proof.
  unfold Cli.removeIndex, readFile. intros H.
  destruct (fs file) as [content|]; [|discriminate].
  destruct (Cli.parseExistingIndex content); [|injection H as _ <-; reflexivity].
  destruct (writeFile file _ fs) as [fs1|] eqn:Hwr; [|discriminate].
  injection H as _ <-. apply (writeFile_frame _ _ _ _ Hwr).
Qed.

(** One file: one more in the summary, and no other file changes; with
    [--verify] no file changes and nothing is skipped. *)
Lemma processFile_spec clock options file results fs :
  let st := Cli.processFile clock options file (results, fs) in
  Cli.success (fst st) + Cli.skipped (fst st) + Cli.failed (fst st)
  = S (Cli.success results + Cli.skipped results + Cli.failed results)
  /\ (forall p, p <> file -> snd st p = fs p)
  /\ (Cli.verify options = true ->
      snd st = fs /\ Cli.skipped (fst st) = Cli.skipped results).
Proof.
  unfold Cli.processFile. destruct (Cli.verify options).
  - destruct (Cli.verifyIndex file fs) as [[| |]|];
      cbn [fst snd Cli.success Cli.skipped Cli.failed];
      repeat split; auto; lia.
  - destruct (Cli.remove options).
    + destruct (Cli.removeIndex file fs) as [[[|] fs']|] eqn:Hr;
        cbn [fst snd Cli.success Cli.skipped Cli.failed];
        repeat split; auto; try lia; try discriminate;
        exact (cli_removeIndex_other _ _ _ _ Hr).
    + destruct (Cli.indexFile _ file _ fs) as [[[|] fs']|] eqn:Hr;
        cbn [fst snd Cli.success Cli.skipped Cli.failed];
        repeat split; auto; try lia; try discriminate;
        exact (cli_indexFile_other _ _ _ _ _ _ Hr).
Qed.

Lemma processAll_spec clock options files : forall results fs,
  let st := fold_left (fun st file => Cli.processFile clock options file st)
                      files (results, fs) in
  Cli.success (fst st) + Cli.skipped (fst st) + Cli.failed (fst st)
  = length files + (Cli.success results + Cli.skipped results + Cli.failed results)
  /\ (forall p, ~ In p files -> snd st p = fs p)
  /\ (Cli.verify options = true ->
      snd st = fs /\ Cli.skipped (fst st) = Cli.skipped results).
Proof.
  induction files as [|f t IH]; intros results fs; cbn [fold_left length].
  - cbn [fst snd]. auto.
  - destruct (processFile_spec clock options f results fs) as (H1 & H2 & H3).
    destruct (Cli.processFile clock options f (results, fs)) as [results1 fs1].
    cbn [fst snd] in H1, H2, H3.
    destruct (IH results1 fs1) as (I1 & I2 & I3). cbv zeta in *.
    split; [|split].
    + rewrite I1, H1. cbn [Nat.add]. lia.
    + intros p Hp. rewrite I2 by (intros Hin; apply Hp; right; exact Hin).
      apply H2. intros ->. apply Hp. left. reflexivity.
    + intros Hv. destruct (H3 Hv) as [E1 E2]. destruct (I3 Hv) as [E3 E4].
      split; congruence.
Qed.

(** [[...new Set(files)]] keeps each path once. *)
Lemma seen_spec f seen : existsb (eqs f) seen = true <-> In f seen.
Proof.
  rewrite existsb_exists. split.
  - intros (x & Hx & He). apply eqs_true in He. subst x. exact Hx.
  - intros H. exists f. split; [exact H|apply eqs_refl].
Qed.

Lemma unique_spec files : forall seen,
  NoDup (Cli.unique seen files)
  /\ forall p, In p (Cli.unique seen files) <-> In p files /\ ~ In p seen.
Proof.
  induction files as [|f t IH]; intros seen; cbn [Cli.unique].
  - split; [constructor|]. intros p. cbn [In]. tauto.
  - destruct (existsb (eqs f) seen) eqn:Hs.
    + apply seen_spec in Hs. destruct (IH seen) as [H1 H2].
      split; [exact H1|]. intros p. rewrite H2. cbn [In].
      split; [tauto|]. intros [[<-|H] Hn]; tauto.
    + assert (Hn : ~ In f seen).
      { intros H. apply seen_spec in H. congruence. }
      destruct (IH (f :: seen)) as [H1 H2]. split.
      * constructor; [|exact H1]. rewrite H2. cbn [In]. tauto.
      * intros p. cbn [In]. rewrite H2. cbn [In].
        destruct (str_eq_dec f p) as [->|Hne]; tauto.
Qed.

(** X18.  A run of the tool that reaches its summary has counted every
    file once: the three counts add up to the number of distinct paths
    among the arguments that are no options and name a file; a path that
    names no file, or a directory, is not counted.  With [--verify] the
    run has changed no file and skipped none, whatever the other options.
    A run that ends before the summary changes nothing. *)
Theorem main_counts_every_file :
  forall (clock : str -> str) (args : list str) (fs fs' : FS)
         (outcome : Cli.Outcome),
    Cli.main clock args fs = (outcome, fs') ->
    match outcome with
    | Cli.Done results =>
        (exists files,
            NoDup files
            /\ (forall p, In p files
                          <-> In p args /\ startsWith (lit "--") p = false
                              /\ isFile fs p = true)
            /\ Cli.success results + Cli.skipped results + Cli.failed results
               = length files)
        /\ (existsb (eqs (lit "--verify")) args = true ->
            fs' = fs /\ Cli.skipped results = 0)
    | _ => fs' = fs
    end.
Proof.
  intros clock args fs fs' outcome H. unfold Cli.main in H.
  destruct (_ || _ || _)%bool; [injection H as <- <-; reflexivity|].
  set (patterns := filter (fun a => negb (startsWith (lit "--") a)) args) in *.
  destruct patterns as [|a t] eqn:Hp; [injection H as <- <-; reflexivity|].
  rewrite <- Hp in *. clear a t Hp.
  set (files := Cli.unique [] (filter (isFile fs) patterns)) in *.
  destruct files as [|f l] eqn:Hf; [injection H as <- <-; reflexivity|].
  rewrite <- Hf in *. clear f l Hf.
  destruct (processAll_spec clock (Cli.parseOptions args) files
              (Cli.mkResults 0 0 0) fs) as (H1 & H2 & H3).
  destruct (fold_left _ files _) as [results fs1].
  injection H as <- <-. cbn [fst snd Cli.success Cli.skipped Cli.failed] in *.
  split; [|exact H3].
  exists files. destruct (unique_spec (filter (isFile fs) patterns) []) as [U1 U2].
  split; [exact U1|]. split; [|lia].
  intros p. unfold files. rewrite U2. unfold patterns.
  rewrite !filter_In, negb_true_iff. cbn [In]. tauto.
Qed.

Lemma main_counts_every_file_witness :
  exists results fs',
    Cli.main (fun _ => Sample.now)
             [lit "notes.txt"; lit "--verify"; lit "notes.txt"; lit "none.ts"]
             Sample.notes
    = (Cli.Done results, fs')
    /\ Cli.success results + Cli.skipped results + Cli.failed results = 1
    /\ fs' = Sample.notes.
Proof.
  destruct (Cli.main (fun _ => Sample.now)
              [lit "notes.txt"; lit "--verify"; lit "notes.txt"; lit "none.ts"]
              Sample.notes) as [outcome fs'] eqn:E.
  pose proof (main_counts_every_file _ _ _ _ _ E) as H.
  assert (Ho : exists results, outcome = Cli.Done results).
  { vm_compute in E. injection E as <- _. eexists. reflexivity. }
  destruct Ho as [results ->]. destruct H as (_ & H3).
  exists results, fs'. split; [reflexivity|].
  assert (Hr : results = Cli.mkResults 0 0 1).
  { vm_compute in E. injection E as <- _. reflexivity. }
  split; [rewrite Hr; reflexivity|].
  apply H3. vm_compute. reflexivity.
Defined.

(** A directory among the arguments is passed over: with the directory
    [src] and the file [notes.txt] the summary counts one file; with the
    directory alone the run ends before the summary. *)
Lemma main_skips_directory :
  let fs := mkFS (Sample.single (lit "notes.txt") (lit "hello"))
                 (fun p => eqs p (lit "notes.txt"))
                 (fun p => eqs p (lit "notes.txt") || eqs p (lit "src"))
                 (fun _ => false) in
  fst (Cli.main (fun _ => Sample.now) [lit "src"; lit "notes.txt"] fs)
  = Cli.Done (Cli.mkResults 0 1 0)
  /\ fst (Cli.main (fun _ => Sample.now) [lit "src"] fs) = Cli.NoFiles.
Proof. split; vm_compute; reflexivity. Qed.

(* ------------------------------------------------------------------ *)
(** * The errors of the server's tool handler                          *)
(* ------------------------------------------------------------------ *)

Lemma server_generateIndex_returns filePath fs :
  (exists index, Server.generateIndex filePath fs = Return index)
  <-> fs filePath <> None.
Proof.
  unfold Server.generateIndex, readFile.
  destruct (fs filePath); split; try discriminate.
  - intros _. eexists. reflexivity.
  - intros [? H]. discriminate.
  - intros H. contradiction.
Qed.

Lemma server_readSectionOf_returns filePath sectionName fs :
  (exists r, Server.readSectionOf filePath sectionName fs = Return r)
  <-> fs filePath <> None.
Proof.
  unfold Server.readSectionOf, Server.readSection, Server.generateIndex, readFile.
  destruct (fs filePath).
  - split; [discriminate|]. intros _.
    destruct sectionName as [n|]; [|eexists; reflexivity].
    cbn [Server.sections]. destruct (find _ _); eexists; reflexivity.
  - split; [|contradiction]. destruct sectionName; intros [? H]; discriminate.
Qed.

(** X19.  The handler of [tools/call] answers with [isError] in three
    cases only: the tool is neither [get_file_index] nor [read_section],
    the request gives no [file_path], or the file cannot be read.  A
    section name that the index does not have is no error of the handler:
    the answer carries the [not found] payload of [readSection]. *)
Theorem callTool_errors :
  forall (name : str) (args : Server.CallArgs) (fs : FS),
    (exists text, Server.callTool name args fs = Server.IsError text)
    <-> (name <> lit "get_file_index" /\ name <> lit "read_section")
        \/ Server.file_path args = None
        \/ exists p, Server.file_path args = Some p /\ fs p = None.
Proof.
  intros name args fs. unfold Server.callTool.
  destruct (eqs name (lit "get_file_index")) eqn:H1.
  - apply eqs_true in H1. subst name.
    destruct (Server.file_path args) as [p|].
    + destruct (Server.generateIndex p fs) as [index|e] eqn:Hg.
      * assert (Hp : fs p <> None)
          by (apply server_generateIndex_returns; eexists; exact Hg).
        split; [intros [? H]; discriminate|].
        intros [[H _]|[H|(q & Hq & Hn)]]; try congruence.
      * split; [|intros _; eexists; reflexivity].
        intros _. right. right. exists p. split; [reflexivity|].
        destruct (fs p) eqn:Hf; [|reflexivity]. exfalso.
        assert (Hr : exists i, Server.generateIndex p fs = Return i)
          by (apply server_generateIndex_returns; congruence).
        destruct Hr as [i Hi]. congruence.
    + split; [auto|]. intros _. eexists. reflexivity.
  - destruct (eqs name (lit "read_section")) eqn:H2.
    + apply eqs_true in H2. subst name.
      destruct (Server.file_path args) as [p|].
      * destruct (Server.readSectionOf p (Server.section_name args) fs)
          as [r|e] eqn:Hg.
        -- assert (Hp : fs p <> None)
             by (eapply server_readSectionOf_returns; eexists; exact Hg).
           split; [intros [? H]; discriminate|].
           intros [[_ H]|[H|(q & Hq & Hn)]]; try congruence.
        -- split; [|intros _; eexists; reflexivity].
           intros _. right. right. exists p. split; [reflexivity|].
           destruct (fs p) eqn:Hf; [|reflexivity]. exfalso.
           assert (Hr : exists r, Server.readSectionOf p
                                    (Server.section_name args) fs = Return r)
             by (apply server_readSectionOf_returns; congruence).
           destruct Hr as [r Hr]. congruence.
      * split; [auto|]. intros _. eexists. reflexivity.
    + split; [|intros _; eexists; reflexivity].
      intros _. left. split; intros ->; rewrite eqs_refl in *; discriminate.
Qed.

(** A section that is not there is answered without [isError]. *)
Lemma missing_section_is_no_error :
  Server.callTool (lit "read_section")
    (Server.mkArgs (Some (lit "notes.txt")) (Some (lit "imports"))) Sample.notes
  = Server.Content
      (Server.SectionOf
         (Server.NotFound (lit "Section " ++ dq ++ lit "imports" ++ dq ++ lit " not found")
                          [lit "main"])).
Proof. vm_compute. reflexivity. Qed.

(* ------------------------------------------------------------------ *)
(** * The table is read back as it was written                         *)
(* ------------------------------------------------------------------ *)



(** ** Texts without a bar *)












Lemma prefix_len_ext (f g : char -> bool) l :
  (forall c, f c = g c) -> prefix_len f l = prefix_len g l.
Proof.
  intros H. induction l as [|c t IH]; [reflexivity|].
  cbn [prefix_len]. rewrite H, IH. reflexivity.
Qed.

Lemma prefix_len_full f l : forallb f l = true -> prefix_len f l = length l.
Proof.
  induction l as [|c t IH]; [reflexivity|].
  cbn [forallb prefix_len length]. intros H. apply andb_prop in H.
  destruct H as [Hc Ht]. rewrite Hc, (IH Ht). reflexivity.
Qed.

(** ** The cells of a row *)










(** ** Numbers in cells *)



Lemma takeWhile_prefix f l : exists r, l = takeWhile f l ++ r.
Proof.
  induction l as [|c t IH]; [exists []; reflexivity|].
  cbn [takeWhile]. destruct (f c).
  - destruct IH as [r Hr]. exists r. cbn [app]. rewrite <- Hr. reflexivity.
  - exists (c :: t). reflexivity.
Qed.




(** ** Searching for a row *)






(** ** A row is read back *)








(** ** The rows, one after the other *)





(** ** The object of the stored sections *)









(** ** From the top of the block to the first row *)














(** Each condition of the round trip is needed.  A section alone in its
    table is not read back as it was written when its name starts with a
    blank, its description holds a bar or starts with a blank, its line is
    negative, or its end lies more than one line before its line; and of
    two sections of one name the first is not read back. *)
Lemma round_trip_conditions :
  let same (e : IndexEntry) (s : Section) :=
    ((e_line e =? line s) && (e_end e =? end_ s)
     && (e_size e =? end_ s - line s + 1))%Z
    && eqs (e_desc e) (orEmpty (desc s)) in
  let kept table s :=
    match Lib.parseIndex (Lib.generateIndex Sample.now table 10) with
    | Some p =>
        match lookup (name s) (sections p) with
        | Stored e => same e s
        | _ => false
        end
    | None => false
    end in
  map (fun s => kept [s] s)
      [mkSection (lit " a") 1 3 (Some (lit "x"));
       mkSection (lit "a") 1 3 (Some (lit "x|y"));
       mkSection (lit "a") 1 3 (Some (lit " x"));
       mkSection (lit "a") (-1) 3 (Some (lit "x"));
       mkSection (lit "a") 5 2 (Some (lit "x"));
       mkSection (lit "a") 1 3 (Some (lit "x"))]
  = [false; false; false; false; false; true]
  /\ kept [mkSection (lit "a") 1 3 (Some (lit "x"));
           mkSection (lit "a") 5 9 (Some (lit "y"))]
          (mkSection (lit "a") 1 3 (Some (lit "x")))
     = false.
Proof. split; vm_compute; reflexivity. Qed.

(** A first section whose name is a number is not read back: its name is
    taken for the line of a row that starts in the separator. *)
Lemma first_name_that_is_a_number :
  option_map
    (fun p => (lookup (lit "2024") (sections p), lookup (lit "*") (sections p)))
    (Lib.parseIndex
       (Lib.generateIndex Sample.now [mkSection (lit "2024") 1 3 (Some [])] 3))
  = Some (Undefined, Stored (mkEntry 2024 1 3 (lit "3"))).
Proof. vm_compute. reflexivity. Qed.

(* ------------------------------------------------------------------ *)
(** * The two servers                                                  *)
(* ------------------------------------------------------------------ *)

Lemma server_resolve_nonempty lines cfg : Server.resolve lines cfg <> [].
Proof.
  unfold Server.resolve.
  destruct (Server.detectSectionsExplicit lines cfg); [|discriminate].
  destruct (Server.detectSectionsAuto lines cfg); discriminate.
Qed.

(** X20.  The server of version 2.1 and the server of version 2.0 fail on
    the same files, with the same error, and report the same path,
    language and number of lines.  When no companion document of the file
    supplies a row (none can be accessed, the one found cannot be read, or
    its table has no row) they report the same sections, and the source is
    not [markdown].  When rows are supplied, the rows are the sections, in
    the order of the table and each with the size [end - line + 1], and
    the source is [markdown].  The list of sections is never empty.  (The
    numbers of the rows are taken to lie in the safe range.) *)
Theorem server21_and_server :
  forall (filePath : str) (fs : FS),
    forallb in_range (companion_rows filePath fs) = true ->
    match Server.generateIndex filePath fs,
          Server21.generateIndex filePath fs with
    | Return i, Return j =>
        Server21.path j = Server.path i
        /\ Server21.language j = Server.language i
        /\ Server21.totalLines j = Server.totalLines i
        /\ Server21.sections j <> []
        /\ match companion_rows filePath fs with
           | [] =>
               Server21.sections j = Server.sections i
               /\ Server21.source j <> lit "markdown"
           | rows =>
               Server21.sections j = map Server21.sized rows
               /\ Server21.source j = lit "markdown"
           end
    | Throw e, Throw e' => e = e'
    | _, _ => False
    end.
Proof.
  intros filePath fs _.
  destruct (fs filePath) as [content|] eqn:Hread.
  - destruct (server21_generateIndex filePath content fs Hread)
      as (j & Hj & _ & _ & H).
    rewrite Hj. unfold Server.generateIndex, readFile. rewrite Hread.
    cbn [Server.path Server.language Server.totalLines Server.sections].
    assert (Hfields : Server21.path j = filePath
                      /\ Server21.language j
                         = match Server.detectLanguage filePath with
                           | Some c => Server.lang c
                           | None => lit "unknown"
                           end
                      /\ Server21.totalLines j
                         = Z.of_nat (length (split_nl content))).
    { unfold Server21.generateIndex, readFile in Hj. rewrite Hread in Hj.
      repeat match type of Hj with
             | context [let '(_, _) := ?x in _] => destruct x
             end.
      injection Hj as <-. repeat split. }
    destruct Hfields as (-> & -> & ->). repeat split.
    + destruct (companion_rows filePath fs) as [|r rows];
        destruct H as [-> _]; [apply server_resolve_nonempty|discriminate].
    + destruct (companion_rows filePath fs) as [|r rows]; [|exact H].
      destruct H as [H1 H2]. split; [exact H1|]. rewrite H2.
      destruct (Server.detectSectionsExplicit _ _); vm_compute; discriminate.
  - unfold Server.generateIndex, Server21.generateIndex, readFile.
    rewrite Hread. reflexivity.
Qed.

Lemma server21_and_server_witness :
  exists j,
    Server21.generateIndex (lit "a.ts") Sample.with_companion = Return j
    /\ Server21.source j = lit "markdown"
    /\ map Server.size (Server21.sections j) = [11; 15; -4]%Z.
Proof.
  assert (Hi : exists i,
             Server.generateIndex (lit "a.ts") Sample.with_companion = Return i)
    by (vm_compute; eexists; reflexivity).
  assert (Hj : exists j,
             Server21.generateIndex (lit "a.ts") Sample.with_companion = Return j)
    by (vm_compute; eexists; reflexivity).
  assert (Hr : companion_rows (lit "a.ts") Sample.with_companion
               = [mkSection (lit "b") 10 20 (Some (lit "second"));
                  mkSection (lit "a") 1 15 (Some (lit "first"));
                  mkSection (lit "c") 9 4 (Some (lit "third"))])
    by (vm_compute; reflexivity).
  destruct Hi as [i Ei]. destruct Hj as [j Ej].
  assert (Hin : forallb in_range (companion_rows (lit "a.ts") Sample.with_companion)
                = true) by (rewrite Hr; vm_compute; reflexivity).
  pose proof (server21_and_server (lit "a.ts") Sample.with_companion Hin) as H.
  rewrite Ei, Ej, Hr in H. destruct H as (_ & _ & _ & _ & Hs & Hsrc).
  exists j. split; [exact Ej|]. split; [exact Hsrc|].
  rewrite Hs. vm_compute. reflexivity.
Defined.

(** The server of version 2.1 on the sample with a companion document,
    and on the same file when the document is out of reach *)
Lemma server21_example :
  let spans r :=
    match r with
    | Return j => Some (map server_span (Server21.sections j))
    | Throw _ => None
    end in
  spans (Server21.generateIndex (lit "a.ts") Sample.with_companion)
  = Some [(10, 20); (1, 15); (9, 4)]%Z
  /\ spans (Server21.generateIndex (lit "a.ts")
              (Sample.single (lit "a.ts") Sample.twenty_lines))
     = Some [(1, 20)]%Z.
Proof. split; vm_compute; reflexivity. Qed.

(* ------------------------------------------------------------------ *)
(** * The rows of a companion document                                 *)
(* ------------------------------------------------------------------ *)

Lemma parseInt_nonneg s : (0 <= parseInt s)%Z.
Proof. unfold parseInt. lia. Qed.

Lemma trimStart_idem s : trimStart (trimStart s) = trimStart s.
Proof.
  induction s as [|c t IH]; [reflexivity|]. cbn [trimStart].
  destruct (isSpace c) eqn:Hc; [exact IH|]. cbn [trimStart]. rewrite Hc.
  reflexivity.
Qed.

Lemma trimStart_last l c :
  isSpace c = false -> exists l', trimStart (l ++ [c]) = l' ++ [c].
Proof.
  intros Hc. induction l as [|x t IH]; cbn [app trimStart].
  - rewrite Hc. exists []. reflexivity.
  - destruct (isSpace x); [exact IH|]. exists (x :: t). reflexivity.
Qed.

Lemma trimEnd_head c t :
  isSpace c = false -> exists u, trimEnd (c :: t) = c :: u.
Proof.
  intros Hc. unfold trimEnd. cbn [rev].
  destruct (trimStart_last (rev t) c Hc) as [l' ->].
  rewrite rev_app_distr. cbn [rev app]. eexists. reflexivity.
Qed.

Lemma trim_idem s : trim (trim s) = trim s.
Proof.
  unfold trim.
  assert (H : trimStart (trimEnd (trimStart s)) = trimEnd (trimStart s)).
  { destruct (trimStart s) as [|c t] eqn:Hs; [reflexivity|].
    assert (Hc : isSpace c = false).
    { destruct (isSpace c) eqn:Hc; [|reflexivity]. exfalso.
      pose proof (trimStart_idem s) as Hi. rewrite Hs in Hi.
      cbn [trimStart] in Hi. rewrite Hc in Hi.
      pose proof (trimStart_length t) as Hl. rewrite Hi in Hl.
      cbn [length] in Hl. lia. }
    destruct (trimEnd_head c t Hc) as [u ->]. apply trimStart_id, Hc. }
  rewrite H. unfold trimEnd at 1 2. rewrite rev_involutive, trimStart_idem.
  reflexivity.
Qed.

Lemma includes_trim_false p s :
  includes p s = false -> includes p (trim s) = false.
Proof.
  intros H. destruct (includes p (trim s)) eqn:E; [|reflexivity].
  apply includes_trim in E. congruence.
Qed.

Lemma rowSections_spec row s :
  In s (Server21.rowSections row) ->
  includes (lit "Section") (name s) = false
  /\ includes (lit "---") (name s) = false
  /\ trim (name s) = name s
  /\ (0 <= line s)%Z /\ (0 <= end_ s)%Z
  /\ exists d, desc s = Some d /\ trim d = d.
Proof.
  unfold Server21.rowSections.
  destruct (includes (lit "Section") (orEmpty (group 1 row))) eqn:H1;
    [intros []|].
  destruct (includes (lit "---") (orEmpty (group 1 row))) eqn:H2;
    [intros []|].
  cbn [orb]. destruct (exec Server21.linesRe _) as [m|]; [|intros []].
  intros [<-|[]]. cbn [name line end_ desc].
  split; [apply includes_trim_false, H1|].
  split; [apply includes_trim_false, H2|].
  split; [apply trim_idem|].
  split; [apply parseInt_nonneg|]. split; [apply parseInt_nonneg|].
  eexists. split; [reflexivity|apply trim_idem].
Qed.

(** X21.  The sections [parseCompanionMarkdown] reads from a companion
    document: the name of each is trimmed and holds neither [Section] nor
    [---] (a row with such a first cell is taken for the header or the
    rule of the table), its line and its end are not negative, and its
    description is a trimmed text.  A document that cannot be read gives
    [null]; a document without a [Sections] heading followed by an empty
    line gives no section. *)
Theorem companion_sections :
  forall (mdPath : str) (fs : FS),
    match Server21.parseCompanionMarkdown mdPath fs with
    | None => fs mdPath = None
    | Some companion =>
        exists content,
          fs mdPath = Some content
          /\ (exec Server21.tableRe content = None ->
              Server21.c_sections companion = [])
          /\ Forall (fun s =>
                       trim (name s) = name s
                       /\ includes (lit "Section") (name s) = false
                       /\ includes (lit "---") (name s) = false
                       /\ (0 <= line s)%Z /\ (0 <= end_ s)%Z
                       /\ exists d, desc s = Some d /\ trim d = d)
                    (Server21.c_sections companion)
    end.
Proof.
  intros mdPath fs. unfold Server21.parseCompanionMarkdown, readFile.
  destruct (fs mdPath) as [content|]; [|reflexivity].
  exists content. split; [reflexivity|]. cbn [Server21.c_sections].
  split; [intros ->; reflexivity|].
  destruct (exec Server21.tableRe content) as [tableMatch|]; [|constructor].
  apply Forall_forall. intros s Hin. apply in_flat_map in Hin.
  destruct Hin as (row & _ & Hin).
  destruct (rowSections_spec row s Hin) as (H1 & H2 & H3 & H4 & H5 & H6).
  repeat split; assumption.
Qed.

(** What the rows need not be: a row may start at line 0 or end before it
    starts, and a range that is no number is passed over.  The heading
    may be written in any case. *)
Lemma companion_rows_as_written :
  option_map
    (fun c => map (fun s => (name s, line s, end_ s)) (Server21.c_sections c))
    (Server21.parseCompanionMarkdown (lit "a.md")
       (Sample.single (lit "a.md")
          (lit "## SECTIONS

| top | 0-5 | |
| back | 9 – 4 | |
| one | 7 | |
| none | soon | |")))
  = Some [(lit "top", 0, 5); (lit "back", 9, 4); (lit "one", 7, 7)]%Z.
Proof. vm_compute. reflexivity. Qed.

(** A section that a companion row starts at line 0 is read from the last
    line of the file: [lines.slice(-1, end)]. *)
Lemma section_from_line_zero :
  Server21.readSection (lit "a.ts") (lit "top")
    (Sample.files [(lit "a.ts", lit "one" ++ [nl] ++ lit "two");
                   (lit "a.ts.ai.md",
                    lit "## Sections

| top | 0-2 | |")])
  = Return (Server.Found (lit "top") 0 2 (lit "two")).
Proof. vm_compute. reflexivity. Qed.
